(** * The operations ledger of the application context: a shallow embedding

    The store of the application (clients, products, projects, transactions,
    stock movements) and the operations of [AppProvider] are embedded as
    Rocq functions over records and lists.

    Conventions of the embedding.
    - A JavaScript [number] holding a quantity or an amount of money is a
      rational ([Q]); a project [number] is an integer ([Z]).  Rounding of
      binary floating point is outside the model; the statements on the
      stock counter and on the pending payments compare the expressions the
      program evaluates, in its order, or rest on order alone, and regroup
      no sum.
    - [String(x)] on such a number and [parseFloat] are inputs ([Numerals]).
    - A JavaScript string is a [string]; each character stands for one code
      unit below 256.
    - An optional field ([field?: T]) is an [option].
    - A React state cell is a field of [Store].  A [setX (prev => ...)] call is
      a functional update of the running state, while a plain read of [X]
      inside an operation sees the value captured when the component was
      rendered: every operation therefore takes the captured store (its first
      argument [r]) next to the running state it transforms.
    - [generateId] and [new Date()] are inputs: the environment supplies the
      identifiers in the order they are asked for, and the time stamp.
    - Recursion that the source does not bound ([checkCircularReference],
      [calculateProductCost]) takes a depth budget; [None] means the budget
      was exceeded, and a call that exceeds every budget does not return. *)

From Stdlib Require Import List String Ascii Bool Arith ZArith QArith Lia.
From Stdlib Require Import DecimalString.
Import ListNotations.

Local Close Scope Q_scope.
Local Open Scope string_scope.
Local Open Scope nat_scope.

(** ** Domain entities *)

Inductive ClientType := pf | pj.

Module Address.
Record t := {
  country : string;
  state : string;
  city : string;
  zipCode : string;
  neighborhood : string;
  streetType : string;
  street : string
}.
End Address.

Module Client.
Record t := {
  id : string;
  name : string;
  type : ClientType;
  cpf : option string;
  cnpj : option string;
  email : string;
  phone : string;
  mobile : string;
  razao_social : option string;
  inscricao_estadual : option string;
  isento_icms : option bool;
  numero : option string;
  complemento : option string;
  id_empresa : option string;
  fl_ativo : bool;
  address : Address.t;
  created_at : string;
  total_projects : option Q;
  total_value : option Q
}.

(** [{ ...clientData, id, created_at }] *)
Definition stamped (c : t) (i now : string) : t :=
  {| id := i; name := name c; type := type c; cpf := cpf c; cnpj := cnpj c;
     email := email c; phone := phone c; mobile := mobile c;
     razao_social := razao_social c;
     inscricao_estadual := inscricao_estadual c;
     isento_icms := isento_icms c; numero := numero c;
     complemento := complemento c; id_empresa := id_empresa c;
     fl_ativo := fl_ativo c; address := address c; created_at := now;
     total_projects := total_projects c; total_value := total_value c |}.
End Client.

Inductive ProductType := material_bruto | parte_produto | produto_pronto.

Module ProductComponent.
Record t := {
  product_id : string;
  product_name : string;
  quantity : Q;
  unit : string;
  unit_cost : Q;
  total_cost : Q
}.
End ProductComponent.

Module Product.
Record t := {
  id : string;
  name : string;
  description : string;
  category : string;
  type : ProductType;
  unit : string;
  components : list ProductComponent.t;
  cost_price : Q;
  sale_price : option Q;
  current_stock : Q;
  min_stock : Q;
  supplier : option string;
  created_at : string
}.

Definition with_current_stock (p : t) (v : Q) : t :=
  {| id := id p; name := name p; description := description p;
     category := category p; type := type p; unit := unit p;
     components := components p; cost_price := cost_price p;
     sale_price := sale_price p; current_stock := v;
     min_stock := min_stock p; supplier := supplier p;
     created_at := created_at p |}.

(** [{ ...productData, id, created_at }] *)
Definition stamped (p : t) (i now : string) : t :=
  {| id := i; name := name p; description := description p;
     category := category p; type := type p; unit := unit p;
     components := components p; cost_price := cost_price p;
     sale_price := sale_price p; current_stock := current_stock p;
     min_stock := min_stock p; supplier := supplier p;
     created_at := now |}.
End Product.

Module ProjectProduct.
Record t := {
  id : string;
  product_id : string;
  product_name : string;
  quantity : Q;
  unit_price : Q;
  total_price : Q
}.
End ProjectProduct.

Inductive ProjectStatus := orcamento | aprovado | em_producao | concluido | entregue.
Inductive ProjectType := tipo_orcamento | venda.
Inductive PaymentMethod :=
  dinheiro | pix | cartao_credito | cartao_debito | boleto | transferencia.

Module PaymentTerms.
Record t := {
  installments : Q;
  payment_method : PaymentMethod;
  discount_percentage : Q;
  installment_value : option Q;
  total_with_discount : option Q
}.
End PaymentTerms.

Module Project.
Record t := {
  id : string;
  number : Z;
  client_id : string;
  client_name : option string;
  title : string;
  description : string;
  status : ProjectStatus;
  type : ProjectType;
  products : list ProjectProduct.t;
  budget : Q;
  start_date : string;
  end_date : string;
  created_at : string;
  materials_cost : option Q;
  labor_cost : option Q;
  profit_margin : option Q;
  payment_terms : option PaymentTerms.t
}.

(** [{ ...projectData, id, number, created_at }] *)
Definition stamped (p : t) (i : string) (n : Z) (now : string) : t :=
  {| id := i; number := n; client_id := client_id p;
     client_name := client_name p; title := title p;
     description := description p; status := status p; type := type p;
     products := products p; budget := budget p;
     start_date := start_date p; end_date := end_date p;
     created_at := now; materials_cost := materials_cost p;
     labor_cost := labor_cost p; profit_margin := profit_margin p;
     payment_terms := payment_terms p |}.
End Project.

(** [Partial<Project>]: a field that is absent is [None]. *)
Module ProjectUpdates.
Record t := {
  id : option string;
  number : option Z;
  client_id : option string;
  client_name : option string;
  title : option string;
  description : option string;
  status : option ProjectStatus;
  type : option ProjectType;
  products : option (list ProjectProduct.t);
  budget : option Q;
  start_date : option string;
  end_date : option string;
  created_at : option string;
  materials_cost : option Q;
  labor_cost : option Q;
  profit_margin : option Q;
  payment_terms : option PaymentTerms.t
}.

Definition none : t :=
  {| id := None; number := None; client_id := None; client_name := None;
     title := None; description := None; status := None; type := None;
     products := None; budget := None; start_date := None;
     end_date := None; created_at := None; materials_cost := None;
     labor_cost := None; profit_margin := None; payment_terms := None |}.
End ProjectUpdates.

Inductive MovementType := entrada | saida.

Module Transaction.
Record t := {
  id : string;
  project_id : option string;
  project_title : option string;
  type : MovementType;
  category : string;
  description : string;
  amount : Q;
  date : string;
  created_at : string
}.

Definition stamped (x : t) (i now : string) : t :=
  {| id := i; project_id := project_id x; project_title := project_title x;
     type := type x; category := category x; description := description x;
     amount := amount x; date := date x; created_at := now |}.
End Transaction.

Module StockMovement.
Record t := {
  id : string;
  product_id : string;
  product_name : string;
  type : MovementType;
  quantity : Q;
  unit_price : option Q;
  total_value : option Q;
  project_id : option string;
  project_title : option string;
  date : string;
  created_at : string
}.

Definition stamped (m : t) (i now : string) : t :=
  {| id := i; product_id := product_id m; product_name := product_name m;
     type := type m; quantity := quantity m; unit_price := unit_price m;
     total_value := total_value m; project_id := project_id m;
     project_title := project_title m; date := date m;
     created_at := now |}.
End StockMovement.

(** ** Small decision procedures used by the comparisons of the source *)

Definition status_eqb (a b : ProjectStatus) : bool :=
  match a, b with
  | orcamento, orcamento | aprovado, aprovado | em_producao, em_producao
  | concluido, concluido | entregue, entregue => true
  | _, _ => false
  end.

Definition is_material_bruto (t : ProductType) : bool :=
  match t with material_bruto => true | _ => false end.

Definition is_entrada (t : MovementType) : bool :=
  match t with entrada => true | saida => false end.

(** [x === some string], where [x] may be [undefined]. *)
Definition opt_is (x : option string) (s : string) : bool :=
  match x with Some y => String.eqb y s | None => false end.

(** ** The BOM resolver *)

(** [products.find(p => p.id === i)] *)
Definition findProduct (products : list Product.t) (i : string)
  : option Product.t :=
  find (fun p => String.eqb (Product.id p) i) products.

(** A [for ... of] loop whose body returns [true] out of the enclosing
    function as soon as the test succeeds; the test itself may fail to
    return. *)
Fixpoint anyM {A : Type} (test : A -> option bool) (l : list A) : option bool :=
  match l with
  | [] => Some false
  | x :: rest =>
      match test x with
      | None => None
      | Some true => Some true
      | Some false => anyM test rest
      end
  end.

(** [fuel] bounds the depth of the recursion.  [components] is an array in
    every record of the declared type, so the test [!product.components]
    never fires and only [!product] is kept. *)
Fixpoint checkCircularReference (fuel : nat) (products : list Product.t)
    (productId componentId : string) : option bool :=
  match fuel with
  | O => None
  | S fuel' =>
      if String.eqb productId componentId then Some true
      else
        match findProduct products componentId with
        | None => Some false
        | Some product =>
            anyM (fun comp =>
                    checkCircularReference fuel' products productId
                      (ProductComponent.product_id comp))
                 (Product.components product)
        end
  end.

(** The accumulating loop of [calculateProductCost]:
    [totalCost += componentCost * component.quantity]. *)
Fixpoint sumCosts (cost : string -> option Q) (totalCost : Q)
    (l : list ProductComponent.t) : option Q :=
  match l with
  | [] => Some totalCost
  | component :: rest =>
      match cost (ProductComponent.product_id component) with
      | None => None
      | Some componentCost =>
          sumCosts cost
            (totalCost + componentCost * ProductComponent.quantity component)%Q
            rest
      end
  end.

Fixpoint calculateProductCost (fuel : nat) (products : list Product.t)
    (productId : string) : option Q :=
  match fuel with
  | O => None
  | S fuel' =>
      match findProduct products productId with
      | None => Some 0%Q
      | Some product =>
          if is_material_bruto (Product.type product)
          then Some (Product.cost_price product)
          else sumCosts (calculateProductCost fuel' products) 0%Q
                 (Product.components product)
      end
  end.

(** A call returns [v] when some depth budget is enough for it. *)
Definition check_returns (products : list Product.t) (productId componentId : string)
    (b : bool) : Prop :=
  exists fuel, checkCircularReference fuel products productId componentId = Some b.

Definition cost_returns (products : list Product.t) (productId : string) (v : Q)
  : Prop :=
  exists fuel, calculateProductCost fuel products productId = Some v.

(** *** The component graph *)

(** [edge products x y]: the product found under id [x] lists [y] as a
    component. *)
Definition edge (products : list Product.t) (x y : string) : Prop :=
  exists p, findProduct products x = Some p /\
            In y (map ProductComponent.product_id (Product.components p)).

Inductive reaches (products : list Product.t) : string -> string -> Prop :=
| reaches_here : forall x, reaches products x x
| reaches_step : forall x y z,
    edge products x y -> reaches products y z -> reaches products x z.

(** The catalog is acyclic when its products can be ranked so that every
    component ranks strictly below the product that lists it. *)
Definition acyclic (products : list Product.t) : Prop :=
  exists rank : string -> nat,
    forall x y, edge products x y -> rank y < rank x.

(** [y] is a direct component of the product found under [x]. *)
Definition componentOf (products : list Product.t) (y x : string) : Prop :=
  edge products x y.

(** Every chain of component edges that starts at [x] ends: on a finite
    catalog, no cycle can be reached from [x]. *)
Definition descendsFinitely (products : list Product.t) (x : string) : Prop :=
  Acc (componentOf products) x.

(** An executable certificate of the same: every chain of component edges
    from [x] has fewer than [n] nodes. *)
Fixpoint boundedDepth (n : nat) (products : list Product.t) (x : string)
  : bool :=
  match n with
  | O => false
  | S n' =>
      match findProduct products x with
      | None => true
      | Some p =>
          forallb (fun c => boundedDepth n' products
                              (ProductComponent.product_id c))
                  (Product.components p)
      end
  end.

(** An executable check of a proposed ranking. *)
Definition rankedb (rank : string -> nat) (products : list Product.t) : bool :=
  forallb (fun p =>
             forallb (fun c => rank (ProductComponent.product_id c)
                               <? rank (Product.id p))
                     (Product.components p))
          products.

(** ** The record store *)

Module Store.
Record t := {
  clients : list Client.t;
  projects : list Project.t;
  transactions : list Transaction.t;
  products : list Product.t;
  stockMovements : list StockMovement.t
}.

Definition empty : t :=
  {| clients := []; projects := []; transactions := []; products := [];
     stockMovements := [] |}.
End Store.

(** What the environment supplies: the identifiers [generateId] hands out,
    in the order of the calls, and [new Date().toISOString()]. *)
Record Env := { idOf : nat -> string; nowISO : string }.

(** The running state: the store and the number of identifiers handed out. *)
Record World := { db : Store.t; ticks : nat }.

Definition generateId (e : Env) (w : World) : string * World :=
  (idOf e (ticks w), {| db := db w; ticks := S (ticks w) |}).

Definition setClients (f : list Client.t -> list Client.t) (w : World) : World :=
  {| db := {| Store.clients := f (Store.clients (db w));
              Store.projects := Store.projects (db w);
              Store.transactions := Store.transactions (db w);
              Store.products := Store.products (db w);
              Store.stockMovements := Store.stockMovements (db w) |};
     ticks := ticks w |}.

Definition setProjects (f : list Project.t -> list Project.t) (w : World) : World :=
  {| db := {| Store.clients := Store.clients (db w);
              Store.projects := f (Store.projects (db w));
              Store.transactions := Store.transactions (db w);
              Store.products := Store.products (db w);
              Store.stockMovements := Store.stockMovements (db w) |};
     ticks := ticks w |}.

Definition setTransactions (f : list Transaction.t -> list Transaction.t)
    (w : World) : World :=
  {| db := {| Store.clients := Store.clients (db w);
              Store.projects := Store.projects (db w);
              Store.transactions := f (Store.transactions (db w));
              Store.products := Store.products (db w);
              Store.stockMovements := Store.stockMovements (db w) |};
     ticks := ticks w |}.

Definition setProducts (f : list Product.t -> list Product.t) (w : World) : World :=
  {| db := {| Store.clients := Store.clients (db w);
              Store.projects := Store.projects (db w);
              Store.transactions := Store.transactions (db w);
              Store.products := f (Store.products (db w));
              Store.stockMovements := Store.stockMovements (db w) |};
     ticks := ticks w |}.

Definition setStockMovements (f : list StockMovement.t -> list StockMovement.t)
    (w : World) : World :=
  {| db := {| Store.clients := Store.clients (db w);
              Store.projects := Store.projects (db w);
              Store.transactions := Store.transactions (db w);
              Store.products := Store.products (db w);
              Store.stockMovements := f (Store.stockMovements (db w)) |};
     ticks := ticks w |}.

(** [iso.split('T')[0]] *)
Fixpoint beforeT (iso : string) : string :=
  match iso with
  | EmptyString => EmptyString
  | String c rest =>
      if Ascii.eqb c "T"%char then EmptyString else String c (beforeT rest)
  end.

(** [new Date().toISOString().split('T')[0]] *)
Definition today (e : Env) : string := beforeT (nowISO e).

(** A project number inside a template literal. *)
Definition showNumber (n : Z) : string := NilZero.string_of_int (Z.to_int n).

Definition half : Q := 1 # 2.

(** *** Transactions *)

Definition addTransaction (e : Env) (transactionData : Transaction.t)
    (w : World) : World :=
  let (i, w1) := generateId e w in
  let newTransaction := Transaction.stamped transactionData i (nowISO e) in
  setTransactions (fun prev => newTransaction :: prev) w1.

(** *** The stock ledger *)

Definition addStockMovement (e : Env) (movementData : StockMovement.t)
    (w : World) : World :=
  let (i, w1) := generateId e w in
  let newMovement := StockMovement.stamped movementData i (nowISO e) in
  let w2 := setStockMovements (fun prev => newMovement :: prev) w1 in
  setProducts
    (map (fun p =>
            if String.eqb (Product.id p) (StockMovement.product_id movementData)
            then
              let newStock :=
                if is_entrada (StockMovement.type movementData)
                then (Product.current_stock p
                      + StockMovement.quantity movementData)%Q
                else (Product.current_stock p
                      - StockMovement.quantity movementData)%Q in
              Product.with_current_stock p newStock
            else p))
    w2.

(** The movement of the sold product itself. *)
Definition saleMovement (e : Env) (projectId : string) (product : Product.t)
    (projectProduct : ProjectProduct.t) : StockMovement.t :=
  {| StockMovement.id := EmptyString;
     StockMovement.product_id := Product.id product;
     StockMovement.product_name := Product.name product;
     StockMovement.type := saida;
     StockMovement.quantity := ProjectProduct.quantity projectProduct;
     StockMovement.unit_price := Some (ProjectProduct.unit_price projectProduct);
     StockMovement.total_value := Some (ProjectProduct.total_price projectProduct);
     StockMovement.project_id := Some projectId;
     StockMovement.project_title := None;
     StockMovement.date := today e;
     StockMovement.created_at := EmptyString |}.

(** The movement of one component of the sold product. *)
Definition componentMovement (e : Env) (projectId : string)
    (projectProduct : ProjectProduct.t) (component : ProductComponent.t)
  : StockMovement.t :=
  let totalQuantity :=
    (ProductComponent.quantity component
     * ProjectProduct.quantity projectProduct)%Q in
  {| StockMovement.id := EmptyString;
     StockMovement.product_id := ProductComponent.product_id component;
     StockMovement.product_name := ProductComponent.product_name component;
     StockMovement.type := saida;
     StockMovement.quantity := totalQuantity;
     StockMovement.unit_price := Some (ProductComponent.unit_cost component);
     StockMovement.total_value :=
       Some (ProductComponent.total_cost component
             * ProjectProduct.quantity projectProduct)%Q;
     StockMovement.project_id := Some projectId;
     StockMovement.project_title := None;
     StockMovement.date := today e;
     StockMovement.created_at := EmptyString |}.

(** The inner loop over [product.components]. *)
Fixpoint consumeComponents (e : Env) (projectId : string)
    (projectProduct : ProjectProduct.t) (components : list ProductComponent.t)
    (w : World) : World :=
  match components with
  | [] => w
  | component :: rest =>
      consumeComponents e projectId projectProduct rest
        (addStockMovement e
           (componentMovement e projectId projectProduct component) w)
  end.

(** [r] is the store captured by the closure: [products.find] reads it.
    The test [product.components] after [!== 'material_bruto'] holds for
    every array, the empty one included. *)
Fixpoint processProjectStockMovement (e : Env) (r : Store.t)
    (projectId : string) (projectProducts : list ProjectProduct.t)
    (w : World) : World :=
  match projectProducts with
  | [] => w
  | projectProduct :: rest =>
      let w' :=
        match findProduct (Store.products r)
                (ProjectProduct.product_id projectProduct) with
        | Some product =>
            let w1 :=
              addStockMovement e
                (saleMovement e projectId product projectProduct) w in
            if negb (is_material_bruto (Product.type product))
            then consumeComponents e projectId projectProduct
                   (Product.components product) w1
            else w1
        | None => w
        end in
      processProjectStockMovement e r projectId rest w'
  end.

(** *** Project lifecycle *)

(** [Math.max(...numbers)] on a list that is not empty. *)
Definition maxNumber (numbers : list Z) : Z :=
  match numbers with
  | [] => 0%Z
  | n :: rest => fold_left Z.max rest n
  end.

Definition nextProjectNumber (projects : list Project.t) : Z :=
  match projects with
  | [] => 1%Z
  | _ :: _ => (maxNumber (map Project.number projects) + 1)%Z
  end.

Definition addProject (e : Env) (r : Store.t) (projectData : Project.t)
    (w : World) : World :=
  let projectNumber := nextProjectNumber (Store.projects r) in
  let (i, w1) := generateId e w in
  let newProject := Project.stamped projectData i projectNumber (nowISO e) in
  let w2 := setProjects (fun prev => newProject :: prev) w1 in
  match Project.type projectData with
  | venda =>
      if negb (status_eqb (Project.status projectData) orcamento) then
        let signalAmount := (Project.budget projectData * half)%Q in
        let w3 :=
          addTransaction e
            {| Transaction.id := EmptyString;
               Transaction.project_id := Some i;
               Transaction.project_title := Some (Project.title projectData);
               Transaction.type := entrada;
               Transaction.category := "Sinal";
               Transaction.description :=
                 "Sinal do projeto #" ++ showNumber projectNumber ++ " - "
                   ++ Project.title projectData;
               Transaction.amount := signalAmount;
               Transaction.date := today e;
               Transaction.created_at := EmptyString |} w2 in
        match Project.products projectData with
        | [] => w3
        | _ :: _ =>
            processProjectStockMovement e r i (Project.products projectData) w3
        end
      else w2
  | tipo_orcamento => w2
  end.

Definition orElse {A : Type} (u : option A) (old : A) : A :=
  match u with Some v => v | None => old end.

Definition orElseOpt {A : Type} (u : option A) (old : option A) : option A :=
  match u with Some v => Some v | None => old end.

(** [{ ...p, ...updates }] *)
Definition mergeProject (p : Project.t) (u : ProjectUpdates.t) : Project.t :=
  {| Project.id := orElse (ProjectUpdates.id u) (Project.id p);
     Project.number := orElse (ProjectUpdates.number u) (Project.number p);
     Project.client_id := orElse (ProjectUpdates.client_id u) (Project.client_id p);
     Project.client_name :=
       orElseOpt (ProjectUpdates.client_name u) (Project.client_name p);
     Project.title := orElse (ProjectUpdates.title u) (Project.title p);
     Project.description :=
       orElse (ProjectUpdates.description u) (Project.description p);
     Project.status := orElse (ProjectUpdates.status u) (Project.status p);
     Project.type := orElse (ProjectUpdates.type u) (Project.type p);
     Project.products := orElse (ProjectUpdates.products u) (Project.products p);
     Project.budget := orElse (ProjectUpdates.budget u) (Project.budget p);
     Project.start_date :=
       orElse (ProjectUpdates.start_date u) (Project.start_date p);
     Project.end_date := orElse (ProjectUpdates.end_date u) (Project.end_date p);
     Project.created_at :=
       orElse (ProjectUpdates.created_at u) (Project.created_at p);
     Project.materials_cost :=
       orElseOpt (ProjectUpdates.materials_cost u) (Project.materials_cost p);
     Project.labor_cost :=
       orElseOpt (ProjectUpdates.labor_cost u) (Project.labor_cost p);
     Project.profit_margin :=
       orElseOpt (ProjectUpdates.profit_margin u) (Project.profit_margin p);
     Project.payment_terms :=
       orElseOpt (ProjectUpdates.payment_terms u) (Project.payment_terms p) |}.

(** [projects.find(p => p.id === id)] *)
Definition findProject (projects : list Project.t) (i : string)
  : option Project.t :=
  find (fun p => String.eqb (Project.id p) i) projects.

(** The final-payment transaction of [updateProject]. *)
Definition finalPayment (e : Env) (i : string) (project : Project.t)
  : Transaction.t :=
  let remainingAmount := (Project.budget project * half)%Q in
  {| Transaction.id := EmptyString;
     Transaction.project_id := Some i;
     Transaction.project_title := Some (Project.title project);
     Transaction.type := entrada;
     Transaction.category := "Pagamento Final";
     Transaction.description :=
       "Pagamento final - Projeto #" ++ showNumber (Project.number project);
     Transaction.amount := remainingAmount;
     Transaction.date := today e;
     Transaction.created_at := EmptyString |}.

Definition updateProject (e : Env) (r : Store.t) (i : string)
    (updates : ProjectUpdates.t) (w : World) : World :=
  let project := findProject (Store.projects r) i in
  let w1 :=
    setProjects
      (map (fun p => if String.eqb (Project.id p) i
                     then mergeProject p updates else p)) w in
  match ProjectUpdates.status updates, project with
  | Some concluido, Some project =>
      if negb (status_eqb (Project.status project) concluido)
      then addTransaction e (finalPayment e i project) w1
      else w1
  | _, _ => w1
  end.

Definition deleteProject (i : string) (w : World) : World :=
  let w1 :=
    setProjects
      (filter (fun project => negb (String.eqb (Project.id project) i))) w in
  let w2 :=
    setTransactions
      (filter (fun t => negb (opt_is (Transaction.project_id t) i))) w1 in
  setStockMovements
    (filter (fun sm => negb (opt_is (StockMovement.project_id sm) i))) w2.

(** *** Products *)

Inductive Error := CircularReference | ProductInUse.

(** How a call that may throw ends: [Diverged] stands for a cycle check
    that exceeded its depth budget. *)
Inductive Outcome :=
| Done (w : World)
| Threw (err : Error)
| Diverged.

(** The guarding loop of [addProduct] and [updateProduct]. *)
Definition anyCircular (fuel : nat) (r : Store.t) (productId : string)
    (components : list ProductComponent.t) : option bool :=
  anyM (fun component =>
          checkCircularReference fuel (Store.products r) productId
            (ProductComponent.product_id component))
       components.

Definition addProduct (fuel : nat) (e : Env) (r : Store.t)
    (productData : Product.t) (w : World) : Outcome :=
  let insert (w0 : World) : Outcome :=
    let (i, w1) := generateId e w0 in
    let newProduct := Product.stamped productData i (nowISO e) in
    Done (setProducts (fun prev => newProduct :: prev) w1) in
  match Product.components productData with
  | [] => insert w
  | _ :: _ =>
      let (tempId, w1) := generateId e w in
      match anyCircular fuel r tempId (Product.components productData) with
      | None => Diverged
      | Some true => Threw CircularReference
      | Some false => insert w1
      end
  end.

Definition updateProduct (fuel : nat) (r : Store.t) (product : Product.t)
    (w : World) : Outcome :=
  let replace (w0 : World) : Outcome :=
    Done (setProducts
            (map (fun p => if String.eqb (Product.id p) (Product.id product)
                           then product else p)) w0) in
  match Product.components product with
  | [] => replace w
  | _ :: _ =>
      match anyCircular fuel r (Product.id product)
              (Product.components product) with
      | None => Diverged
      | Some true => Threw CircularReference
      | Some false => replace w
      end
  end.

Definition deleteProduct (r : Store.t) (i : string) (w : World) : Outcome :=
  let usedIn :=
    existsb (fun p =>
               existsb (fun c => String.eqb (ProductComponent.product_id c) i)
                       (Product.components p))
            (Store.products r) in
  if usedIn then Threw ProductInUse
  else Done (setProducts
               (filter (fun product => negb (String.eqb (Product.id product) i)))
               w).

(** An operation called from a fresh render: the closure has captured the
    store of the running state. *)
Definition fresh {A : Type} (op : Store.t -> World -> A) (w : World) : A :=
  op (db w) w.

(** ** The dashboard query *)

Definition digit (c : ascii) : option nat :=
  let n := nat_of_ascii c in
  if (48 <=? n) && (n <=? 57) then Some (n - 48) else None.

Definition twoDigits (a b : ascii) : option nat :=
  match digit a, digit b with
  | Some x, Some y => Some (10 * x + y)
  | _, _ => None
  end.

Module JsDate.
(** A calendar date; [month] counts from 0 as [getMonth] does. *)
Record t := { year : nat; month : nat; day : nat }.

(** [new Date(text)] for the two ISO forms the program itself produces,
    [YYYY-MM-DD] and [YYYY-MM-DDT...]; any other text is an invalid
    date ([None]).  The local time zone is taken to be UTC. *)
Definition parse (text : string) : option t :=
  match text with
  | String y1 (String y2 (String y3 (String y4 (String "-"
      (String m1 (String m2 (String "-" (String d1 (String d2 rest))))))))) =>
      let tail_ok :=
        match rest with
        | EmptyString => true
        | String c _ => Ascii.eqb c "T"%char
        end in
      match twoDigits y1 y2, twoDigits y3 y4, twoDigits m1 m2,
            twoDigits d1 d2 with
      | Some yh, Some yl, Some m, Some d =>
          if tail_ok && (1 <=? m) && (m <=? 12) && (1 <=? d) && (d <=? 31)
          then Some {| year := 100 * yh + yl; month := m - 1; day := d |}
          else None
      | _, _, _, _ => None
      end
  | _ => None
  end.

(** [new Date(text).getMonth()]; [None] is [NaN]. *)
Definition getMonth (text : string) : option nat :=
  option_map month (parse text).

Definition getFullYear (text : string) : option nat :=
  option_map year (parse text).
End JsDate.

(** [a === b] on two month numbers, either of which may be [NaN]. *)
Definition sameNumber (a b : option nat) : bool :=
  match a, b with
  | Some x, Some y => x =? y
  | _, _ => false
  end.

Definition monthlyRevenue (e : Env) (s : Store.t) : Q :=
  let currentMonth := JsDate.getMonth (nowISO e) in
  fold_left (fun sum t => (sum + Transaction.amount t)%Q)
    (filter (fun t => is_entrada (Transaction.type t)
                      && sameNumber (JsDate.getMonth (Transaction.date t))
                                    currentMonth)
            (Store.transactions s))
    0%Q.

Definition activeProjects (s : Store.t) : nat :=
  List.length (filter (fun p => status_eqb (Project.status p) em_producao
                           || status_eqb (Project.status p) aprovado)
                 (Store.projects s)).

Definition pendingPayments (s : Store.t) : Q :=
  fold_left (fun sum p => (sum + Project.budget p * half)%Q)
    (filter (fun p => status_eqb (Project.status p) concluido
                      || status_eqb (Project.status p) entregue)
            (Store.projects s))
    0%Q.

Definition lowStockItems (s : Store.t) : nat :=
  List.length (filter (fun p => Qle_bool (Product.current_stock p)
                                    (Product.min_stock p))
                 (Store.products s)).

Module DashboardStats.
(** The numeric part of the result of [getDashboardStats]; the activity
    feed is presentation and is left out. *)
Record t := {
  totalClients : nat;
  activeProjects : nat;
  monthlyRevenue : Q;
  pendingPayments : Q;
  lowStockItems : nat
}.
End DashboardStats.

Definition getDashboardStats (e : Env) (s : Store.t) : DashboardStats.t :=
  {| DashboardStats.totalClients := List.length (Store.clients s);
     DashboardStats.activeProjects := activeProjects s;
     DashboardStats.monthlyRevenue := monthlyRevenue e s;
     DashboardStats.pendingPayments := pendingPayments s;
     DashboardStats.lowStockItems := lowStockItems s |}.

(** ** The CSV mapping of clients

    This mapping is text throughout.  The mappings of products, projects
    and transactions, which print and parse numbers, come after it. *)

Definition dquote : ascii := "034"%char.
Definition newline : ascii := "010"%char.
Definition comma : ascii := ","%char.

(** White space in the sense of [String.prototype.trim], among the code
    units below 256. *)
Definition isSpace (c : ascii) : bool :=
  let n := nat_of_ascii c in
  ((9 <=? n) && (n <=? 13)) || (n =? 32) || (n =? 160).

Definition isEmpty (s : string) : bool :=
  match s with EmptyString => true | String _ _ => false end.

Fixpoint trimStart (s : string) : string :=
  match s with
  | EmptyString => EmptyString
  | String c rest => if isSpace c then trimStart rest else s
  end.

Fixpoint trimEnd (s : string) : string :=
  match s with
  | EmptyString => EmptyString
  | String c rest =>
      let rest' := trimEnd rest in
      if isSpace c && isEmpty rest' then EmptyString else String c rest'
  end.

Definition trim (s : string) : string := trimEnd (trimStart s).

(** [text.split(sep)] for a one-character separator. *)
Fixpoint splitOn (sep : ascii) (text : string) : list string :=
  match text with
  | EmptyString => [EmptyString]
  | String c rest =>
      if Ascii.eqb c sep then EmptyString :: splitOn sep rest
      else
        match splitOn sep rest with
        | piece :: pieces => String c piece :: pieces
        | [] => [String c EmptyString]
        end
  end.

(** [fields.join(sep)] *)
Definition join (sep : string) (fields : list string) : string :=
  String.concat sep fields.

(** A value between two double quotes. *)
Definition quoted (s : string) : string :=
  String dquote (s ++ String dquote EmptyString).

(** [`${x}`] where [x] may be [undefined]. *)
Definition template (x : option string) : string :=
  match x with Some s => s | None => "undefined" end.

(** [x || ''] *)
Definition orEmpty (x : option string) : string :=
  match x with Some s => s | None => EmptyString end.

(** [x || undefined] *)
Definition orUndefined (x : option string) : option string :=
  match x with
  | Some EmptyString => None
  | other => other
  end.

Definition showFlag (b : bool) : string := if b then "true" else "false".

(** [x ? ... : ...] on an optional boolean. *)
Definition truthy (x : option bool) : bool :=
  match x with Some true => true | _ => false end.

Definition clientHeaders : list string :=
  [ "tipo"; "nome"; "endereco"; "tipopessoa"; "fone_comercial"; "fone_celular";
    "cep"; "cidade"; "email"; "cpf_cnpj"; "inscricao_estadual"; "bairro";
    "complemento"; "numero"; "isento_icms"; "razao_social"; "id_empresa";
    "fl_ativo" ].

Definition clientRow (client : Client.t) : list string :=
  let a := Client.address client in
  [ "Cliente";
    quoted (Client.name client);
    quoted (Address.streetType a ++ " " ++ Address.street a);
    match Client.type client with pj => "J" | pf => "F" end;
    quoted (Client.phone client);
    quoted (Client.mobile client);
    quoted (Address.zipCode a);
    quoted (Address.city a);
    quoted (Client.email client);
    quoted (template (match Client.type client with
                      | pj => Client.cnpj client
                      | pf => Client.cpf client
                      end));
    quoted (orEmpty (Client.inscricao_estadual client));
    quoted (Address.neighborhood a);
    quoted (orEmpty (Client.complemento client));
    quoted (orEmpty (Client.numero client));
    showFlag (truthy (Client.isento_icms client));
    quoted (orEmpty (Client.razao_social client));
    quoted (orEmpty (Client.id_empresa client));
    showFlag (Client.fl_ativo client) ].

(** The text handed to [downloadCSV]. *)
Definition exportClientsCSV (s : Store.t) : string :=
  join (String newline EmptyString)
    (join "," clientHeaders
     :: map (fun client => join "," (clientRow client)) (Store.clients s)).

(** The loop of [parseCSVLine] over the characters still to read. *)
Fixpoint parseLoop (line : string) (result : list string) (current : string)
    (inQuotes : bool) : list string :=
  match line with
  | EmptyString => result ++ [trim current]
  | String char rest =>
      if Ascii.eqb char dquote then parseLoop rest result current (negb inQuotes)
      else if Ascii.eqb char comma && negb inQuotes
      then parseLoop rest (result ++ [trim current]) EmptyString inQuotes
      else parseLoop rest result (current ++ String char EmptyString) inQuotes
  end.

Definition parseCSVLine (line : string) : list string :=
  parseLoop line [] EmptyString false.

Definition addClient (e : Env) (clientData : Client.t) (w : World) : World :=
  let (i, w1) := generateId e w in
  let newClient := Client.stamped clientData i (nowISO e) in
  setClients (fun prev => newClient :: prev) w1.

(** The [clientData] literal of [importClientsCSV]; [values[k]] is
    [nth_error values k]. *)
Definition clientOfValues (values : list string) : Client.t :=
  let v (k : nat) := nth_error values k in
  {| Client.id := EmptyString;
     Client.name := orEmpty (v 1);
     Client.type := if opt_is (v 3) "J" then pj else pf;
     Client.cpf := if opt_is (v 3) "F" then v 9 else None;
     Client.cnpj := if opt_is (v 3) "J" then v 9 else None;
     Client.email := orEmpty (v 8);
     Client.phone := orEmpty (v 4);
     Client.mobile := orEmpty (v 5);
     Client.razao_social := orUndefined (v 15);
     Client.inscricao_estadual := orUndefined (v 10);
     Client.isento_icms := Some (opt_is (v 14) "true");
     Client.numero := orUndefined (v 13);
     Client.complemento := orUndefined (v 12);
     Client.id_empresa := orUndefined (v 16);
     Client.fl_ativo := negb (opt_is (v 17) "false");
     Client.address :=
       {| Address.country := "Brasil";
          Address.state := EmptyString;
          Address.city := orEmpty (v 7);
          Address.zipCode := orEmpty (v 6);
          Address.neighborhood := orEmpty (v 11);
          Address.streetType := "Rua";
          Address.street := orEmpty (v 2) |};
     Client.created_at := EmptyString;
     Client.total_projects := Some 0%Q;
     Client.total_value := Some 0%Q |}.

(** One turn of the loop of [importClientsCSV]. *)
Definition importClientLine (e : Env) (rawLine : string) (w : World) : World :=
  let line := trim rawLine in
  if isEmpty line then w
  else
    let values := parseCSVLine line in
    if List.length values <? 10 then w
    else addClient e (clientOfValues values) w.

Definition importClientsCSV (e : Env) (text : string) (w : World) : World :=
  fold_left (fun w0 rawLine => importClientLine e rawLine w0)
    (tl (splitOn newline text)) w.

(** ** Specification-level notions for the BOM resolver *)

(** [sum_i cost_i * quantity_i], accumulated from 0 in the order of the
    components. *)
Definition weightedSum (components : list ProductComponent.t) (costs : list Q)
  : Q :=
  fold_left
    (fun total cv => (total + snd cv * ProductComponent.quantity (fst cv))%Q)
    (combine components costs) 0%Q.

(** [i] is neither the id of a product of the catalog nor referenced as a
    component by one. *)
Definition freshIdb (i : string) (products : list Product.t) : bool :=
  negb (existsb
          (fun p => String.eqb (Product.id p) i
                    || existsb (fun c => String.eqb
                                           (ProductComponent.product_id c) i)
                               (Product.components p))
          products).

(** Every component refers to a product of the catalog. *)
Definition referencesExisting (products : list Product.t)
    (components : list ProductComponent.t) : bool :=
  forallb (fun c => existsb (fun p => String.eqb (Product.id p)
                                        (ProductComponent.product_id c))
                            products)
          components.

(** ** Sample data *)

Definition sampleEnv : Env :=
  {| idOf := fun k => "id-" ++ NilZero.string_of_uint (Nat.to_uint k);
     nowISO := "2024-11-02T10:30:00.000Z" |}.

Definition mkComponent (i n : string) (quantity unit_cost total_cost : Q)
  : ProductComponent.t :=
  {| ProductComponent.product_id := i;
     ProductComponent.product_name := n;
     ProductComponent.quantity := quantity;
     ProductComponent.unit := "UN";
     ProductComponent.unit_cost := unit_cost;
     ProductComponent.total_cost := total_cost |}.

Definition mkProduct (i n : string) (ty : ProductType)
    (components : list ProductComponent.t) (cost stock : Q) : Product.t :=
  {| Product.id := i;
     Product.name := n;
     Product.description := EmptyString;
     Product.category := EmptyString;
     Product.type := ty;
     Product.unit := "UN";
     Product.components := components;
     Product.cost_price := cost;
     Product.sale_price := None;
     Product.current_stock := stock;
     Product.min_stock := 0%Q;
     Product.supplier := None;
     Product.created_at := "2024-01-01T00:00:00.000Z" |}.

(** Product A is a raw material of cost 120; product B is a sub-assembly
    made of two units of A. *)
Definition productA : Product.t :=
  mkProduct "A" "Madeira" material_bruto [] (120 # 1) (50 # 1).

Definition productB : Product.t :=
  mkProduct "B" "Tampo" parte_produto
    [mkComponent "A" "Madeira" (2 # 1) (120 # 1) (240 # 1)] 0%Q (10 # 1).

Definition sampleCatalog : list Product.t := [productA; productB].

Definition sampleRank (i : string) : nat :=
  if String.eqb i "B" then 1 else 0.

(** A catalog with a cycle between X and Y; no product P is in it. *)
Definition loopCatalog : list Product.t :=
  [ mkProduct "X" "X" parte_produto
      [mkComponent "Y" "Y" (1 # 1) 0%Q 0%Q] 0%Q 0%Q;
    mkProduct "Y" "Y" parte_produto
      [mkComponent "X" "X" (1 # 1) 0%Q 0%Q] 0%Q 0%Q ].

(** ** Specification-level notions for the stock ledger *)

(** The movements one line item of a project calls for: one [saida] of the
    sold product at the quantity and price of the line and, when the
    product is not a raw material, one [saida] per direct component, scaled
    by the quantity of the line.  Components of components are not looked
    at. *)
Definition expectedLineMovements (e : Env) (catalog : list Product.t)
    (projectId : string) (item : ProjectProduct.t) : list StockMovement.t :=
  match findProduct catalog (ProjectProduct.product_id item) with
  | None => []
  | Some product =>
      {| StockMovement.id := EmptyString;
         StockMovement.product_id := Product.id product;
         StockMovement.product_name := Product.name product;
         StockMovement.type := saida;
         StockMovement.quantity := ProjectProduct.quantity item;
         StockMovement.unit_price := Some (ProjectProduct.unit_price item);
         StockMovement.total_value := Some (ProjectProduct.total_price item);
         StockMovement.project_id := Some projectId;
         StockMovement.project_title := None;
         StockMovement.date := today e;
         StockMovement.created_at := EmptyString |}
      :: match Product.type product with
         | material_bruto => []
         | _ =>
             map (fun c =>
                    {| StockMovement.id := EmptyString;
                       StockMovement.product_id := ProductComponent.product_id c;
                       StockMovement.product_name :=
                         ProductComponent.product_name c;
                       StockMovement.type := saida;
                       StockMovement.quantity :=
                         (ProductComponent.quantity c
                          * ProjectProduct.quantity item)%Q;
                       StockMovement.unit_price :=
                         Some (ProductComponent.unit_cost c);
                       StockMovement.total_value :=
                         Some (ProductComponent.total_cost c
                               * ProjectProduct.quantity item)%Q;
                       StockMovement.project_id := Some projectId;
                       StockMovement.project_title := None;
                       StockMovement.date := today e;
                       StockMovement.created_at := EmptyString |})
                 (Product.components product)
         end
  end.

(** The records [addStockMovement] stores for a run of movement data, the
    first of which receives the [k]-th identifier. *)
Fixpoint stampFrom (e : Env) (k : nat) (ms : list StockMovement.t)
  : list StockMovement.t :=
  match ms with
  | [] => []
  | m :: rest =>
      StockMovement.stamped m (idOf e k) (nowISO e) :: stampFrom e (S k) rest
  end.

(** What a movement adds to the stock of its product. *)
Definition signedQuantity (m : StockMovement.t) : Q :=
  if is_entrada (StockMovement.type m)
  then StockMovement.quantity m
  else (- StockMovement.quantity m)%Q.

(** The signed sum of the movements of one product. *)
Fixpoint ledgerSum (productId : string) (ms : list StockMovement.t) : Q :=
  match ms with
  | [] => 0%Q
  | m :: rest =>
      if String.eqb (StockMovement.product_id m) productId
      then (signedQuantity m + ledgerSum productId rest)%Q
      else ledgerSum productId rest
  end.

(** The counter replayed from the ledger: from the initial stock, the
    movements of the product are applied in the order they were recorded
    (the ledger holds the latest first), an [entrada] added and a [saida]
    subtracted, by the very operations [addStockMovement] applies to the
    counter.  No sum is regrouped, so the value is the one the program
    computes whatever the arithmetic of its numbers. *)
Fixpoint replayStock (productId : string) (initial : Q)
    (ms : list StockMovement.t) : Q :=
  match ms with
  | [] => initial
  | m :: earlier =>
      if String.eqb (StockMovement.product_id m) productId
      then
        if is_entrada (StockMovement.type m)
        then (replayStock productId initial earlier
              + StockMovement.quantity m)%Q
        else (replayStock productId initial earlier
              - StockMovement.quantity m)%Q
      else replayStock productId initial earlier
  end.

(** The counter of every product is its initial stock with the movements
    of the ledger applied in order. *)
Definition tracksLedger (initial : string -> Q) (s : Store.t) : Prop :=
  forall p, In p (Store.products s) ->
    Product.current_stock p
    = replayStock (Product.id p) (initial (Product.id p))
        (Store.stockMovements s).

(** The same number, written the same way. *)
Definition sameNumberQ (a b : Q) : bool :=
  Z.eqb (Qnum a) (Qnum b) && Pos.eqb (Qden a) (Qden b).

Definition tracksLedgerb (initial : string -> Q) (s : Store.t) : bool :=
  forallb (fun p =>
             sameNumberQ (Product.current_stock p)
               (replayStock (Product.id p) (initial (Product.id p))
                  (Store.stockMovements s)))
          (Store.products s).

(** The counter of every product agrees with its initial stock plus the
    signed sum of the ledger. *)
Definition consistentb (initial : string -> Q) (s : Store.t) : bool :=
  forallb (fun p =>
             Qeq_bool (Product.current_stock p)
               (initial (Product.id p)
                + ledgerSum (Product.id p) (Store.stockMovements s))%Q)
          (Store.products s).

(** [initial] with the stock of a newly created product recorded. *)
Definition withInitial (initial : string -> Q) (i : string) (stock : Q)
  : string -> Q :=
  fun x => if String.eqb x i then stock else initial x.

(** No product and no movement of the store carries the id [i]. *)
Definition unusedProductId (i : string) (s : Store.t) : bool :=
  negb (existsb (fun p => String.eqb (Product.id p) i) (Store.products s))
  && negb (existsb (fun m => String.eqb (StockMovement.product_id m) i)
                   (Store.stockMovements s)).

(** The sample catalog next to the cycle between X and Y. *)
Definition mixedCatalog : list Product.t := loopCatalog ++ sampleCatalog.

(** *** Sample data: a sale of three units of B *)

Definition sampleLine : ProjectProduct.t :=
  {| ProjectProduct.id := "line-1";
     ProjectProduct.product_id := "B";
     ProjectProduct.product_name := "Tampo";
     ProjectProduct.quantity := 3 # 1;
     ProjectProduct.unit_price := 400 # 1;
     ProjectProduct.total_price := 1200 # 1 |}.

Definition sampleStore : Store.t :=
  {| Store.clients := []; Store.projects := []; Store.transactions := [];
     Store.products := sampleCatalog; Store.stockMovements := [] |}.

Definition sampleWorld : World := {| db := sampleStore; ticks := 0 |}.

Definition sampleInitial (i : string) : Q :=
  if String.eqb i "A" then 50 # 1
  else if String.eqb i "B" then 10 # 1 else 0.

Definition sampleSale : Project.t :=
  {| Project.id := EmptyString;
     Project.number := 0%Z;
     Project.client_id := "client-1";
     Project.client_name := Some "Joao Silva";
     Project.title := "Mesa de jantar";
     Project.description := EmptyString;
     Project.status := aprovado;
     Project.type := venda;
     Project.products := [sampleLine];
     Project.budget := 1000 # 1;
     Project.start_date := "2024-11-02";
     Project.end_date := "2024-12-02";
     Project.created_at := EmptyString;
     Project.materials_cost := None;
     Project.labor_cost := None;
     Project.profit_margin := None;
     Project.payment_terms := None |}.

(** ** Specification-level notions for the project lifecycle *)

(** A sequence of updates of project [i], each issued from a fresh
    render. *)
Definition runUpdates (e : Env) (i : string) (us : list ProjectUpdates.t)
    (w : World) : World :=
  fold_left (fun w0 u => fresh (fun r => updateProject e r i u) w0) us w.

(** How many updates of the sequence set the status to [concluido] while
    the stored status, [st] at the start, is another one. *)
Fixpoint entriesIntoConcluido (st : ProjectStatus)
    (us : list ProjectUpdates.t) : nat :=
  match us with
  | [] => 0
  | u :: rest =>
      (match ProjectUpdates.status u with
       | Some concluido => if status_eqb st concluido then 0 else 1
       | _ => 0
       end)
      + entriesIntoConcluido (orElse (ProjectUpdates.status u) st) rest
  end.

Definition setStatus (st : ProjectStatus) : ProjectUpdates.t :=
  {| ProjectUpdates.id := None; ProjectUpdates.number := None;
     ProjectUpdates.client_id := None; ProjectUpdates.client_name := None;
     ProjectUpdates.title := None; ProjectUpdates.description := None;
     ProjectUpdates.status := Some st; ProjectUpdates.type := None;
     ProjectUpdates.products := None; ProjectUpdates.budget := None;
     ProjectUpdates.start_date := None; ProjectUpdates.end_date := None;
     ProjectUpdates.created_at := None; ProjectUpdates.materials_cost := None;
     ProjectUpdates.labor_cost := None; ProjectUpdates.profit_margin := None;
     ProjectUpdates.payment_terms := None |}.

Definition setStatusAndBudget (st : ProjectStatus) (b : Q) : ProjectUpdates.t :=
  {| ProjectUpdates.id := None; ProjectUpdates.number := None;
     ProjectUpdates.client_id := None; ProjectUpdates.client_name := None;
     ProjectUpdates.title := None; ProjectUpdates.description := None;
     ProjectUpdates.status := Some st; ProjectUpdates.type := None;
     ProjectUpdates.products := None; ProjectUpdates.budget := Some b;
     ProjectUpdates.start_date := None; ProjectUpdates.end_date := None;
     ProjectUpdates.created_at := None; ProjectUpdates.materials_cost := None;
     ProjectUpdates.labor_cost := None; ProjectUpdates.profit_margin := None;
     ProjectUpdates.payment_terms := None |}.

(** *** Sample data: a store holding one approved sale of budget 1000 *)

Definition storedSale : Project.t :=
  Project.stamped sampleSale "p1" 1%Z "2024-10-01T09:00:00.000Z".

Definition projectWorld : World :=
  {| db := {| Store.clients := []; Store.projects := [storedSale];
              Store.transactions := []; Store.products := sampleCatalog;
              Store.stockMovements := [] |};
     ticks := 0 |}.

Definition emptyWorld : World := {| db := Store.empty; ticks := 0 |}.

(** ** Specification-level notions for the dashboard *)

(** Two dates of the same calendar month: same month and same year. *)
Definition sameCalendarMonth (a b : option JsDate.t) : bool :=
  match a, b with
  | Some x, Some y =>
      (JsDate.year x =? JsDate.year y) && (JsDate.month x =? JsDate.month y)
  | _, _ => false
  end.

(** The sum of the inflow transactions dated in the current calendar
    month. *)
Definition calendarMonthRevenue (e : Env) (s : Store.t) : Q :=
  fold_left (fun sum t => (sum + Transaction.amount t)%Q)
    (filter (fun t => is_entrada (Transaction.type t)
                      && sameCalendarMonth (JsDate.parse (Transaction.date t))
                                           (JsDate.parse (nowISO e)))
            (Store.transactions s))
    0%Q.

(** *** Sample data: a receipt of November of the year before *)

Definition lastYearReceipt : Transaction.t :=
  {| Transaction.id := "t-old";
     Transaction.project_id := None;
     Transaction.project_title := None;
     Transaction.type := entrada;
     Transaction.category := "Sinal";
     Transaction.description := "Sinal recebido";
     Transaction.amount := 100 # 1;
     Transaction.date := "2023-11-15";
     Transaction.created_at := "2023-11-15T12:00:00.000Z" |}.

Definition receiptStore : Store.t :=
  {| Store.clients := []; Store.projects := [];
     Store.transactions := [lastYearReceipt];
     Store.products := []; Store.stockMovements := [] |}.

(** ** Specification-level notions for the CSV mapping of clients *)

Fixpoint hasChar (c : ascii) (s : string) : bool :=
  match s with
  | EmptyString => false
  | String x rest => Ascii.eqb x c || hasChar c rest
  end.

(** The texts of a client that the export puts between double quotes. *)
Definition clientTexts (client : Client.t) : list string :=
  let a := Client.address client in
  [ Client.name client;
    Address.streetType a ++ " " ++ Address.street a;
    Client.phone client;
    Client.mobile client;
    Address.zipCode a;
    Address.city a;
    Client.email client;
    template (match Client.type client with
              | pj => Client.cnpj client
              | pf => Client.cpf client
              end);
    orEmpty (Client.inscricao_estadual client);
    Address.neighborhood a;
    orEmpty (Client.complemento client);
    orEmpty (Client.numero client);
    orEmpty (Client.razao_social client);
    orEmpty (Client.id_empresa client) ].

(** A client can be exported on one line when none of its texts holds a
    double quote or a line break. *)
Definition exportable (client : Client.t) : bool :=
  forallb (fun s => negb (hasChar dquote s) && negb (hasChar newline s))
          (clientTexts client).

(** What is left of an optional text after a round trip: it is trimmed,
    and an empty text is dropped. *)
Definition keptOptional (x : option string) : option string :=
  match x with
  | None => None
  | Some s => if isEmpty (trim s) then None else Some (trim s)
  end.

(** The client data the import reads back from the exported line of a
    client. *)
Definition reimported (client : Client.t) : Client.t :=
  let a := Client.address client in
  {| Client.id := EmptyString;
     Client.name := trim (Client.name client);
     Client.type := Client.type client;
     Client.cpf :=
       match Client.type client with
       | pf => Some (trim (template (Client.cpf client)))
       | pj => None
       end;
     Client.cnpj :=
       match Client.type client with
       | pj => Some (trim (template (Client.cnpj client)))
       | pf => None
       end;
     Client.email := trim (Client.email client);
     Client.phone := trim (Client.phone client);
     Client.mobile := trim (Client.mobile client);
     Client.razao_social := keptOptional (Client.razao_social client);
     Client.inscricao_estadual :=
       keptOptional (Client.inscricao_estadual client);
     Client.isento_icms := Some (truthy (Client.isento_icms client));
     Client.numero := keptOptional (Client.numero client);
     Client.complemento := keptOptional (Client.complemento client);
     Client.id_empresa := keptOptional (Client.id_empresa client);
     Client.fl_ativo := Client.fl_ativo client;
     Client.address :=
       {| Address.country := "Brasil";
          Address.state := EmptyString;
          Address.city := trim (Address.city a);
          Address.zipCode := trim (Address.zipCode a);
          Address.neighborhood := trim (Address.neighborhood a);
          Address.streetType := "Rua";
          Address.street :=
            trim (Address.streetType a ++ " " ++ Address.street a) |};
     Client.created_at := EmptyString;
     Client.total_projects := Some 0%Q;
     Client.total_value := Some 0%Q |}.

(** The contents of the eighteen columns of the line of a client. *)
Definition clientContents (client : Client.t) : list string :=
  let a := Client.address client in
  [ "Cliente";
    Client.name client;
    Address.streetType a ++ " " ++ Address.street a;
    match Client.type client with pj => "J" | pf => "F" end;
    Client.phone client;
    Client.mobile client;
    Address.zipCode a;
    Address.city a;
    Client.email client;
    template (match Client.type client with
              | pj => Client.cnpj client
              | pf => Client.cpf client
              end);
    orEmpty (Client.inscricao_estadual client);
    Address.neighborhood a;
    orEmpty (Client.complemento client);
    orEmpty (Client.numero client);
    showFlag (truthy (Client.isento_icms client));
    orEmpty (Client.razao_social client);
    orEmpty (Client.id_empresa client);
    showFlag (Client.fl_ativo client) ].

(** The records [addClient] stores for a run of client data, the first of
    which receives the [k]-th identifier. *)
Fixpoint stampClientsFrom (e : Env) (k : nat) (cs : list Client.t)
  : list Client.t :=
  match cs with
  | [] => []
  | c :: rest =>
      Client.stamped c (idOf e k) (nowISO e) :: stampClientsFrom e (S k) rest
  end.

(** *** Sample data: one client *)

Definition sampleClient : Client.t :=
  {| Client.id := "c-1";
     Client.name := "Joao Silva";
     Client.type := pf;
     Client.cpf := Some "123.456.789-00";
     Client.cnpj := None;
     Client.email := "joao@email.com";
     Client.phone := "(11) 3333-4444";
     Client.mobile := "(11) 98888-7777";
     Client.razao_social := None;
     Client.inscricao_estadual := None;
     Client.isento_icms := None;
     Client.numero := None;
     Client.complemento := None;
     Client.id_empresa := None;
     Client.fl_ativo := true;
     Client.address :=
       {| Address.country := "Brasil";
          Address.state := "SP";
          Address.city := "Sao Paulo";
          Address.zipCode := "01310-100";
          Address.neighborhood := "Centro";
          Address.streetType := "Rua";
          Address.street := "Exemplo" |};
     Client.created_at := "2024-01-01T00:00:00.000Z";
     Client.total_projects := Some 0%Q;
     Client.total_value := Some 0%Q |}.

Definition clientStore : Store.t :=
  {| Store.clients := [sampleClient]; Store.projects := [];
     Store.transactions := []; Store.products := [];
     Store.stockMovements := [] |}.

(** ** The CSV mappings of products, projects and transactions *)

(** What the JavaScript engine supplies for numbers in text.
    [numberText x] is [String(x)], the text a number takes inside [join];
    [parseFloat s] is [parseFloat(s)], where [None] stands for [NaN]. *)
Record Numerals := {
  numberText : Q -> string;
  parseFloat : string -> option Q
}.

(** [parseFloat(values[k])]: an absent value gives [NaN]. *)
Definition parseFloatAt (nf : Numerals) (x : option string) : option Q :=
  match x with
  | Some s => parseFloat nf s
  | None => None
  end.

(** [x || d] on a number that may be absent or [NaN] ([None]); 0 is
    falsy. *)
Definition numberOr (x : option Q) (d : Q) : Q :=
  match x with
  | Some v => if Qeq_bool v 0 then d else v
  | None => d
  end.

(** [x || undefined] on such a number. *)
Definition numberOrUndefined (x : option Q) : option Q :=
  match x with
  | Some v => if Qeq_bool v 0 then None else Some v
  | None => None
  end.

(** [text || d] *)
Definition textOr (x : option string) (d : string) : string :=
  match x with
  | Some EmptyString => d
  | Some s => s
  | None => d
  end.

Definition productTypeName (t : ProductType) : string :=
  match t with
  | material_bruto => "material_bruto"
  | parte_produto => "parte_produto"
  | produto_pronto => "produto_pronto"
  end.

Definition statusName (st : ProjectStatus) : string :=
  match st with
  | orcamento => "orcamento"
  | aprovado => "aprovado"
  | em_producao => "em_producao"
  | concluido => "concluido"
  | entregue => "entregue"
  end.

Definition projectTypeName (t : ProjectType) : string :=
  match t with
  | tipo_orcamento => "orcamento"
  | venda => "venda"
  end.

Definition movementTypeName (t : MovementType) : string :=
  match t with
  | entrada => "entrada"
  | saida => "saida"
  end.

(** [(values[k] as any) || 'material_bruto'].  The cast lets any text
    through; a text that is none of the declared names gives [None]: the
    record would lie outside the declared type. *)
Definition productTypeOf (x : option string) : option ProductType :=
  let s := textOr x "material_bruto" in
  if String.eqb s "material_bruto" then Some material_bruto
  else if String.eqb s "parte_produto" then Some parte_produto
  else if String.eqb s "produto_pronto" then Some produto_pronto
  else None.

(** [(values[k] as any) || 'orcamento'] for a status. *)
Definition statusOf (x : option string) : option ProjectStatus :=
  let s := textOr x "orcamento" in
  if String.eqb s "orcamento" then Some orcamento
  else if String.eqb s "aprovado" then Some aprovado
  else if String.eqb s "em_producao" then Some em_producao
  else if String.eqb s "concluido" then Some concluido
  else if String.eqb s "entregue" then Some entregue
  else None.

(** [(values[k] as any) || 'orcamento'] for a project type. *)
Definition projectTypeOf (x : option string) : option ProjectType :=
  let s := textOr x "orcamento" in
  if String.eqb s "orcamento" then Some tipo_orcamento
  else if String.eqb s "venda" then Some venda
  else None.

(** [(values[k] as any) || 'entrada'] *)
Definition movementTypeOf (x : option string) : option MovementType :=
  let s := textOr x "entrada" in
  if String.eqb s "entrada" then Some entrada
  else if String.eqb s "saida" then Some saida
  else None.

(** How an import that goes through the add operations ends.
    [OutsideTypes]: a row carried a status or type text that is none of
    the declared names; the program then stores a record outside the
    declared types, where the embedding does not follow it.  The files
    written by the export functions hold no such row. *)
Inductive ImportOutcome :=
| Imported (w : World)
| Stopped (o : Outcome)
| OutsideTypes.

(** The [for] loop over the lines, which an exception leaves. *)
Fixpoint importLines (step : string -> World -> ImportOutcome)
    (lines : list string) (w : World) : ImportOutcome :=
  match lines with
  | [] => Imported w
  | rawLine :: rest =>
      match step rawLine w with
      | Imported w' => importLines step rest w'
      | other => other
      end
  end.

(** *** Products *)

Definition productHeaders : list string :=
  [ "id"; "nome"; "descricao"; "categoria"; "tipo"; "unidade"; "custo";
    "preco_venda"; "estoque_atual"; "estoque_minimo"; "componentes" ].

(** [product.components.map(c => `${c.product_name}:${c.quantity}`).join(';')] *)
Definition componentsText (nf : Numerals) (components : list ProductComponent.t)
  : string :=
  join ";"
    (map (fun c => ProductComponent.product_name c ++ ":"
                   ++ numberText nf (ProductComponent.quantity c))
         components).

Definition productRow (nf : Numerals) (product : Product.t) : list string :=
  [ quoted (Product.id product);
    quoted (Product.name product);
    quoted (Product.description product);
    quoted (Product.category product);
    quoted (productTypeName (Product.type product));
    quoted (Product.unit product);
    numberText nf (Product.cost_price product);
    numberText nf (numberOr (Product.sale_price product) 0);
    numberText nf (Product.current_stock product);
    numberText nf (Product.min_stock product);
    quoted (componentsText nf (Product.components product)) ].

Definition exportProductsCSV (nf : Numerals) (s : Store.t) : string :=
  join (String newline EmptyString)
    (join "," productHeaders
     :: map (fun product => join "," (productRow nf product))
            (Store.products s)).

(** The [productData] literal of [importProductsCSV]. *)
Definition productOfValues (nf : Numerals) (values : list string)
  : option Product.t :=
  let v (k : nat) := nth_error values k in
  match productTypeOf (v 4) with
  | None => None
  | Some ty =>
      Some {| Product.id := EmptyString;
              Product.name := orEmpty (v 1);
              Product.description := orEmpty (v 2);
              Product.category := orEmpty (v 3);
              Product.type := ty;
              Product.unit := textOr (v 5) "UN";
              Product.components := [];
              Product.cost_price := numberOr (parseFloatAt nf (v 6)) 0;
              Product.sale_price := numberOrUndefined (parseFloatAt nf (v 7));
              Product.current_stock := numberOr (parseFloatAt nf (v 8)) 0;
              Product.min_stock := numberOr (parseFloatAt nf (v 9)) 0;
              Product.supplier := None;
              Product.created_at := EmptyString |}
  end.

Definition importProductLine (fuel : nat) (nf : Numerals) (e : Env)
    (r : Store.t) (rawLine : string) (w : World) : ImportOutcome :=
  let line := trim rawLine in
  if isEmpty line then Imported w
  else
    let values := parseCSVLine line in
    if List.length values <? 10 then Imported w
    else
      match productOfValues nf values with
      | None => OutsideTypes
      | Some productData =>
          match addProduct fuel e r productData w with
          | Done w' => Imported w'
          | other => Stopped other
          end
      end.

Definition importProductsCSV (fuel : nat) (nf : Numerals) (e : Env)
    (r : Store.t) (text : string) (w : World) : ImportOutcome :=
  importLines (importProductLine fuel nf e r) (tl (splitOn newline text)) w.

(** *** Projects *)

Definition projectHeaders : list string :=
  [ "numero"; "cliente"; "titulo"; "descricao"; "status"; "tipo"; "orcamento";
    "data_inicio"; "data_fim"; "custo_materiais"; "custo_mao_obra";
    "margem_lucro" ].

Definition projectRow (nf : Numerals) (project : Project.t) : list string :=
  [ showNumber (Project.number project);
    quoted (template (Project.client_name project));
    quoted (Project.title project);
    quoted (Project.description project);
    quoted (statusName (Project.status project));
    quoted (projectTypeName (Project.type project));
    numberText nf (Project.budget project);
    quoted (Project.start_date project);
    quoted (Project.end_date project);
    numberText nf (numberOr (Project.materials_cost project) 0);
    numberText nf (numberOr (Project.labor_cost project) 0);
    numberText nf (numberOr (Project.profit_margin project) 0) ].

Definition exportProjectsCSV (nf : Numerals) (s : Store.t) : string :=
  join (String newline EmptyString)
    (join "," projectHeaders
     :: map (fun project => join "," (projectRow nf project))
            (Store.projects s)).

(** [clients.find(c => c.name === values[1])] *)
Definition findClientNamed (clients : list Client.t) (name : option string)
  : option Client.t :=
  match name with
  | Some n => find (fun c => String.eqb (Client.name c) n) clients
  | None => None
  end.

(** The [projectData] literal of [importProjectsCSV]. *)
Definition projectOfValues (nf : Numerals) (e : Env) (client : Client.t)
    (values : list string) : option Project.t :=
  let v (k : nat) := nth_error values k in
  match statusOf (v 4), projectTypeOf (v 5) with
  | Some st, Some ty =>
      Some {| Project.id := EmptyString;
              Project.number := 0%Z;
              Project.client_id := Client.id client;
              Project.client_name := v 1;
              Project.title := orEmpty (v 2);
              Project.description := orEmpty (v 3);
              Project.status := st;
              Project.type := ty;
              Project.products := [];
              Project.budget := numberOr (parseFloatAt nf (v 6)) 0;
              Project.start_date := textOr (v 7) (today e);
              Project.end_date := textOr (v 8) (today e);
              Project.created_at := EmptyString;
              Project.materials_cost :=
                Some (numberOr (parseFloatAt nf (v 9)) 0);
              Project.labor_cost :=
                Some (numberOr (parseFloatAt nf (v 10)) 0);
              Project.profit_margin :=
                Some (numberOr (parseFloatAt nf (v 11)) (20 # 1));
              Project.payment_terms := None |}
  | _, _ => None
  end.

(** [clients] and, inside [addProject], [projects] are read from the
    captured store [r]. *)
Definition importProjectLine (nf : Numerals) (e : Env) (r : Store.t)
    (rawLine : string) (w : World) : ImportOutcome :=
  let line := trim rawLine in
  if isEmpty line then Imported w
  else
    let values := parseCSVLine line in
    if List.length values <? 8 then Imported w
    else
      match findClientNamed (Store.clients r) (nth_error values 1) with
      | None => Imported w
      | Some client =>
          match projectOfValues nf e client values with
          | None => OutsideTypes
          | Some projectData => Imported (addProject e r projectData w)
          end
      end.

Definition importProjectsCSV (nf : Numerals) (e : Env) (r : Store.t)
    (text : string) (w : World) : ImportOutcome :=
  importLines (importProjectLine nf e r) (tl (splitOn newline text)) w.

(** *** Transactions *)

Definition transactionHeaders : list string :=
  [ "tipo"; "categoria"; "descricao"; "valor"; "data"; "projeto" ].

Definition transactionRow (nf : Numerals) (transaction : Transaction.t)
  : list string :=
  [ quoted (movementTypeName (Transaction.type transaction));
    quoted (Transaction.category transaction);
    quoted (Transaction.description transaction);
    numberText nf (Transaction.amount transaction);
    quoted (Transaction.date transaction);
    quoted (orEmpty (Transaction.project_title transaction)) ].

Definition exportTransactionsCSV (nf : Numerals) (s : Store.t) : string :=
  join (String newline EmptyString)
    (join "," transactionHeaders
     :: map (fun transaction => join "," (transactionRow nf transaction))
            (Store.transactions s)).

(** The [transactionData] literal of [importTransactionsCSV]. *)
Definition transactionOfValues (nf : Numerals) (e : Env)
    (values : list string) : option Transaction.t :=
  let v (k : nat) := nth_error values k in
  match movementTypeOf (v 0) with
  | None => None
  | Some ty =>
      Some {| Transaction.id := EmptyString;
              Transaction.project_id := None;
              Transaction.project_title := orUndefined (v 5);
              Transaction.type := ty;
              Transaction.category := orEmpty (v 1);
              Transaction.description := orEmpty (v 2);
              Transaction.amount := numberOr (parseFloatAt nf (v 3)) 0;
              Transaction.date := textOr (v 4) (today e);
              Transaction.created_at := EmptyString |}
  end.

Definition importTransactionLine (nf : Numerals) (e : Env)
    (rawLine : string) (w : World) : ImportOutcome :=
  let line := trim rawLine in
  if isEmpty line then Imported w
  else
    let values := parseCSVLine line in
    if List.length values <? 5 then Imported w
    else
      match transactionOfValues nf e values with
      | None => OutsideTypes
      | Some transactionData => Imported (addTransaction e transactionData w)
      end.

Definition importTransactionsCSV (nf : Numerals) (e : Env) (text : string)
    (w : World) : ImportOutcome :=
  importLines (importTransactionLine nf e) (tl (splitOn newline text)) w.

(** ** Specification-level notions for these three mappings *)

(** A text the export can put between double quotes on one line. *)
Definition cleanText (s : string) : bool :=
  negb (hasChar dquote s) && negb (hasChar newline s).

Fixpoint hasSpace (s : string) : bool :=
  match s with
  | EmptyString => false
  | String c rest => isSpace c || hasSpace rest
  end.

(** The text of a number that can stand in a column as it is: not empty,
    without double quote, comma or white space. *)
Definition plainNumeral (t : string) : bool :=
  negb (isEmpty t) && negb (hasChar dquote t) && negb (hasChar comma t)
  && negb (hasSpace t).

(** The number [x] prints to such a text, and [parseFloat] reads that text
    back as [x]. *)
Definition printable (nf : Numerals) (x : Q) : Prop :=
  plainNumeral (numberText nf x) = true
  /\ parseFloat nf (numberText nf x) = Some x.

(** What is left of a required text after a round trip through a column
    whose empty value is replaced by [d]. *)
Definition keptText (s d : string) : string :=
  if isEmpty (trim s) then d else trim s.

(** What is left of a number after a round trip through a column whose
    zero is replaced by [d]. *)
Definition keptNumber (x d : Q) : Q :=
  if Qeq_bool x 0 then d else x.

(** *** Transactions *)

Definition transactionTexts (transaction : Transaction.t) : list string :=
  [ Transaction.category transaction;
    Transaction.description transaction;
    Transaction.date transaction;
    orEmpty (Transaction.project_title transaction) ].

Definition exportableTransaction (nf : Numerals) (transaction : Transaction.t)
  : Prop :=
  forallb cleanText (transactionTexts transaction) = true
  /\ printable nf (Transaction.amount transaction).

(** The contents of the six columns of the line of a transaction. *)
Definition transactionContents (nf : Numerals) (transaction : Transaction.t)
  : list string :=
  [ movementTypeName (Transaction.type transaction);
    Transaction.category transaction;
    Transaction.description transaction;
    numberText nf (Transaction.amount transaction);
    Transaction.date transaction;
    orEmpty (Transaction.project_title transaction) ].

(** The transaction data the import reads back from the exported line of
    a transaction. *)
Definition reimportedTransaction (e : Env) (transaction : Transaction.t)
  : Transaction.t :=
  {| Transaction.id := EmptyString;
     Transaction.project_id := None;
     Transaction.project_title :=
       keptOptional (Transaction.project_title transaction);
     Transaction.type := Transaction.type transaction;
     Transaction.category := trim (Transaction.category transaction);
     Transaction.description := trim (Transaction.description transaction);
     Transaction.amount := keptNumber (Transaction.amount transaction) 0;
     Transaction.date := keptText (Transaction.date transaction) (today e);
     Transaction.created_at := EmptyString |}.

(** The records [addTransaction] stores for a run of transaction data, the
    first of which receives the [k]-th identifier. *)
Fixpoint stampTransactionsFrom (e : Env) (k : nat) (ts : list Transaction.t)
  : list Transaction.t :=
  match ts with
  | [] => []
  | t :: rest =>
      Transaction.stamped t (idOf e k) (nowISO e)
      :: stampTransactionsFrom e (S k) rest
  end.

(** *** Products *)

Definition productTexts (nf : Numerals) (product : Product.t) : list string :=
  [ Product.id product;
    Product.name product;
    Product.description product;
    Product.category product;
    Product.unit product;
    componentsText nf (Product.components product) ].

(** The numbers of a product as the export prints them. *)
Definition productNumbers (product : Product.t) : list Q :=
  [ Product.cost_price product;
    numberOr (Product.sale_price product) 0;
    Product.current_stock product;
    Product.min_stock product ].

Definition exportableProduct (nf : Numerals) (product : Product.t) : Prop :=
  forallb cleanText (productTexts nf product) = true
  /\ Forall (printable nf) (productNumbers product).

(** The contents of the eleven columns of the line of a product. *)
Definition productContents (nf : Numerals) (product : Product.t)
  : list string :=
  [ Product.id product;
    Product.name product;
    Product.description product;
    Product.category product;
    productTypeName (Product.type product);
    Product.unit product;
    numberText nf (Product.cost_price product);
    numberText nf (numberOr (Product.sale_price product) 0);
    numberText nf (Product.current_stock product);
    numberText nf (Product.min_stock product);
    componentsText nf (Product.components product) ].

(** The product data the import reads back from the exported line of a
    product. *)
Definition reimportedProduct (product : Product.t) : Product.t :=
  {| Product.id := EmptyString;
     Product.name := trim (Product.name product);
     Product.description := trim (Product.description product);
     Product.category := trim (Product.category product);
     Product.type := Product.type product;
     Product.unit := keptText (Product.unit product) "UN";
     Product.components := [];
     Product.cost_price := keptNumber (Product.cost_price product) 0;
     Product.sale_price := numberOrUndefined (Product.sale_price product);
     Product.current_stock := keptNumber (Product.current_stock product) 0;
     Product.min_stock := keptNumber (Product.min_stock product) 0;
     Product.supplier := None;
     Product.created_at := EmptyString |}.

(** The records [addProduct] stores for a run of product data, the first
    of which receives the [k]-th identifier. *)
Fixpoint stampProductsFrom (e : Env) (k : nat) (ps : list Product.t)
  : list Product.t :=
  match ps with
  | [] => []
  | p :: rest =>
      Product.stamped p (idOf e k) (nowISO e)
      :: stampProductsFrom e (S k) rest
  end.

(** *** Projects *)

Definition projectTexts (project : Project.t) : list string :=
  [ template (Project.client_name project);
    Project.title project;
    Project.description project;
    Project.start_date project;
    Project.end_date project ].

(** The numbers of a project as the export prints them. *)
Definition projectNumbers (project : Project.t) : list Q :=
  [ Project.budget project;
    numberOr (Project.materials_cost project) 0;
    numberOr (Project.labor_cost project) 0;
    numberOr (Project.profit_margin project) 0 ].

Definition exportableProject (nf : Numerals) (project : Project.t) : Prop :=
  forallb cleanText (projectTexts project) = true
  /\ Forall (printable nf) (projectNumbers project).

(** The contents of the twelve columns of the line of a project. *)
Definition projectContents (nf : Numerals) (project : Project.t)
  : list string :=
  [ showNumber (Project.number project);
    template (Project.client_name project);
    Project.title project;
    Project.description project;
    statusName (Project.status project);
    projectTypeName (Project.type project);
    numberText nf (Project.budget project);
    Project.start_date project;
    Project.end_date project;
    numberText nf (numberOr (Project.materials_cost project) 0);
    numberText nf (numberOr (Project.labor_cost project) 0);
    numberText nf (numberOr (Project.profit_margin project) 0) ].

(** The client the import attaches the exported line of a project to. *)
Definition clientOfProject (clients : list Client.t) (project : Project.t)
  : option Client.t :=
  find (fun c => String.eqb (Client.name c)
                   (trim (template (Project.client_name project))))
       clients.

(** The project data the import reads back from the exported line of a
    project, once it has found [client]. *)
Definition reimportedProject (e : Env) (client : Client.t)
    (project : Project.t) : Project.t :=
  {| Project.id := EmptyString;
     Project.number := 0%Z;
     Project.client_id := Client.id client;
     Project.client_name := Some (trim (template (Project.client_name project)));
     Project.title := trim (Project.title project);
     Project.description := trim (Project.description project);
     Project.status := Project.status project;
     Project.type := Project.type project;
     Project.products := [];
     Project.budget := keptNumber (Project.budget project) 0;
     Project.start_date := keptText (Project.start_date project) (today e);
     Project.end_date := keptText (Project.end_date project) (today e);
     Project.created_at := EmptyString;
     Project.materials_cost := Some (numberOr (Project.materials_cost project) 0);
     Project.labor_cost := Some (numberOr (Project.labor_cost project) 0);
     Project.profit_margin :=
       Some (numberOr (Project.profit_margin project) (20 # 1));
     Project.payment_terms := None |}.

(** The project data the import hands to [addProject] for a run of
    exported projects: the lines naming no client are left out. *)
Fixpoint reimportedProjects (e : Env) (clients : list Client.t)
    (projects : list Project.t) : list Project.t :=
  match projects with
  | [] => []
  | project :: rest =>
      match clientOfProject clients project with
      | Some client =>
          reimportedProject e client project
          :: reimportedProjects e clients rest
      | None => reimportedProjects e clients rest
      end
  end.

(** A sale past the quotation stage, for which [addProject] also records
    the signal. *)
Definition paysSignal (project : Project.t) : bool :=
  match Project.type project with
  | venda => negb (status_eqb (Project.status project) orcamento)
  | tipo_orcamento => false
  end.

(** The records [addProject] stores, all under the number [n], for a run
    of project data without product lines, the first of which receives
    the [k]-th identifier. *)
Fixpoint stampProjectsFrom (e : Env) (n : Z) (k : nat) (ps : list Project.t)
  : list Project.t :=
  match ps with
  | [] => []
  | p :: rest =>
      Project.stamped p (idOf e k) n (nowISO e)
      :: stampProjectsFrom e n (if paysSignal p then S (S k) else S k) rest
  end.

(** *** Sample data: whole numbers in decimal, and a store with one record
    of each kind *)

(** A number format that is right on whole numbers. *)
Definition wholeNumerals : Numerals :=
  {| numberText := fun x =>
       match Qden x with
       | xH => showNumber (Qnum x)
       | _ => "NaN"
       end;
     parseFloat := fun s =>
       match NilZero.int_of_string s with
       | Some d => Some (inject_Z (Z.of_int d))
       | None => None
       end |}.

Definition officeStore : Store.t :=
  {| Store.clients := [sampleClient];
     Store.projects := [storedSale];
     Store.transactions := [lastYearReceipt];
     Store.products := sampleCatalog;
     Store.stockMovements := [] |}.

(** ** Further operations of the store *)

(** [Partial<Client>]: a field that is absent is [None]. *)
Module ClientUpdates.
Record t := {
  id : option string;
  name : option string;
  type : option ClientType;
  cpf : option string;
  cnpj : option string;
  email : option string;
  phone : option string;
  mobile : option string;
  razao_social : option string;
  inscricao_estadual : option string;
  isento_icms : option bool;
  numero : option string;
  complemento : option string;
  id_empresa : option string;
  fl_ativo : option bool;
  address : option Address.t;
  created_at : option string;
  total_projects : option Q;
  total_value : option Q
}.

Definition none : t :=
  {| id := None; name := None; type := None; cpf := None; cnpj := None;
     email := None; phone := None; mobile := None; razao_social := None;
     inscricao_estadual := None; isento_icms := None; numero := None;
     complemento := None; id_empresa := None; fl_ativo := None;
     address := None; created_at := None; total_projects := None;
     total_value := None |}.
End ClientUpdates.

(** [{ ...client, ...updates }]; the spread is shallow, so a supplied
    address replaces the stored one as a whole. *)
Definition mergeClient (c : Client.t) (u : ClientUpdates.t) : Client.t :=
  {| Client.id := orElse (ClientUpdates.id u) (Client.id c);
     Client.name := orElse (ClientUpdates.name u) (Client.name c);
     Client.type := orElse (ClientUpdates.type u) (Client.type c);
     Client.cpf := orElseOpt (ClientUpdates.cpf u) (Client.cpf c);
     Client.cnpj := orElseOpt (ClientUpdates.cnpj u) (Client.cnpj c);
     Client.email := orElse (ClientUpdates.email u) (Client.email c);
     Client.phone := orElse (ClientUpdates.phone u) (Client.phone c);
     Client.mobile := orElse (ClientUpdates.mobile u) (Client.mobile c);
     Client.razao_social :=
       orElseOpt (ClientUpdates.razao_social u) (Client.razao_social c);
     Client.inscricao_estadual :=
       orElseOpt (ClientUpdates.inscricao_estadual u)
         (Client.inscricao_estadual c);
     Client.isento_icms :=
       orElseOpt (ClientUpdates.isento_icms u) (Client.isento_icms c);
     Client.numero := orElseOpt (ClientUpdates.numero u) (Client.numero c);
     Client.complemento :=
       orElseOpt (ClientUpdates.complemento u) (Client.complemento c);
     Client.id_empresa :=
       orElseOpt (ClientUpdates.id_empresa u) (Client.id_empresa c);
     Client.fl_ativo := orElse (ClientUpdates.fl_ativo u) (Client.fl_ativo c);
     Client.address := orElse (ClientUpdates.address u) (Client.address c);
     Client.created_at :=
       orElse (ClientUpdates.created_at u) (Client.created_at c);
     Client.total_projects :=
       orElseOpt (ClientUpdates.total_projects u) (Client.total_projects c);
     Client.total_value :=
       orElseOpt (ClientUpdates.total_value u) (Client.total_value c) |}.

Definition updateClient (i : string) (updates : ClientUpdates.t) (w : World)
  : World :=
  setClients
    (map (fun client => if String.eqb (Client.id client) i
                        then mergeClient client updates else client)) w.

Definition deleteClient (i : string) (w : World) : World :=
  setClients (filter (fun client => negb (String.eqb (Client.id client) i))) w.

Definition getAvailableComponents (r : Store.t) : list Product.t :=
  Store.products r.

(** ** Specification-level notions for the further properties *)

(** No chain of component edges of the catalog goes on for ever: on a
    finite catalog, the component graph has no cycle. *)
Definition wellFounded (products : list Product.t) : Prop :=
  forall x, descendsFinitely products x.

(** Every component of every product refers to a product of the catalog. *)
Definition closedCatalog (products : list Product.t) : bool :=
  forallb (fun p => referencesExisting products (Product.components p))
          products.

(** No stored cost and no component quantity is negative. *)
Definition nonNegativeCatalog (products : list Product.t) : bool :=
  forallb (fun p =>
             Qle_bool 0 (Product.cost_price p)
             && forallb (fun c => Qle_bool 0 (ProductComponent.quantity c))
                        (Product.components p))
          products.

(** The record [updateProduct] writes over the products of its id. *)
Definition replaceProduct (product : Product.t) (products : list Product.t)
  : list Product.t :=
  map (fun p => if String.eqb (Product.id p) (Product.id product)
                then product else p) products.

(** A table made of one B, itself made of two A. *)
Definition productTable : Product.t :=
  mkProduct "T" "Mesa" produto_pronto
    [mkComponent "B" "Tampo" (1 # 1) (240 # 1) (240 # 1)] 0%Q 0%Q.

Definition tableCatalog : list Product.t := productTable :: sampleCatalog.

Definition tableWorld : World :=
  {| db := {| Store.clients := []; Store.projects := [];
              Store.transactions := []; Store.products := tableCatalog;
              Store.stockMovements := [] |};
     ticks := 0 |}.

(** A new record for A that would list the table as a component. *)
Definition productALooping : Product.t :=
  mkProduct "A" "Madeira" parte_produto
    [mkComponent "T" "Mesa" (1 # 1) 0%Q 0%Q] (120 # 1) (50 # 1).

Definition tableRank (i : string) : nat :=
  if String.eqb i "T" then 2 else if String.eqb i "B" then 1 else 0.

(** A new record for B, made of three A. *)
Definition productBThree : Product.t :=
  mkProduct "B" "Tampo" parte_produto
    [mkComponent "A" "Madeira" (3 # 1) (120 # 1) (360 # 1)] 0%Q (10 # 1).

(** The data of a new product made of one table and one A. *)
Definition productSet : Product.t :=
  mkProduct EmptyString "Conjunto" produto_pronto
    [mkComponent "T" "Mesa" (1 # 1) 0%Q 0%Q;
     mkComponent "A" "Madeira" (2 # 1) (120 # 1) (240 # 1)] 0%Q 0%Q.

(** No project, transaction or stock movement of the store carries the
    project id [i]. *)
Definition unusedProjectId (i : string) (s : Store.t) : bool :=
  negb (existsb (fun p => String.eqb (Project.id p) i) (Store.projects s))
  && negb (existsb (fun t => opt_is (Transaction.project_id t) i)
                   (Store.transactions s))
  && negb (existsb (fun m => opt_is (StockMovement.project_id m) i)
                   (Store.stockMovements s)).

(** The signal transaction of [addProject]. *)
Definition signalPayment (e : Env) (i : string) (projectNumber : Z)
    (projectData : Project.t) : Transaction.t :=
  {| Transaction.id := EmptyString;
     Transaction.project_id := Some i;
     Transaction.project_title := Some (Project.title projectData);
     Transaction.type := entrada;
     Transaction.category := "Sinal";
     Transaction.description :=
       "Sinal do projeto #" ++ showNumber projectNumber ++ " - "
         ++ Project.title projectData;
     Transaction.amount := (Project.budget projectData * half)%Q;
     Transaction.date := today e;
     Transaction.created_at := EmptyString |}.

(** A quote, which triggers no side effect. *)
Definition sampleQuote : Project.t :=
  {| Project.id := EmptyString;
     Project.number := 0%Z;
     Project.client_id := "client-1";
     Project.client_name := Some "Joao Silva";
     Project.title := "Estante";
     Project.description := EmptyString;
     Project.status := orcamento;
     Project.type := tipo_orcamento;
     Project.products := [sampleLine];
     Project.budget := 800 # 1;
     Project.start_date := "2024-11-02";
     Project.end_date := "2024-12-02";
     Project.created_at := EmptyString;
     Project.materials_cost := None;
     Project.labor_cost := None;
     Project.profit_margin := None;
     Project.payment_terms := None |}.

(** The commas of a line that stand outside double quotes, [inQuotes]
    telling whether the line starts inside a quoted part. *)
Fixpoint unquotedCommas (line : string) (inQuotes : bool) : nat :=
  match line with
  | EmptyString => 0
  | String char rest =>
      if Ascii.eqb char dquote then unquotedCommas rest (negb inQuotes)
      else if Ascii.eqb char comma && negb inQuotes
      then S (unquotedCommas rest inQuotes)
      else unquotedCommas rest inQuotes
  end.

(** The text is empty or starts with a character that is not white
    space. *)
Definition startsSolid (s : string) : bool :=
  match s with
  | EmptyString => true
  | String c _ => negb (isSpace c)
  end.

(** One turn of the reduce of [pendingPayments] over all the projects:
    the filter and the addition taken together. *)
Definition pendingStep (sum : Q) (p : Project.t) : Q :=
  if status_eqb (Project.status p) concluido
     || status_eqb (Project.status p) entregue
  then (sum + Project.budget p * half)%Q else sum.

(** No project has a negative budget. *)
Definition nonNegativeBudgets (projects : list Project.t) : bool :=
  forallb (fun p => Qle_bool 0 (Project.budget p)) projects.
(** * Properties *)

Local Open Scope list_scope.

(** ** The BOM resolver *)

Lemma findProduct_some : forall products i p,
  findProduct products i = Some p -> In p products /\ Product.id p = i.
Proof.
  unfold findProduct. intros products i p H.
  apply find_some in H. destruct H as [Hin Heq].
  split; [assumption | now apply String.eqb_eq].
Qed.

Lemma findProduct_none : forall products i,
  findProduct products i = None -> ~ In i (map Product.id products).
Proof.
  unfold findProduct. intros products i H Hin.
  apply in_map_iff in Hin. destruct Hin as [p [Hid Hp]].
  pose proof (find_none _ _ H p Hp) as Hf. simpl in Hf.
  rewrite Hid, String.eqb_refl in Hf. discriminate.
Qed.

Lemma findProduct_in : forall products i,
  In i (map Product.id products) -> exists p, findProduct products i = Some p.
Proof.
  intros products i Hin.
  destruct (findProduct products i) as [p|] eqn:E.
  - now exists p.
  - exfalso. now apply (findProduct_none products i).
Qed.

Lemma reaches_inv : forall products x z,
  reaches products x z ->
  x = z \/ exists y, edge products x y /\ reaches products y z.
Proof.
  intros products x z H. destruct H as [x | x y z He Hr].
  - now left.
  - right. now exists y.
Qed.

(** A ranking that passes the executable check witnesses acyclicity. *)
Lemma rankedb_acyclic : forall rank products,
  rankedb rank products = true -> acyclic products.
Proof.
  intros rank products H. exists rank. intros x y [p [Hf Hin]].
  apply findProduct_some in Hf. destruct Hf as [Hp Hid]. subst x.
  unfold rankedb in H. rewrite forallb_forall in H.
  specialize (H p Hp). rewrite forallb_forall in H.
  apply in_map_iff in Hin. destruct Hin as [c [Hc Hin]]. subst y.
  specialize (H c Hin). now apply Nat.ltb_lt in H.
Qed.

(** In an acyclic catalog no product reaches itself through a component. *)
Lemma acyclic_no_cycle : forall products x y,
  acyclic products -> edge products x y -> ~ reaches products y x.
Proof.
  intros products x y [rank Hrank] He Hr.
  assert (Hle : forall a b, reaches products a b -> rank b <= rank a).
  { intros a b Hab. induction Hab as [a | a b c Hab _ IH].
    - apply Nat.le_refl.
    - specialize (Hrank _ _ Hab). lia. }
  specialize (Hle _ _ Hr). specialize (Hrank _ _ He). lia.
Qed.

Lemma anyM_spec : forall (A : Type) (test : A -> option bool) (P : A -> Prop)
    (l : list A),
  (forall x, In x l -> exists b, test x = Some b /\ (b = true <-> P x)) ->
  exists b, anyM test l = Some b /\ (b = true <-> exists x, In x l /\ P x).
Proof.
  intros A test P l. induction l as [| a l IH]; intros H.
  - exists false. split; [reflexivity |].
    split; [discriminate | intros [x [[] _]]].
  - destruct (H a (or_introl eq_refl)) as [b [Hb Hiff]].
    simpl. rewrite Hb. destruct b.
    + exists true. split; [reflexivity |].
      split; [| reflexivity]. intros _. exists a. split; [now left |].
      now apply Hiff.
    + destruct IH as [b' [Hb' Hiff']].
      { intros x Hx. apply H. now right. }
      exists b'. split; [assumption |]. rewrite Hiff'.
      split.
      * intros [x [Hx Px]]. exists x. split; [now right | assumption].
      * intros [x [[Hx | Hx] Px]].
        -- subst x. apply Hiff in Px. discriminate.
        -- now exists x.
Qed.

Lemma anyM_ext_some : forall (A : Type) (f g : A -> option bool) (l : list A) b,
  (forall x v, In x l -> f x = Some v -> g x = Some v) ->
  anyM f l = Some b -> anyM g l = Some b.
Proof.
  intros A f g l b. induction l as [| a l IH]; intros H Hf; simpl in *.
  - assumption.
  - destruct (f a) as [[|]|] eqn:E; try discriminate.
    + rewrite (H a true (or_introl eq_refl) E). assumption.
    + rewrite (H a false (or_introl eq_refl) E). apply IH; [| assumption].
      intros x v Hx. apply H. now right.
Qed.

(** A larger depth budget never changes an answer already reached. *)
Lemma checkCircularReference_mono : forall fuel fuel' products productId componentId b,
  checkCircularReference fuel products productId componentId = Some b ->
  fuel <= fuel' ->
  checkCircularReference fuel' products productId componentId = Some b.
Proof.
  induction fuel as [| n IH]; intros fuel' products productId componentId b H Hle.
  - discriminate.
  - destruct fuel' as [| m]; [lia |]. simpl in *.
    destruct (String.eqb productId componentId); [assumption |].
    destruct (findProduct products componentId) as [p|]; [| assumption].
    revert H. apply anyM_ext_some. intros x v _ Hx.
    apply IH with (fuel' := m) in Hx; [assumption | lia].
Qed.

Lemma checkCircularReference_ranked : forall products productId rank,
  (forall x y, edge products x y -> rank y < rank x) ->
  forall fuel componentId, rank componentId < fuel ->
  exists b, checkCircularReference fuel products productId componentId = Some b
            /\ (b = true <-> reaches products componentId productId).
Proof.
  intros products productId rank Hrank.
  induction fuel as [| n IH]; intros componentId Hlt; [lia |].
  simpl. destruct (String.eqb productId componentId) eqn:Eq.
  - apply String.eqb_eq in Eq. subst componentId.
    exists true. split; [reflexivity |]. split; [intros _; constructor | reflexivity].
  - apply String.eqb_neq in Eq.
    destruct (findProduct products componentId) as [p|] eqn:Ef.
    + destruct (anyM_spec ProductComponent.t
                  (fun comp => checkCircularReference n products productId
                                 (ProductComponent.product_id comp))
                  (fun comp => reaches products
                                 (ProductComponent.product_id comp) productId)
                  (Product.components p)) as [b [Hb Hiff]].
      { intros c Hc. apply IH.
        assert (He : edge products componentId (ProductComponent.product_id c)).
        { exists p. split; [assumption |]. now apply in_map. }
        specialize (Hrank _ _ He). lia. }
      exists b. split; [assumption |]. rewrite Hiff. split.
      * intros [c [Hc Hr]].
        apply reaches_step with (y := ProductComponent.product_id c); [| assumption].
        exists p. split; [assumption |]. now apply in_map.
      * intros Hr. apply reaches_inv in Hr.
        destruct Hr as [Hr | [y [[p' [Hf' Hy]] Hr]]]; [congruence |].
        rewrite Ef in Hf'. injection Hf' as <-.
        apply in_map_iff in Hy. destruct Hy as [c [Hc Hin]]. subst y.
        now exists c.
    + exists false. split; [reflexivity |]. split; [discriminate |].
      intros Hr. apply reaches_inv in Hr.
      destruct Hr as [Hr | [y [[p' [Hf' _]] _]]]; congruence.
Qed.

Lemma boundedDepth_mono : forall n m products x,
  boundedDepth n products x = true -> n <= m ->
  boundedDepth m products x = true.
Proof.
  induction n as [| n IH]; intros m products x H Hle; [discriminate |].
  destruct m as [| m]; [lia |]. simpl in *.
  destruct (findProduct products x) as [p|]; [| reflexivity].
  rewrite forallb_forall in *. intros c Hc.
  apply (IH m products (ProductComponent.product_id c)); [now apply H | lia].
Qed.

Lemma boundedDepth_descends : forall n products x,
  boundedDepth n products x = true -> descendsFinitely products x.
Proof.
  induction n as [| n IH]; intros products x H; [discriminate |].
  constructor. intros y [p [Hf Hin]]. simpl in H. rewrite Hf in H.
  rewrite forallb_forall in H.
  apply in_map_iff in Hin. destruct Hin as [c [<- Hc]].
  apply IH. now apply H.
Qed.

Lemma descends_boundedDepth : forall products x,
  descendsFinitely products x -> exists n, boundedDepth n products x = true.
Proof.
  intros products x H. induction H as [x _ IH].
  destruct (findProduct products x) as [p|] eqn:Ef.
  - assert (Hall : forall c, In c (Product.components p) ->
                     exists n, boundedDepth n products
                                 (ProductComponent.product_id c) = true).
    { intros c Hc. apply IH. exists p. split; [assumption | now apply in_map]. }
    assert (Hn : exists n, forallb (fun c => boundedDepth n products
                                              (ProductComponent.product_id c))
                             (Product.components p) = true).
    { clear Ef IH. induction (Product.components p) as [| c l IHl].
      - now exists 0.
      - destruct (Hall c (or_introl eq_refl)) as [n Hn].
        destruct IHl as [m Hm]; [intros c' Hc'; apply Hall; now right |].
        exists (Nat.max n m). cbn [forallb]. apply andb_true_iff. split.
        + apply boundedDepth_mono with (n := n); [assumption | lia].
        + rewrite forallb_forall in *. intros c' Hc'.
          apply boundedDepth_mono with (n := m); [now apply Hm | lia]. }
    destruct Hn as [n Hn]. exists (S n). simpl. now rewrite Ef.
  - exists 1. simpl. now rewrite Ef.
Qed.

Lemma reaches_trans : forall products x y z,
  reaches products x y -> reaches products y z -> reaches products x z.
Proof.
  intros products x y z Hxy Hyz. induction Hxy as [x | x a y He _ IH].
  - assumption.
  - apply reaches_step with (y := a); [assumption | now apply IH].
Qed.

(** A node from which a cycle can be reached does not descend finitely. *)
Lemma descends_no_cycle : forall products x y z,
  reaches products x y -> edge products y z -> reaches products z y ->
  ~ descendsFinitely products x.
Proof.
  intros products x y z Hxy Hyz Hzy Hacc.
  assert (Hdown : forall a b, reaches products a b ->
                    descendsFinitely products a -> descendsFinitely products b).
  { intros a b Hab. induction Hab as [a | a b c He _ IH]; intros Ha.
    - assumption.
    - apply IH. destruct Ha as [Ha]. now apply Ha. }
  assert (Hloop : forall y0, descendsFinitely products y0 ->
                    forall z0, edge products y0 z0 ->
                               reaches products z0 y0 -> False).
  { intros y0 Hacc0. induction Hacc0 as [y0 _ IH]. intros z0 He Hr.
    destruct (reaches_inv _ _ _ Hr) as [-> | [a [Hza Hay]]].
    - apply (IH y0 He y0 He). constructor.
    - apply (IH z0 He a Hza).
      apply reaches_trans with (y := y0); [assumption |].
      apply reaches_step with (y := z0); [assumption | constructor]. }
  apply (Hloop y (Hdown x y Hxy Hacc) z Hyz Hzy).
Qed.

Lemma acyclic_descends : forall products x,
  acyclic products -> descendsFinitely products x.
Proof.
  intros products x [rank Hrank].
  apply boundedDepth_descends with (n := S (rank x)).
  remember (S (rank x)) as n eqn:En.
  assert (Hlt : rank x < n) by lia. clear En. revert x Hlt.
  induction n as [| n IH]; intros x Hlt; [lia |].
  simpl. destruct (findProduct products x) as [p|] eqn:Ef; [| reflexivity].
  apply forallb_forall. intros c Hc. apply IH.
  assert (He : edge products x (ProductComponent.product_id c)).
  { exists p. split; [assumption | now apply in_map]. }
  specialize (Hrank _ _ He). lia.
Qed.

Lemma checkCircularReference_bounded : forall products productId n componentId,
  boundedDepth n products componentId = true ->
  exists b, checkCircularReference n products productId componentId = Some b
            /\ (b = true <-> reaches products componentId productId).
Proof.
  intros products productId.
  induction n as [| n IH]; intros componentId H; [discriminate |].
  simpl in *. destruct (String.eqb productId componentId) eqn:Eq.
  - apply String.eqb_eq in Eq. subst componentId.
    exists true. split; [reflexivity |].
    split; [intros _; constructor | reflexivity].
  - apply String.eqb_neq in Eq.
    destruct (findProduct products componentId) as [p|] eqn:Ef.
    + rewrite forallb_forall in H.
      destruct (anyM_spec ProductComponent.t
                  (fun comp => checkCircularReference n products productId
                                 (ProductComponent.product_id comp))
                  (fun comp => reaches products
                                 (ProductComponent.product_id comp) productId)
                  (Product.components p)) as [b [Hb Hiff]].
      { intros c Hc. apply IH. now apply H. }
      exists b. split; [assumption |]. rewrite Hiff. split.
      * intros [c [Hc Hr]].
        apply reaches_step with (y := ProductComponent.product_id c); [| assumption].
        exists p. split; [assumption |]. now apply in_map.
      * intros Hr. apply reaches_inv in Hr.
        destruct Hr as [Hr | [y [[p' [Hf' Hy]] Hr]]]; [congruence |].
        rewrite Ef in Hf'. injection Hf' as <-.
        apply in_map_iff in Hy. destruct Hy as [c [Hc Hin]]. subst y.
        now exists c.
    + exists false. split; [reflexivity |]. split; [discriminate |].
      intros Hr. apply reaches_inv in Hr.
      destruct Hr as [Hr | [y [[p' [Hf' _]] _]]]; congruence.
Qed.

(** C4 (as amended): when every chain of component edges from the proposed
    component ends (no cycle can be reached from it; cycles elsewhere in the
    catalog do not matter), the cycle check returns, and it returns [true]
    exactly when the proposed component is the candidate itself or reaches
    it through component edges. *)
Theorem checkCircularReference_terminates :
  forall products productId componentId,
    descendsFinitely products componentId ->
    exists fuel b,
      (forall fuel', fuel <= fuel' ->
         checkCircularReference fuel' products productId componentId = Some b)
      /\ (b = true <-> reaches products componentId productId).
Proof.
  intros products productId componentId Hacc.
  apply descends_boundedDepth in Hacc. destruct Hacc as [n Hn].
  destruct (checkCircularReference_bounded products productId n componentId Hn)
    as [b [Hb Hiff]].
  exists n, b. split; [| assumption].
  intros fuel' Hle. now apply checkCircularReference_mono with (fuel := n).
Qed.

Lemma checkCircularReference_terminates_witness :
  edge mixedCatalog "X" "Y" /\ edge mixedCatalog "Y" "X"
  /\ exists fuel b,
       (forall fuel', fuel <= fuel' ->
          checkCircularReference fuel' mixedCatalog "A" "B" = Some b)
       /\ (b = true <-> reaches mixedCatalog "B" "A").
Proof.
  split; [| split].
  - eexists. split; [reflexivity | simpl; auto].
  - eexists. split; [reflexivity | simpl; auto].
  - apply checkCircularReference_terminates.
    apply boundedDepth_descends with (n := 2). reflexivity.
Defined.

Lemma loopCatalog_closed : forall x z,
  reaches loopCatalog x z -> x = "X" \/ x = "Y" -> z = "X" \/ z = "Y".
Proof.
  intros x z H. induction H as [x | x y z [p [Hf Hin]] _ IH]; intros Hx.
  - assumption.
  - apply IH. destruct Hx as [-> | ->]; vm_compute in Hf;
      injection Hf as <-; simpl in Hin; destruct Hin as [<- | []]; auto.
Qed.

(** C4 (as stated) fails: with a cycle between X and Y that does not involve
    the candidate P, the check of P against X exceeds every depth budget. *)
Lemma checkCircularReference_loops_on_cycle :
  edge loopCatalog "X" "Y" /\ edge loopCatalog "Y" "X"
  /\ ~ reaches loopCatalog "X" "P"
  /\ (forall fuel, checkCircularReference fuel loopCatalog "P" "X" = None).
Proof.
  split; [| split; [| split]].
  - eexists. split; [reflexivity | simpl; auto].
  - eexists. split; [reflexivity | simpl; auto].
  - intros H. apply loopCatalog_closed in H; [| now left].
    destruct H as [H | H]; discriminate.
  - assert (Hboth : forall fuel,
              checkCircularReference fuel loopCatalog "P" "X" = None
              /\ checkCircularReference fuel loopCatalog "P" "Y" = None).
    { induction fuel as [| n [IHx IHy]]; [split; reflexivity |].
      split.
      - change (checkCircularReference (S n) loopCatalog "P" "X")
          with (match checkCircularReference n loopCatalog "P" "Y" with
                | None => None
                | Some true => Some true
                | Some false => Some false
                end).
        now rewrite IHy.
      - change (checkCircularReference (S n) loopCatalog "P" "Y")
          with (match checkCircularReference n loopCatalog "P" "X" with
                | None => None
                | Some true => Some true
                | Some false => Some false
                end).
        now rewrite IHx. }
    intros fuel. apply Hboth.
Qed.

Lemma reaches_last : forall products x z,
  reaches products x z ->
  x = z \/ exists y, reaches products x y /\ edge products y z.
Proof.
  intros products x z H. induction H as [x | x y z He _ IH].
  - now left.
  - right. destruct IH as [<- | [y' [Hr He']]].
    + exists x. split; [constructor | assumption].
    + exists y'. split; [| assumption]. now apply reaches_step with (y := y).
Qed.

Lemma freshIdb_spec : forall i products,
  freshIdb i products = true ->
  ~ In i (map Product.id products)
  /\ forall x, ~ edge products x i.
Proof.
  intros i products H. unfold freshIdb in H. apply negb_true_iff in H.
  assert (Hp : forall p, In p products ->
                 String.eqb (Product.id p) i = false
                 /\ ~ In i (map ProductComponent.product_id (Product.components p))).
  { intros p Hin.
    destruct (String.eqb (Product.id p) i) eqn:E1.
    - exfalso. enough (Ht : existsb
          (fun p => String.eqb (Product.id p) i
                    || existsb (fun c => String.eqb (ProductComponent.product_id c) i)
                         (Product.components p)) products = true) by congruence.
      apply existsb_exists. exists p. now rewrite E1.
    - split; [reflexivity |]. intros Hc.
      apply in_map_iff in Hc. destruct Hc as [c [Hc Hin']].
      enough (Ht : existsb
          (fun p => String.eqb (Product.id p) i
                    || existsb (fun c => String.eqb (ProductComponent.product_id c) i)
                         (Product.components p)) products = true) by congruence.
      apply existsb_exists. exists p. split; [assumption |].
      apply orb_true_iff. right. apply existsb_exists. exists c.
      split; [assumption |]. now apply String.eqb_eq. }
  split.
  - intros Hin. apply in_map_iff in Hin. destruct Hin as [p [Hid Hin]].
    destruct (Hp p Hin) as [Hne _]. apply String.eqb_neq in Hne. contradiction.
  - intros x [p [Hf Hin]]. apply findProduct_some in Hf.
    destruct Hf as [Hpin _]. now destruct (Hp p Hpin) as [_ Hn].
Qed.

Lemma anyCircular_fresh : forall r tempId rank components fuel,
  (forall x y, edge (Store.products r) x y -> rank y < rank x) ->
  freshIdb tempId (Store.products r) = true ->
  referencesExisting (Store.products r) components = true ->
  (forall c, In c components -> rank (ProductComponent.product_id c) < fuel) ->
  anyCircular fuel r tempId components = Some false.
Proof.
  intros r tempId rank components fuel Hrank Hfresh Hrefs Hfuel.
  destruct (freshIdb_spec _ _ Hfresh) as [Hnotid Hnoedge].
  unfold anyCircular.
  destruct (anyM_spec ProductComponent.t
              (fun component => checkCircularReference fuel (Store.products r)
                                  tempId (ProductComponent.product_id component))
              (fun component => reaches (Store.products r)
                                  (ProductComponent.product_id component) tempId)
              components) as [b [Hb Hiff]].
  { intros c Hc. apply checkCircularReference_ranked with (rank := rank); auto. }
  rewrite Hb. destruct b; [| reflexivity]. exfalso.
  destruct (proj1 Hiff eq_refl) as [c [Hc Hr]].
  apply reaches_last in Hr. destruct Hr as [Heq | [y [_ He]]].
  - unfold referencesExisting in Hrefs. rewrite forallb_forall in Hrefs.
    specialize (Hrefs c Hc). apply existsb_exists in Hrefs.
    destruct Hrefs as [p [Hp Hid]]. apply String.eqb_eq in Hid.
    apply Hnotid. rewrite <- Heq, <- Hid. now apply in_map.
  - now apply (Hnoedge y).
Qed.

(** C10: on an acyclic catalog, with components that refer to products of
    the catalog and a temporary id that is fresh for the catalog,
    [addProduct] does not throw: it returns and has put the new product at
    the head of the products. *)
Theorem addProduct_never_circular : forall e r productData w,
  acyclic (Store.products r) ->
  referencesExisting (Store.products r) (Product.components productData) = true ->
  freshIdb (idOf e (ticks w)) (Store.products r) = true ->
  exists fuel, forall fuel', fuel <= fuel' ->
    exists i w1,
      addProduct fuel' e r productData w = Done w1
      /\ Store.products (db w1)
         = Product.stamped productData i (nowISO e) :: Store.products (db w).
Proof.
  intros e r productData w [rank Hrank] Hrefs Hfresh.
  exists (S (list_max (map (fun c => rank (ProductComponent.product_id c))
                           (Product.components productData)))).
  intros fuel' Hle. unfold addProduct.
  destruct (Product.components productData) as [| c0 cs] eqn:Ec.
  - simpl. eexists. eexists. split; reflexivity.
  - unfold generateId. cbv beta iota zeta.
    rewrite (anyCircular_fresh r (idOf e (ticks w)) rank (c0 :: cs) fuel' Hrank
               Hfresh Hrefs).
    + eexists. eexists. split; reflexivity.
    + intros c Hc.
      assert (Hmax : rank (ProductComponent.product_id c)
                     <= list_max (map (fun c => rank (ProductComponent.product_id c))
                                      (c0 :: cs))).
      { pose proof (list_max_le
                      (map (fun c => rank (ProductComponent.product_id c)) (c0 :: cs))
                      (list_max (map (fun c => rank (ProductComponent.product_id c))
                                     (c0 :: cs)))) as [Hall _].
        specialize (Hall (Nat.le_refl _)). rewrite Forall_forall in Hall.
        apply Hall. apply in_map_iff. now exists c. }
      lia.
Qed.

Lemma addProduct_never_circular_witness :
  exists fuel, forall fuel', fuel <= fuel' ->
    exists i w1,
      addProduct fuel' sampleEnv
        {| Store.clients := []; Store.projects := []; Store.transactions := [];
           Store.products := sampleCatalog; Store.stockMovements := [] |}
        (mkProduct EmptyString "Mesa" produto_pronto
           [mkComponent "B" "Tampo" (1 # 1) (240 # 1) (240 # 1);
            mkComponent "A" "Madeira" (4 # 1) (120 # 1) (480 # 1)] 0%Q 0%Q)
        {| db := {| Store.clients := []; Store.projects := [];
                    Store.transactions := []; Store.products := sampleCatalog;
                    Store.stockMovements := [] |};
           ticks := 0 |} = Done w1
      /\ Store.products (db w1)
         = Product.stamped
             (mkProduct EmptyString "Mesa" produto_pronto
                [mkComponent "B" "Tampo" (1 # 1) (240 # 1) (240 # 1);
                 mkComponent "A" "Madeira" (4 # 1) (120 # 1) (480 # 1)] 0%Q 0%Q)
             i (nowISO sampleEnv)
           :: sampleCatalog.
Proof.
  apply (addProduct_never_circular sampleEnv
           {| Store.clients := []; Store.projects := []; Store.transactions := [];
              Store.products := sampleCatalog; Store.stockMovements := [] |}).
  - apply rankedb_acyclic with (rank := sampleRank). reflexivity.
  - reflexivity.
  - reflexivity.
Defined.

Lemma sumCosts_ext_some : forall (f g : string -> option Q) l acc v,
  (forall i x, f i = Some x -> g i = Some x) ->
  sumCosts f acc l = Some v -> sumCosts g acc l = Some v.
Proof.
  intros f g l. induction l as [| c l IH]; intros acc v H Hs; simpl in *.
  - assumption.
  - destruct (f (ProductComponent.product_id c)) as [x|] eqn:E; [| discriminate].
    rewrite (H _ _ E). now apply IH.
Qed.

Lemma calculateProductCost_mono : forall fuel fuel' products productId v,
  calculateProductCost fuel products productId = Some v ->
  fuel <= fuel' ->
  calculateProductCost fuel' products productId = Some v.
Proof.
  induction fuel as [| n IH]; intros fuel' products productId v H Hle.
  - discriminate.
  - destruct fuel' as [| m]; [lia |]. simpl in *.
    destruct (findProduct products productId) as [p|]; [| assumption].
    destruct (is_material_bruto (Product.type p)); [assumption |].
    revert H. apply sumCosts_ext_some. intros i x Hx.
    apply IH with (fuel' := m) in Hx; [assumption | lia].
Qed.

(** What the accumulating loop returns, in terms of the costs of the
    components. *)
Lemma sumCosts_spec : forall (cost : string -> option Q) l acc v,
  sumCosts cost acc l = Some v <->
  exists costs,
    Forall2 (fun c x => cost (ProductComponent.product_id c) = Some x) l costs
    /\ v = fold_left
             (fun total cv => (total + snd cv * ProductComponent.quantity (fst cv))%Q)
             (combine l costs) acc.
Proof.
  intros cost l. induction l as [| c l IH]; intros acc v; simpl.
  - split.
    + intros H. injection H as <-. exists []. split; [constructor | reflexivity].
    + intros [costs [HF Hv]]. inversion HF; subst. reflexivity.
  - split.
    + intros H.
      destruct (cost (ProductComponent.product_id c)) as [x|] eqn:E; [| discriminate].
      apply IH in H. destruct H as [costs [HF Hv]].
      exists (x :: costs). split; [now constructor | assumption].
    + intros [costs [HF Hv]]. inversion HF as [| c' x l' costs' Hx HF' ]; subst.
      rewrite Hx. apply IH. exists costs'. split; [assumption | reflexivity].
Qed.

Lemma Forall2_common_fuel : forall products l costs,
  Forall2 (fun c x => cost_returns products (ProductComponent.product_id c) x)
          l costs ->
  exists fuel,
    Forall2 (fun c x => calculateProductCost fuel products
                          (ProductComponent.product_id c) = Some x) l costs.
Proof.
  intros products l costs H. induction H as [| c x l costs [n Hn] _ [m IH]].
  - exists 0. constructor.
  - exists (Nat.max n m). constructor.
    + apply calculateProductCost_mono with (fuel := n); [assumption | lia].
    + revert IH. apply Forall2_impl. intros c' x' Hc.
      apply calculateProductCost_mono with (fuel := m); [assumption | lia].
Qed.

Lemma calculateProductCost_ranked : forall products rank,
  (forall x y, edge products x y -> rank y < rank x) ->
  forall fuel productId, rank productId < fuel ->
  exists v, calculateProductCost fuel products productId = Some v.
Proof.
  intros products rank Hrank.
  induction fuel as [| n IH]; intros productId Hlt; [lia |].
  simpl. destruct (findProduct products productId) as [p|] eqn:Ef.
  - destruct (is_material_bruto (Product.type p)); [eexists; reflexivity |].
    assert (Hc : forall c, In c (Product.components p) ->
                   exists v, calculateProductCost n products
                               (ProductComponent.product_id c) = Some v).
    { intros c Hc. apply IH.
      assert (He : edge products productId (ProductComponent.product_id c)).
      { exists p. split; [assumption | now apply in_map]. }
      specialize (Hrank _ _ He). lia. }
    clear Ef. generalize 0%Q as acc.
    induction (Product.components p) as [| c l IHl]; intros acc; simpl.
    + eexists; reflexivity.
    + destruct (Hc c (or_introl eq_refl)) as [x Hx]. rewrite Hx.
      apply IHl. intros c' Hc'. apply Hc. now right.
  - eexists; reflexivity.
Qed.

(** On the catalog with the cycle between X and Y the cost of X is never
    returned. *)
Lemma calculateProductCost_loops_on_cycle : forall fuel,
  calculateProductCost fuel loopCatalog "X" = None
  /\ calculateProductCost fuel loopCatalog "Y" = None.
Proof.
  induction fuel as [| n [IHx IHy]]; [split; reflexivity |].
  split.
  - change (calculateProductCost (S n) loopCatalog "X")
      with (match calculateProductCost n loopCatalog "Y" with
            | None => None
            | Some componentCost => Some (0 + componentCost * (1 # 1))%Q
            end).
    now rewrite IHy.
  - change (calculateProductCost (S n) loopCatalog "Y")
      with (match calculateProductCost n loopCatalog "X" with
            | None => None
            | Some componentCost => Some (0 + componentCost * (1 # 1))%Q
            end).
    now rewrite IHx.
Qed.

(** C2: the three cases of [calculateProductCost] (no such product, raw
    material, composite), the fact that it returns on every acyclic
    catalog, and the scenario A(120), B = 2 x A: the cost of B is 240. *)
Theorem calculateProductCost_spec : forall products productId,
  (findProduct products productId = None ->
   forall fuel, calculateProductCost (S fuel) products productId = Some 0%Q)
  /\ (forall p, findProduct products productId = Some p ->
        Product.type p = material_bruto ->
        forall fuel, calculateProductCost (S fuel) products productId
                     = Some (Product.cost_price p))
  /\ (forall p, findProduct products productId = Some p ->
        Product.type p <> material_bruto ->
        forall v,
          cost_returns products productId v <->
          exists costs,
            Forall2 (fun c x => cost_returns products
                                  (ProductComponent.product_id c) x)
                    (Product.components p) costs
            /\ v = weightedSum (Product.components p) costs)
  /\ (acyclic products -> exists v, cost_returns products productId v)
  /\ calculateProductCost 2 sampleCatalog "B" = Some (240 # 1)%Q.
Proof.
  intros products productId. repeat split.
  - intros Hf fuel. simpl. now rewrite Hf.
  - intros p Hf Ht fuel. simpl. now rewrite Hf, Ht.
  - intros [fuel Hfuel]. destruct fuel as [| n]; [discriminate |].
    simpl in Hfuel. rewrite H in Hfuel.
    destruct (Product.type p) eqn:Et; try contradiction; simpl in Hfuel;
      apply sumCosts_spec in Hfuel; destruct Hfuel as [costs [HF Hv]];
      exists costs; (split; [| exact Hv]);
      (revert HF; apply Forall2_impl; intros c x Hc; now exists n).
  - intros [costs [HF Hv]]. apply Forall2_common_fuel in HF.
    destruct HF as [n HF]. exists (S n). simpl. rewrite H.
    destruct (Product.type p) eqn:Et; try contradiction; simpl;
      apply sumCosts_spec; exists costs; (split; [exact HF | exact Hv]).
  - intros [rank Hrank].
    destruct (calculateProductCost_ranked products rank Hrank
                (S (rank productId)) productId (Nat.lt_succ_diag_r _)) as [v Hv].
    exists v. now exists (S (rank productId)).
Qed.

(** ** The stock ledger *)

Lemma addStockMovement_ledger : forall e m w,
  Store.stockMovements (db (addStockMovement e m w))
  = StockMovement.stamped m (idOf e (ticks w)) (nowISO e)
    :: Store.stockMovements (db w).
Proof. reflexivity. Qed.

Lemma addStockMovement_ticks : forall e m w,
  ticks (addStockMovement e m w) = S (ticks w).
Proof. reflexivity. Qed.

Lemma consumeComponents_ledger : forall e projectId item components w,
  Store.stockMovements (db (consumeComponents e projectId item components w))
  = rev (stampFrom e (ticks w)
           (map (componentMovement e projectId item) components))
    ++ Store.stockMovements (db w)
  /\ ticks (consumeComponents e projectId item components w)
     = ticks w + List.length components.
Proof.
  intros e projectId item components.
  induction components as [| c cs IH]; intros w; simpl.
  - split; [reflexivity | lia].
  - destruct (IH (addStockMovement e (componentMovement e projectId item c) w))
      as [Hl Ht].
    rewrite Hl, Ht, addStockMovement_ledger, addStockMovement_ticks.
    split; [| lia]. now rewrite <- app_assoc.
Qed.

Lemma stampFrom_app : forall e k a b,
  stampFrom e k (a ++ b)
  = stampFrom e k a ++ stampFrom e (k + List.length a) b.
Proof.
  intros e k a. revert k. induction a as [| m a IH]; intros k b; simpl.
  - now rewrite Nat.add_0_r.
  - rewrite IH. do 3 f_equal. lia.
Qed.

Lemma expectedLineMovements_code : forall e catalog projectId item,
  expectedLineMovements e catalog projectId item
  = match findProduct catalog (ProjectProduct.product_id item) with
    | None => []
    | Some product =>
        saleMovement e projectId product item
        :: (if negb (is_material_bruto (Product.type product))
            then map (componentMovement e projectId item)
                     (Product.components product)
            else [])
    end.
Proof.
  intros e catalog projectId item. unfold expectedLineMovements.
  destruct (findProduct catalog (ProjectProduct.product_id item)) as [p|];
    [| reflexivity].
  destruct (Product.type p); reflexivity.
Qed.

Lemma processProjectStockMovement_ledger : forall e r projectId items w,
  Store.stockMovements (db (processProjectStockMovement e r projectId items w))
  = rev (stampFrom e (ticks w)
           (flat_map (expectedLineMovements e (Store.products r) projectId) items))
    ++ Store.stockMovements (db w).
Proof.
  intros e r projectId items.
  induction items as [| item items IH]; intros w; [reflexivity |].
  cbn [processProjectStockMovement flat_map].
  rewrite IH, stampFrom_app, rev_app_distr, <- app_assoc.
  rewrite expectedLineMovements_code.
  destruct (findProduct (Store.products r) (ProjectProduct.product_id item))
    as [p|]; [| simpl; now rewrite Nat.add_0_r].
  destruct (negb (is_material_bruto (Product.type p))).
  - destruct (consumeComponents_ledger e projectId item (Product.components p)
                (addStockMovement e (saleMovement e projectId p item) w))
      as [Hl Ht].
    rewrite Hl, Ht, addStockMovement_ledger, addStockMovement_ticks.
    cbn [stampFrom rev List.length]. rewrite length_map.
    rewrite <- !app_assoc. cbn [app]. do 2 f_equal. f_equal. lia.
  - rewrite addStockMovement_ledger, addStockMovement_ticks.
    cbn [stampFrom rev List.length app]. do 3 f_equal. lia.
Qed.

(** C6: the ledger after [processProjectStockMovement] is the old ledger
    with, put in front of it (latest first), exactly the movements the line
    items call for: per line whose product is in the catalog one [saida] of
    the product and one per direct component, none for deeper levels.
    Selling 3 units of B = 2 x A gives one movement of B (3) and one of A
    (6, total value 720). *)
Theorem processProjectStockMovement_cascade : forall e r projectId items w,
  Store.stockMovements (db (processProjectStockMovement e r projectId items w))
  = rev (stampFrom e (ticks w)
           (flat_map (expectedLineMovements e (Store.products r) projectId) items))
    ++ Store.stockMovements (db w)
  /\ map (fun m => (StockMovement.product_id m, StockMovement.type m,
                    StockMovement.quantity m, StockMovement.total_value m))
         (rev (Store.stockMovements
                 (db (processProjectStockMovement sampleEnv sampleStore "p1"
                        [sampleLine] sampleWorld))))
     = [ ("B", saida, (3 # 1)%Q, Some (1200 # 1)%Q);
         ("A", saida, (6 # 1)%Q, Some (720 # 1)%Q) ].
Proof.
  intros e r projectId items w. split.
  - apply processProjectStockMovement_ledger.
  - reflexivity.
Qed.

(** *** The counter and the ledger *)

Lemma sameNumberQ_eq : forall a b, sameNumberQ a b = true -> a = b.
Proof.
  intros [an ad] [bn bd] H. unfold sameNumberQ in H. cbn [Qnum Qden] in H.
  apply andb_true_iff in H. destruct H as [Hn Hd].
  apply Z.eqb_eq in Hn. apply Pos.eqb_eq in Hd. now subst.
Qed.

Lemma tracksLedgerb_tracks : forall initial s,
  tracksLedgerb initial s = true -> tracksLedger initial s.
Proof.
  intros initial s H p Hp. unfold tracksLedgerb in H.
  rewrite forallb_forall in H. now apply sameNumberQ_eq, H.
Qed.

Lemma tracks_same_stock : forall initial s s',
  Store.products s' = Store.products s ->
  Store.stockMovements s' = Store.stockMovements s ->
  tracksLedger initial s -> tracksLedger initial s'.
Proof.
  intros initial s s' Hp Hm H p Hin. rewrite Hp in Hin. rewrite Hm. now apply H.
Qed.

Lemma addStockMovement_tracks : forall e initial m w,
  tracksLedger initial (db w) ->
  tracksLedger initial (db (addStockMovement e m w)).
Proof.
  intros e initial m w H p' Hin.
  change (Store.products (db (addStockMovement e m w)))
    with (map (fun p =>
                 if String.eqb (Product.id p) (StockMovement.product_id m)
                 then Product.with_current_stock p
                        (if is_entrada (StockMovement.type m)
                         then (Product.current_stock p + StockMovement.quantity m)%Q
                         else (Product.current_stock p - StockMovement.quantity m)%Q)
                 else p) (Store.products (db w))) in Hin.
  rewrite addStockMovement_ledger.
  apply in_map_iff in Hin. destruct Hin as [p [Hp' Hin]].
  specialize (H p Hin).
  cbn [replayStock StockMovement.stamped StockMovement.product_id
       StockMovement.type StockMovement.quantity].
  destruct (String.eqb (Product.id p) (StockMovement.product_id m)) eqn:E;
    subst p'.
  - cbn [Product.with_current_stock Product.id Product.current_stock].
    rewrite String.eqb_sym, E, <- H. reflexivity.
  - rewrite String.eqb_sym, E. exact H.
Qed.

Lemma consumeComponents_tracks : forall e initial projectId item components w,
  tracksLedger initial (db w) ->
  tracksLedger initial (db (consumeComponents e projectId item components w)).
Proof.
  intros e initial projectId item components.
  induction components as [| c cs IH]; intros w H; simpl; [assumption |].
  apply IH. now apply addStockMovement_tracks.
Qed.

Lemma processProjectStockMovement_tracks :
  forall e initial r projectId items w,
    tracksLedger initial (db w) ->
    tracksLedger initial
      (db (processProjectStockMovement e r projectId items w)).
Proof.
  intros e initial r projectId items.
  induction items as [| item items IH]; intros w H; simpl; [assumption |].
  apply IH.
  destruct (findProduct (Store.products r) (ProjectProduct.product_id item))
    as [p|]; [| assumption].
  destruct (negb (is_material_bruto (Product.type p))).
  - apply consumeComponents_tracks. now apply addStockMovement_tracks.
  - now apply addStockMovement_tracks.
Qed.

Lemma addProject_tracks : forall e initial r projectData w,
  tracksLedger initial (db w) ->
  tracksLedger initial (db (addProject e r projectData w)).
Proof.
  intros e initial r projectData w H. unfold addProject.
  unfold generateId. cbv beta iota zeta.
  destruct (Project.type projectData).
  - revert H. now apply tracks_same_stock.
  - destruct (negb (status_eqb (Project.status projectData) orcamento)).
    + destruct (Project.products projectData) as [| item items].
      * revert H. now apply tracks_same_stock.
      * apply processProjectStockMovement_tracks.
        revert H. now apply tracks_same_stock.
    + revert H. now apply tracks_same_stock.
Qed.

Lemma replayStock_unused : forall i initial ms,
  existsb (fun m => String.eqb (StockMovement.product_id m) i) ms = false ->
  replayStock i initial ms = initial.
Proof.
  intros i initial ms. induction ms as [| m ms IH]; intros H; simpl in *;
    [reflexivity |].
  apply orb_false_iff in H. destruct H as [H1 H2]. rewrite H1. now apply IH.
Qed.

Lemma addProduct_done : forall fuel e r productData w w1,
  addProduct fuel e r productData w = Done w1 ->
  exists i,
    Store.products (db w1)
    = Product.stamped productData i (nowISO e) :: Store.products (db w)
    /\ Store.stockMovements (db w1) = Store.stockMovements (db w).
Proof.
  intros fuel e r productData w w1. unfold addProduct, generateId.
  cbv beta iota zeta.
  destruct (Product.components productData) as [| c cs].
  - intros H. injection H as <-. eexists. split; reflexivity.
  - destruct (anyCircular fuel r (idOf e (ticks w)) (c :: cs)) as [[|]|];
      try discriminate.
    intros H. injection H as <-. eexists. split; reflexivity.
Qed.

Lemma addProduct_tracks : forall initial e productData w w1 i,
  tracksLedger initial (db w) ->
  Store.products (db w1)
  = Product.stamped productData i (nowISO e) :: Store.products (db w) ->
  Store.stockMovements (db w1) = Store.stockMovements (db w) ->
  unusedProductId i (db w) = true ->
  tracksLedger (withInitial initial i (Product.current_stock productData))
    (db w1).
Proof.
  intros initial e productData w w1 i H Hp Hm Hun p Hin.
  unfold unusedProductId in Hun. apply andb_true_iff in Hun.
  destruct Hun as [Hids Hms]. apply negb_true_iff in Hids, Hms.
  rewrite Hp in Hin. rewrite Hm. unfold withInitial.
  destruct Hin as [<- | Hin].
  - cbn [Product.stamped Product.id Product.current_stock].
    now rewrite String.eqb_refl, (replayStock_unused _ _ _ Hms).
  - destruct (String.eqb (Product.id p) i) eqn:E.
    + exfalso. enough (Ht : existsb (fun p => String.eqb (Product.id p) i)
                              (Store.products (db w)) = true) by congruence.
      apply existsb_exists. now exists p.
    + now apply H.
Qed.

Lemma updateProduct_done : forall fuel r product w w1,
  updateProduct fuel r product w = Done w1 ->
  Store.products (db w1)
  = map (fun p => if String.eqb (Product.id p) (Product.id product)
                  then product else p) (Store.products (db w))
  /\ Store.stockMovements (db w1) = Store.stockMovements (db w).
Proof.
  intros fuel r product w w1. unfold updateProduct.
  destruct (Product.components product) as [| c cs].
  - intros H. injection H as <-. split; reflexivity.
  - destruct (anyCircular fuel r (Product.id product) (c :: cs)) as [[|]|];
      try discriminate.
    intros H. injection H as <-. split; reflexivity.
Qed.

Lemma updateProduct_tracks : forall initial product w w1,
  tracksLedger initial (db w) ->
  Store.products (db w1)
  = map (fun p => if String.eqb (Product.id p) (Product.id product)
                  then product else p) (Store.products (db w)) ->
  Store.stockMovements (db w1) = Store.stockMovements (db w) ->
  (forall p, In p (Store.products (db w)) ->
     Product.id p = Product.id product ->
     Product.current_stock product = Product.current_stock p) ->
  tracksLedger initial (db w1).
Proof.
  intros initial product w w1 H Hp Hm Hsame p' Hin.
  rewrite Hp in Hin. rewrite Hm.
  apply in_map_iff in Hin. destruct Hin as [p [Hp' Hin]].
  destruct (String.eqb (Product.id p) (Product.id product)) eqn:E; subst p'.
  - apply String.eqb_eq in E. rewrite (Hsame p Hin E), <- E. now apply H.
  - now apply H.
Qed.

(** C1 (as amended): when the counter of every product is its initial
    stock with the movements of the ledger applied in the order they were
    recorded ([entrada] added, [saida] subtracted), it still is after
    [addStockMovement], after [processProjectStockMovement], after
    [addProject] with its cascade, after [addProduct] (the new product
    entering with its stock as initial stock, its id being new to the
    store), and after an [updateProduct] whose record keeps the stored
    counter.  The equality is between the very additions and subtractions
    the program performs, in its order. *)
Theorem stock_counter_tracks_ledger : forall e initial r w,
  tracksLedger initial (db w) ->
  (forall m, tracksLedger initial (db (addStockMovement e m w)))
  /\ (forall projectId items,
        tracksLedger initial
          (db (processProjectStockMovement e r projectId items w)))
  /\ (forall projectData, tracksLedger initial (db (addProject e r projectData w)))
  /\ (forall fuel productData w1,
        addProduct fuel e r productData w = Done w1 ->
        exists i,
          Store.products (db w1)
          = Product.stamped productData i (nowISO e) :: Store.products (db w)
          /\ (unusedProductId i (db w) = true ->
              tracksLedger
                (withInitial initial i (Product.current_stock productData))
                (db w1)))
  /\ (forall fuel product w1,
        updateProduct fuel r product w = Done w1 ->
        (forall p, In p (Store.products (db w)) ->
           Product.id p = Product.id product ->
           Product.current_stock product = Product.current_stock p) ->
        tracksLedger initial (db w1)).
Proof.
  intros e initial r w H. split; [| split; [| split; [| split]]].
  - intros m. now apply addStockMovement_tracks.
  - intros projectId items. now apply processProjectStockMovement_tracks.
  - intros projectData. now apply addProject_tracks.
  - intros fuel productData w1 Hdone.
    destruct (addProduct_done _ _ _ _ _ _ Hdone) as [i [Hp Hm]].
    exists i. split; [assumption |]. intros Hun.
    now apply addProduct_tracks with (e := e) (w := w).
  - intros fuel product w1 Hdone Hsame.
    destruct (updateProduct_done _ _ _ _ _ Hdone) as [Hp Hm].
    now apply updateProduct_tracks with (product := product) (w := w).
Qed.

Lemma stock_counter_tracks_ledger_witness :
  tracksLedgerb sampleInitial (db sampleWorld) = true
  /\ tracksLedgerb sampleInitial
       (db (addProject sampleEnv sampleStore sampleSale sampleWorld)) = true
  /\ map (fun p => (Product.id p, Product.current_stock p))
         (Store.products
            (db (addProject sampleEnv sampleStore sampleSale sampleWorld)))
     = [("A"%string, (50 # 1) - (2 # 1) * (3 # 1));
        ("B"%string, (10 # 1) - (3 # 1))]%Q
  /\ tracksLedger sampleInitial
       (db (addProject sampleEnv sampleStore sampleSale sampleWorld)).
Proof.
  split; [reflexivity | split; [reflexivity | split; [reflexivity |]]].
  apply (stock_counter_tracks_ledger sampleEnv sampleInitial sampleStore
           sampleWorld
           (tracksLedgerb_tracks sampleInitial (db sampleWorld) eq_refl)).
Defined.

(** C1 (as stated) fails: [updateProduct] stores whatever counter the new
    record carries, and [deleteProject] removes the movements of the
    project and leaves the counters as they were. *)
Lemma stock_consistency_broken :
  consistentb sampleInitial (db sampleWorld) = true
  /\ option_map (fun w1 => consistentb sampleInitial (db w1))
       (match updateProduct 1 sampleStore
                (Product.with_current_stock productA (999 # 1)) sampleWorld with
        | Done w1 => Some w1
        | _ => None
        end) = Some false
  /\ consistentb sampleInitial
       (db (addProject sampleEnv sampleStore sampleSale sampleWorld)) = true
  /\ map Project.id
       (Store.projects
          (db (addProject sampleEnv sampleStore sampleSale sampleWorld)))
     = ["id-0"%string]
  /\ consistentb sampleInitial
       (db (deleteProject "id-0"
              (addProject sampleEnv sampleStore sampleSale sampleWorld)))
     = false.
Proof. repeat split. Qed.

(** ** Project lifecycle *)

Lemma consumeComponents_projects : forall e projectId item components w,
  Store.projects (db (consumeComponents e projectId item components w))
  = Store.projects (db w).
Proof.
  intros e projectId item components.
  induction components as [| c cs IH]; intros w; simpl; [reflexivity |].
  now rewrite IH.
Qed.

Lemma processProjectStockMovement_projects : forall e r projectId items w,
  Store.projects (db (processProjectStockMovement e r projectId items w))
  = Store.projects (db w).
Proof.
  intros e r projectId items.
  induction items as [| item items IH]; intros w; simpl; [reflexivity |].
  rewrite IH.
  destruct (findProduct (Store.products r) (ProjectProduct.product_id item))
    as [p|]; [| reflexivity].
  destruct (negb (is_material_bruto (Product.type p))); [| reflexivity].
  now rewrite consumeComponents_projects.
Qed.

Lemma addProject_projects : forall e r projectData w,
  Store.projects (db (addProject e r projectData w))
  = Project.stamped projectData (idOf e (ticks w))
      (nextProjectNumber (Store.projects r)) (nowISO e)
    :: Store.projects (db w).
Proof.
  intros e r projectData w. unfold addProject, generateId.
  cbv beta iota zeta.
  destruct (Project.type projectData); [reflexivity |].
  destruct (negb (status_eqb (Project.status projectData) orcamento));
    [| reflexivity].
  destruct (Project.products projectData) as [| item items]; [reflexivity |].
  now rewrite processProjectStockMovement_projects.
Qed.

Lemma fold_max_spec : forall l n,
  (n <= fold_left Z.max l n)%Z
  /\ Forall (fun x => (x <= fold_left Z.max l n)%Z) l
  /\ (fold_left Z.max l n = n \/ In (fold_left Z.max l n) l).
Proof.
  induction l as [| x l IH]; intros n; cbn [fold_left].
  - split; [lia | split; [constructor | now left]].
  - destruct (IH (Z.max n x)) as [H1 [H2 H3]].
    split; [lia | split].
    + constructor; [lia | assumption].
    + destruct H3 as [H3 | H3].
      * rewrite H3. destruct (Z.max_spec n x) as [[_ ->] | [_ ->]].
        -- right. now left.
        -- now left.
      * right. now right.
Qed.

Lemma maxNumber_spec : forall n l,
  Forall (fun x => (x <= maxNumber (n :: l))%Z) (n :: l)
  /\ In (maxNumber (n :: l)) (n :: l).
Proof.
  intros n l. unfold maxNumber.
  destruct (fold_max_spec l n) as [H1 [H2 H3]].
  split; [now constructor |].
  destruct H3 as [-> | H3]; [now left | now right].
Qed.

(** C3 (as amended): the number of a new project is 1 when the captured
    store holds no project, and otherwise one more than the largest number
    among the projects the store holds, hence above each of them. *)
Theorem addProject_number_from_existing : forall e r projectData w,
  exists newProject,
    Store.projects (db (addProject e r projectData w))
    = newProject :: Store.projects (db w)
    /\ (Store.projects r = [] -> Project.number newProject = 1%Z)
    /\ (Store.projects r <> [] ->
        (exists p, In p (Store.projects r)
                   /\ Project.number newProject = (Project.number p + 1)%Z)
        /\ forall p, In p (Store.projects r) ->
             (Project.number p < Project.number newProject)%Z).
Proof.
  intros e r projectData w. eexists. split; [apply addProject_projects |].
  cbn [Project.stamped Project.number]. split.
  - intros ->. reflexivity.
  - intros Hne. destruct (Store.projects r) as [| p0 ps] eqn:E; [contradiction |].
    unfold nextProjectNumber.
    change (map Project.number (p0 :: ps))
      with (Project.number p0 :: map Project.number ps).
    destruct (maxNumber_spec (Project.number p0) (map Project.number ps))
      as [Hall Hin].
    split.
    + change (Project.number p0 :: map Project.number ps)
        with (map Project.number (p0 :: ps)) in Hin.
      apply in_map_iff in Hin. destruct Hin as [p [Hp Hin]].
      exists p. split; [assumption | now rewrite Hp].
    + intros p Hp. rewrite Forall_forall in Hall.
      apply (in_map Project.number) in Hp.
      specialize (Hall (Project.number p) Hp). lia.
Qed.

(** C3 (as stated) fails: after the only project (number 1) is deleted,
    the next project is given number 1 again. *)
Lemma addProject_reuses_number :
  map (fun p => (Project.id p, Project.number p))
      (Store.projects (db (fresh (fun r => addProject sampleEnv r sampleSale) emptyWorld)))
  = [("id-0"%string, 1%Z)]
  /\ Store.projects
       (db (deleteProject "id-0"
              (fresh (fun r => addProject sampleEnv r sampleSale) emptyWorld)))
     = []
  /\ map Project.number
       (Store.projects
          (db (fresh (fun r => addProject sampleEnv r sampleSale)
                 (deleteProject "id-0"
                    (fresh (fun r => addProject sampleEnv r sampleSale) emptyWorld)))))
     = [1%Z].
Proof. repeat split. Qed.

(** *** The final payment *)

Lemma updateProject_transactions : forall e r i updates w,
  Store.transactions (db (updateProject e r i updates w))
  = match ProjectUpdates.status updates, findProject (Store.projects r) i with
    | Some concluido, Some project =>
        if status_eqb (Project.status project) concluido
        then Store.transactions (db w)
        else Transaction.stamped (finalPayment e i project)
               (idOf e (ticks w)) (nowISO e)
             :: Store.transactions (db w)
    | _, _ => Store.transactions (db w)
    end.
Proof.
  intros e r i updates w. unfold updateProject.
  destruct (ProjectUpdates.status updates) as [[| | | |]|];
    destruct (findProject (Store.projects r) i) as [project|];
    try reflexivity.
  destruct (status_eqb (Project.status project) concluido); reflexivity.
Qed.

Lemma updateProject_projects : forall e r i updates w,
  Store.projects (db (updateProject e r i updates w))
  = map (fun p => if String.eqb (Project.id p) i
                  then mergeProject p updates else p)
        (Store.projects (db w)).
Proof.
  intros e r i updates w. unfold updateProject.
  destruct (ProjectUpdates.status updates) as [[| | | |]|];
    destruct (findProject (Store.projects r) i) as [project|];
    try reflexivity.
  destruct (status_eqb (Project.status project) concluido); reflexivity.
Qed.

Lemma status_eqb_eq : forall a b, status_eqb a b = true <-> a = b.
Proof. intros [] []; simpl; split; intros H; congruence. Qed.

Lemma findProject_merged : forall projects i updates,
  ProjectUpdates.id updates = None ->
  findProject
    (map (fun p => if String.eqb (Project.id p) i
                   then mergeProject p updates else p) projects) i
  = option_map (fun p => mergeProject p updates) (findProject projects i).
Proof.
  intros projects i updates Hid. unfold findProject.
  induction projects as [| p ps IH]; [reflexivity |].
  cbn [map find]. destruct (String.eqb (Project.id p) i) eqn:E.
  - cbn [mergeProject Project.id]. rewrite Hid. cbn [orElse].
    now rewrite E.
  - now rewrite E.
Qed.

Lemma runUpdates_cons : forall e i u us w,
  runUpdates e i (u :: us) w
  = runUpdates e i us (fresh (fun r => updateProject e r i u) w).
Proof. reflexivity. Qed.

Lemma runUpdates_count : forall e i us w project,
  findProject (Store.projects (db w)) i = Some project ->
  Forall (fun u => ProjectUpdates.id u = None) us ->
  List.length (Store.transactions (db (runUpdates e i us w)))
  = List.length (Store.transactions (db w))
    + entriesIntoConcluido (Project.status project) us.
Proof.
  intros e i us. induction us as [| u us IH]; intros w project Hf Hids.
  - simpl. lia.
  - inversion Hids as [| u' us' Hu Hus]; subst.
    rewrite runUpdates_cons.
    rewrite (IH _ (mergeProject project u)); [| | assumption].
    + unfold fresh. rewrite updateProject_transactions, Hf.
      cbn [entriesIntoConcluido mergeProject Project.status].
      destruct (ProjectUpdates.status u) as [[| | | |]|]; cbn [orElse];
        try lia.
      destruct (status_eqb (Project.status project) concluido);
        cbn [List.length]; lia.
    + unfold fresh. rewrite updateProject_projects, findProject_merged, Hf;
        [reflexivity | assumption].
Qed.

(** C5 (as amended): an update that sets [concluido] on a project whose
    stored status is another one adds exactly one [entrada] of half the
    budget; on a project already [concluido], with another status, or for
    an unknown id, it adds nothing.  The guard reads the stored status only:
    over a sequence of updates there are as many final payments as entries
    into [concluido], so a project that leaves [concluido] and comes back
    gets one more. *)
Theorem updateProject_final_payment : forall e r i updates w,
  (forall project,
     ProjectUpdates.status updates = Some concluido ->
     findProject (Store.projects r) i = Some project ->
     Project.status project <> concluido ->
     Store.transactions (db (updateProject e r i updates w))
     = Transaction.stamped (finalPayment e i project)
         (idOf e (ticks w)) (nowISO e)
       :: Store.transactions (db w)
     /\ Transaction.type (finalPayment e i project) = entrada
     /\ Transaction.amount (finalPayment e i project)
        = (Project.budget project * half)%Q)
  /\ (forall project,
        findProject (Store.projects r) i = Some project ->
        Project.status project = concluido ->
        Store.transactions (db (updateProject e r i updates w))
        = Store.transactions (db w))
  /\ (ProjectUpdates.status updates <> Some concluido ->
      Store.transactions (db (updateProject e r i updates w))
      = Store.transactions (db w))
  /\ (findProject (Store.projects r) i = None ->
      Store.transactions (db (updateProject e r i updates w))
      = Store.transactions (db w))
  /\ (forall us project,
        findProject (Store.projects (db w)) i = Some project ->
        Forall (fun u => ProjectUpdates.id u = None) us ->
        List.length (Store.transactions (db (runUpdates e i us w)))
        = List.length (Store.transactions (db w))
          + entriesIntoConcluido (Project.status project) us).
Proof.
  intros e r i updates w. split; [| split; [| split; [| split]]].
  - intros project Hu Hf Hst. rewrite updateProject_transactions, Hu, Hf.
    destruct (status_eqb (Project.status project) concluido) eqn:E.
    + apply status_eqb_eq in E. contradiction.
    + repeat split.
  - intros project Hf Hst. rewrite updateProject_transactions, Hf, Hst.
    destruct (ProjectUpdates.status updates) as [[| | | |]|]; reflexivity.
  - intros Hu. rewrite updateProject_transactions.
    destruct (ProjectUpdates.status updates) as [[| | | |]|];
      try reflexivity; congruence.
  - intros Hf. rewrite updateProject_transactions, Hf.
    destruct (ProjectUpdates.status updates) as [[| | | |]|]; reflexivity.
  - intros us project. apply runUpdates_count.
Qed.

(** C5 (as stated) fails: completed, back to approved, completed again
    gives the same project two final payments. *)
Lemma updateProject_pays_twice :
  map (fun t => (Transaction.project_id t, Transaction.category t,
                 Transaction.amount t))
      (Store.transactions
         (db (runUpdates sampleEnv "p1"
                [setStatus concluido; setStatus aprovado; setStatus concluido]
                projectWorld)))
  = [ (Some "p1"%string, "Pagamento Final"%string, (1000 # 2)%Q);
      (Some "p1"%string, "Pagamento Final"%string, (1000 # 2)%Q) ].
Proof. reflexivity. Qed.

(** C9: when one update both sets [concluido] and supplies a budget, the
    final payment is half the budget the captured project had before the
    update, while the stored project takes the new budget. *)
Theorem updateProject_uses_previous_budget :
  forall e r i updates w project newBudget,
    findProject (Store.projects r) i = Some project ->
    Project.status project <> concluido ->
    ProjectUpdates.status updates = Some concluido ->
    ProjectUpdates.budget updates = Some newBudget ->
    (exists t,
       Store.transactions (db (updateProject e r i updates w))
       = t :: Store.transactions (db w)
       /\ Transaction.category t = "Pagamento Final"%string
       /\ Transaction.amount t = (Project.budget project * half)%Q)
    /\ Store.projects (db (updateProject e r i updates w))
       = map (fun p => if String.eqb (Project.id p) i
                       then mergeProject p updates else p)
             (Store.projects (db w))
    /\ forall p, Project.budget (mergeProject p updates) = newBudget.
Proof.
  intros e r i updates w project newBudget Hf Hst Hu Hb. split; [| split].
  - rewrite updateProject_transactions, Hu, Hf.
    destruct (status_eqb (Project.status project) concluido) eqn:E.
    + apply status_eqb_eq in E. contradiction.
    + eexists. split; [reflexivity |]. split; reflexivity.
  - apply updateProject_projects.
  - intros p. cbn [mergeProject Project.budget]. now rewrite Hb.
Qed.

Lemma updateProject_uses_previous_budget_witness :
  (exists t,
     Store.transactions
       (db (updateProject sampleEnv (db projectWorld) "p1"
              (setStatusAndBudget concluido (5000 # 1)) projectWorld))
     = t :: Store.transactions (db projectWorld)
     /\ Transaction.category t = "Pagamento Final"%string
     /\ Transaction.amount t = ((1000 # 1) * half)%Q)
  /\ Store.projects
       (db (updateProject sampleEnv (db projectWorld) "p1"
              (setStatusAndBudget concluido (5000 # 1)) projectWorld))
     = map (fun p => if String.eqb (Project.id p) "p1"
                     then mergeProject p (setStatusAndBudget concluido (5000 # 1))
                     else p)
           (Store.projects (db projectWorld))
  /\ forall p,
       Project.budget (mergeProject p (setStatusAndBudget concluido (5000 # 1)))
       = (5000 # 1)%Q.
Proof.
  apply (updateProject_uses_previous_budget sampleEnv (db projectWorld) "p1"
           (setStatusAndBudget concluido (5000 # 1)) projectWorld storedSale
           (5000 # 1)%Q).
  - reflexivity.
  - discriminate.
  - reflexivity.
  - reflexivity.
Defined.

(** ** The dashboard query *)

(** C7: the code keeps every [entrada] whose month number is the current
    one, whatever its year: a receipt of November 2023 is counted in the
    revenue of November 2024, where the revenue of that calendar month
    is 0. *)
Theorem monthlyRevenue_counts_other_years :
  JsDate.parse (Transaction.date lastYearReceipt)
  = Some {| JsDate.year := 2023; JsDate.month := 10; JsDate.day := 15 |}
  /\ JsDate.parse (nowISO sampleEnv)
     = Some {| JsDate.year := 2024; JsDate.month := 10; JsDate.day := 2 |}
  /\ monthlyRevenue sampleEnv receiptStore = (100 # 1)%Q
  /\ DashboardStats.monthlyRevenue (getDashboardStats sampleEnv receiptStore)
     = (100 # 1)%Q
  /\ calendarMonthRevenue sampleEnv receiptStore = 0%Q.
Proof. repeat split. Qed.

(** ** The CSV mapping of clients *)

Lemma append_assoc : forall a b c : string,
  ((a ++ b) ++ c)%string = (a ++ (b ++ c))%string.
Proof.
  induction a as [| x a IH]; intros b c; simpl; [reflexivity | now rewrite IH].
Qed.

Lemma append_empty_r : forall a : string, (a ++ EmptyString)%string = a.
Proof.
  induction a as [| x a IH]; simpl; [reflexivity | now rewrite IH].
Qed.

Lemma hasChar_append : forall c a b,
  hasChar c (a ++ b)%string = hasChar c a || hasChar c b.
Proof.
  intros c a b. induction a as [| x a IH]; simpl; [reflexivity |].
  now rewrite IH, orb_assoc.
Qed.

(** *** Splitting the text into lines *)

Lemma splitOn_nonempty : forall sep text, splitOn sep text <> [].
Proof.
  intros sep text. destruct text as [| c rest]; simpl; [discriminate |].
  destruct (Ascii.eqb c sep); [discriminate |].
  destruct (splitOn sep rest); discriminate.
Qed.

Lemma splitOn_line : forall sep line rest,
  hasChar sep line = false ->
  splitOn sep (line ++ String sep rest)%string = line :: splitOn sep rest.
Proof.
  intros sep line rest. induction line as [| c line IH]; intros H; simpl in *.
  - now rewrite Ascii.eqb_refl.
  - apply orb_false_iff in H. destruct H as [Hc Hl].
    rewrite Hc, (IH Hl). reflexivity.
Qed.

Lemma splitOn_last : forall sep line,
  hasChar sep line = false -> splitOn sep line = [line].
Proof.
  intros sep line. induction line as [| c line IH]; intros H; simpl in *.
  - reflexivity.
  - apply orb_false_iff in H. destruct H as [Hc Hl].
    rewrite Hc, (IH Hl). reflexivity.
Qed.

Lemma splitOn_join : forall sep line lines,
  Forall (fun l => hasChar sep l = false) (line :: lines) ->
  splitOn sep (join (String sep EmptyString) (line :: lines)) = line :: lines.
Proof.
  intros sep line lines. revert line.
  induction lines as [| l2 lines IH]; intros line H.
  - inversion H; subst. now apply splitOn_last.
  - inversion H as [| x xs Hl Hr]; subst.
    change (join (String sep EmptyString) (line :: l2 :: lines))
      with (line ++ String sep (join (String sep EmptyString) (l2 :: lines)))%string.
    rewrite (splitOn_line _ _ _ Hl). f_equal. now apply IH.
Qed.

Lemma hasChar_join : forall c sep fields,
  hasChar c sep = false ->
  Forall (fun f => hasChar c f = false) fields ->
  hasChar c (join sep fields) = false.
Proof.
  intros c sep fields Hsep H. induction H as [| f fields Hf Hr IH].
  - reflexivity.
  - destruct fields as [| f2 fields]; [exact Hf |].
    change (join sep (f :: f2 :: fields))
      with (f ++ (sep ++ join sep (f2 :: fields)))%string.
    now rewrite !hasChar_append, Hf, Hsep, IH.
Qed.

(** *** Trimming a line *)

(** The last character of the text is not white space. *)
Fixpoint endsSolid (s : string) : bool :=
  match s with
  | EmptyString => false
  | String c EmptyString => negb (isSpace c)
  | String _ rest => endsSolid rest
  end.

Lemma trimEnd_solid : forall s, endsSolid s = true -> trimEnd s = s.
Proof.
  induction s as [| c s IH]; intros H; [discriminate |].
  destruct s as [| c2 s].
  - simpl in *. apply negb_true_iff in H. now rewrite H.
  - change (endsSolid (String c (String c2 s))) with (endsSolid (String c2 s)) in H.
    change (trimEnd (String c (String c2 s)))
      with (if isSpace c && isEmpty (trimEnd (String c2 s))
            then EmptyString else String c (trimEnd (String c2 s))).
    rewrite (IH H). simpl. now rewrite andb_false_r.
Qed.

Lemma endsSolid_append : forall a b,
  endsSolid b = true -> endsSolid (a ++ b)%string = true.
Proof.
  induction a as [| c a IH]; intros b H; [assumption |].
  simpl. specialize (IH b H).
  destruct (a ++ b)%string; [discriminate | assumption].
Qed.

Lemma endsSolid_join : forall sep fields d,
  endsSolid (last fields d) = true -> fields <> [] ->
  endsSolid (join sep fields) = true.
Proof.
  intros sep fields d. induction fields as [| f fields IH]; intros H Hne.
  - contradiction.
  - destruct fields as [| f2 fields]; [exact H |].
    change (join sep (f :: f2 :: fields))
      with (f ++ (sep ++ join sep (f2 :: fields)))%string.
    do 2 apply endsSolid_append. apply IH; [exact H | discriminate].
Qed.

(** *** Reading one line back *)

(** [raw], read outside quotes with an empty [current], leaves [content] in
    [current]. *)
Definition fieldOf (raw content : string) : Prop :=
  forall rest result,
    parseLoop (raw ++ rest)%string result EmptyString false
    = parseLoop rest result content false.

Lemma parseLoop_inside : forall s rest result current,
  hasChar dquote s = false ->
  parseLoop (s ++ rest)%string result current true
  = parseLoop rest result (current ++ s)%string true.
Proof.
  induction s as [| c s IH]; intros rest result current H; simpl in *.
  - now rewrite append_empty_r.
  - apply orb_false_iff in H. destruct H as [Hc Hs].
    rewrite Hc, andb_false_r, (IH _ _ _ Hs), append_assoc. reflexivity.
Qed.

Lemma parseLoop_outside : forall s rest result current,
  hasChar dquote s = false -> hasChar comma s = false ->
  parseLoop (s ++ rest)%string result current false
  = parseLoop rest result (current ++ s)%string false.
Proof.
  induction s as [| c s IH]; intros rest result current Hq Hc; simpl in *.
  - now rewrite append_empty_r.
  - apply orb_false_iff in Hq. destruct Hq as [Hq1 Hq2].
    apply orb_false_iff in Hc. destruct Hc as [Hc1 Hc2].
    rewrite Hq1, Hc1. simpl. rewrite (IH _ _ _ Hq2 Hc2), append_assoc.
    reflexivity.
Qed.

Lemma fieldOf_quoted : forall s,
  hasChar dquote s = false -> fieldOf (quoted s) s.
Proof.
  intros s H rest result. unfold quoted.
  change (parseLoop (String dquote (s ++ String dquote EmptyString) ++ rest)%string
            result EmptyString false)
    with (parseLoop ((s ++ String dquote EmptyString) ++ rest)%string
            result EmptyString true).
  rewrite append_assoc, (parseLoop_inside _ _ _ _ H). reflexivity.
Qed.

Lemma fieldOf_plain : forall s,
  hasChar dquote s = false -> hasChar comma s = false -> fieldOf s s.
Proof.
  intros s Hq Hc rest result. now rewrite (parseLoop_outside _ _ _ _ Hq Hc).
Qed.

Lemma parseLoop_fields : forall raws contents result,
  Forall2 fieldOf raws contents -> raws <> [] ->
  parseLoop (join "," raws) result EmptyString false
  = result ++ map trim contents.
Proof.
  intros raws contents result H. revert result.
  induction H as [| raw content raws contents Hf Hr IH]; intros result Hne.
  - contradiction.
  - destruct raws as [| raw2 raws].
    + inversion Hr; subst.
      change (join "," [raw]) with raw.
      rewrite <- (append_empty_r raw), Hf. reflexivity.
    + change (join "," (raw :: raw2 :: raws))
        with (raw ++ String comma (join "," (raw2 :: raws)))%string.
      rewrite Hf.
      change (parseLoop (String comma (join "," (raw2 :: raws))) result content false)
        with (parseLoop (join "," (raw2 :: raws)) (result ++ [trim content])
                EmptyString false).
      rewrite IH; [| discriminate]. now rewrite <- app_assoc.
Qed.

(** *** The line of a client *)

Lemma hasChar_quoted_newline : forall s,
  hasChar newline (quoted s) = hasChar newline s.
Proof.
  intros s. unfold quoted. cbn [hasChar].
  rewrite hasChar_append. cbn [hasChar].
  change (Ascii.eqb dquote newline) with false.
  now rewrite !orb_false_r.
Qed.

Lemma exportable_texts : forall client,
  exportable client = true ->
  Forall (fun s => hasChar dquote s = false /\ hasChar newline s = false)
         (clientTexts client).
Proof.
  intros client H. unfold exportable in H. rewrite forallb_forall in H.
  apply Forall_forall. intros s Hs. specialize (H s Hs).
  apply andb_true_iff in H. destruct H as [H1 H2].
  now apply negb_true_iff in H1, H2.
Qed.

(** Turns a [Forall] over the texts of a client into one hypothesis per
    text. *)
Ltac texts_of H :=
  unfold clientTexts in H;
  repeat match type of H with
         | Forall _ (_ :: _) =>
             let Hx := fresh "Hx" in
             let Hr := fresh "Hr" in
             inversion H as [| ? ? Hx Hr]; clear H; rename Hr into H; subst
         end.

Ltac split_texts :=
  repeat match goal with
         | Hx : _ /\ _ |- _ => destruct Hx
         end.

Lemma clientRow_fields : forall client,
  exportable client = true ->
  Forall2 fieldOf (clientRow client) (clientContents client).
Proof.
  intros client H. apply exportable_texts in H. texts_of H. split_texts.
  unfold clientRow, clientContents.
  repeat (apply Forall2_cons || apply Forall2_nil);
    try (apply fieldOf_quoted; assumption);
    try (apply fieldOf_plain; reflexivity).
  - destruct (Client.type client); apply fieldOf_plain; reflexivity.
  - destruct (truthy (Client.isento_icms client)); apply fieldOf_plain; reflexivity.
  - destruct (Client.fl_ativo client); apply fieldOf_plain; reflexivity.
Qed.

Lemma clientRow_one_line : forall client,
  exportable client = true ->
  hasChar newline (join "," (clientRow client)) = false.
Proof.
  intros client H. apply exportable_texts in H. texts_of H. split_texts.
  apply hasChar_join; [reflexivity |].
  unfold clientRow.
  repeat (apply Forall_cons || apply Forall_nil);
    try (rewrite hasChar_quoted_newline; assumption);
    try reflexivity.
  - destruct (Client.type client); reflexivity.
  - destruct (truthy (Client.isento_icms client)); reflexivity.
  - destruct (Client.fl_ativo client); reflexivity.
Qed.

Lemma clientRow_trim : forall client,
  trim (join "," (clientRow client)) = join "," (clientRow client).
Proof.
  intros client. unfold trim.
  assert (Hs : trimStart (join "," (clientRow client))
               = join "," (clientRow client)) by reflexivity.
  rewrite Hs. apply trimEnd_solid.
  apply endsSolid_join with (d := EmptyString); [| discriminate].
  change (last (clientRow client) EmptyString)
    with (showFlag (Client.fl_ativo client)).
  destruct (Client.fl_ativo client); reflexivity.
Qed.

Lemma clientRow_not_empty : forall client,
  isEmpty (join "," (clientRow client)) = false.
Proof. reflexivity. Qed.

Lemma parseCSVLine_clientRow : forall client,
  exportable client = true ->
  parseCSVLine (join "," (clientRow client)) = map trim (clientContents client).
Proof.
  intros client H. unfold parseCSVLine.
  rewrite (parseLoop_fields _ (clientContents client));
    [reflexivity | now apply clientRow_fields | discriminate].
Qed.

Lemma orUndefined_trimmed : forall x,
  orUndefined (Some (trim (orEmpty x))) = keptOptional x.
Proof.
  intros [s |]; [| reflexivity]. simpl. now destruct (trim s).
Qed.

Lemma clientOfValues_contents : forall client,
  clientOfValues (map trim (clientContents client)) = reimported client.
Proof.
  intros client. unfold clientOfValues, clientContents, reimported.
  cbn [map nth_error]. rewrite !orUndefined_trimmed. cbn [orEmpty].
  destruct (Client.type client), (truthy (Client.isento_icms client)),
    (Client.fl_ativo client); reflexivity.
Qed.

Lemma importClientLine_clientRow : forall e client w,
  exportable client = true ->
  importClientLine e (join "," (clientRow client)) w
  = addClient e (reimported client) w.
Proof.
  intros e client w H. unfold importClientLine.
  rewrite clientRow_trim, clientRow_not_empty, (parseCSVLine_clientRow _ H).
  rewrite clientOfValues_contents. reflexivity.
Qed.

Lemma importClientsCSV_export : forall e clients w,
  forallb exportable clients = true ->
  fold_left (fun w0 rawLine => importClientLine e rawLine w0)
    (map (fun client => join "," (clientRow client)) clients) w
  = fold_left (fun w0 client => addClient e (reimported client) w0) clients w.
Proof.
  intros e clients. induction clients as [| c cs IH]; intros w H; [reflexivity |].
  cbn [forallb] in H. apply andb_true_iff in H. destruct H as [Hc Hcs].
  cbn [map fold_left]. rewrite (importClientLine_clientRow _ _ _ Hc).
  now apply IH.
Qed.

Lemma addClients_clients : forall e cs w,
  Store.clients (db (fold_left (fun w0 c => addClient e c w0) cs w))
  = rev (stampClientsFrom e (ticks w) cs) ++ Store.clients (db w)
  /\ ticks (fold_left (fun w0 c => addClient e c w0) cs w)
     = ticks w + List.length cs.
Proof.
  intros e cs. induction cs as [| c cs IH]; intros w.
  - split; [reflexivity | simpl; lia].
  - cbn [fold_left]. destruct (IH (addClient e c w)) as [Hc Ht].
    rewrite Hc, Ht. cbn [stampClientsFrom rev List.length].
    split; [| simpl; lia].
    rewrite <- app_assoc. reflexivity.
Qed.

Lemma fold_left_map : forall (A B C : Type) (f : A -> C -> A) (g : B -> C) l a,
  fold_left f (map g l) a = fold_left (fun x b => f x (g b)) l a.
Proof.
  intros A B C f g l. induction l as [| b l IH]; intros a; [reflexivity |].
  simpl. apply IH.
Qed.


(** ** The CSV mappings of transactions, products and projects *)

(** *** Texts and numbers in a column *)

Lemma cleanText_spec : forall s,
  cleanText s = true ->
  hasChar dquote s = false /\ hasChar newline s = false.
Proof.
  intros s H. unfold cleanText in H. apply andb_true_iff in H.
  destruct H as [H1 H2]. now apply negb_true_iff in H1, H2.
Qed.

Lemma hasSpace_newline : forall s,
  hasSpace s = false -> hasChar newline s = false.
Proof.
  induction s as [| c s IH]; intros H; [reflexivity |].
  cbn [hasSpace hasChar] in *. apply orb_false_iff in H. destruct H as [Hc Hs].
  rewrite (IH Hs), orb_false_r.
  destruct (Ascii.eqb_spec c newline) as [-> | _]; [discriminate | reflexivity].
Qed.

Lemma trimEnd_plain : forall s, hasSpace s = false -> trimEnd s = s.
Proof.
  induction s as [| c s IH]; intros H; [reflexivity |].
  cbn [hasSpace] in H. apply orb_false_iff in H. destruct H as [Hc Hs].
  cbn [trimEnd]. now rewrite Hc, (IH Hs).
Qed.

Lemma trim_plain : forall s, hasSpace s = false -> trim s = s.
Proof.
  intros s H. unfold trim.
  assert (Hs : trimStart s = s).
  { destruct s as [| c s]; [reflexivity |].
    cbn [hasSpace] in H. apply orb_false_iff in H. destruct H as [Hc _].
    cbn [trimStart]. now rewrite Hc. }
  rewrite Hs. now apply trimEnd_plain.
Qed.

Lemma endsSolid_plain : forall s,
  isEmpty s = false -> hasSpace s = false -> endsSolid s = true.
Proof.
  induction s as [| c s IH]; intros He H; [discriminate |].
  cbn [hasSpace] in H. apply orb_false_iff in H. destruct H as [Hc Hs].
  destruct s as [| c2 s]; [simpl; now rewrite Hc |].
  change (endsSolid (String c (String c2 s))) with (endsSolid (String c2 s)).
  now apply IH.
Qed.

Lemma endsSolid_quoted : forall s, endsSolid (quoted s) = true.
Proof.
  intros s. unfold quoted.
  assert (H : endsSolid (s ++ String dquote EmptyString)%string = true)
    by now apply endsSolid_append.
  destruct (s ++ String dquote EmptyString)%string eqn:E; [discriminate |].
  exact H.
Qed.

Lemma trimStart_plain_append : forall a b,
  isEmpty a = false -> hasSpace a = false ->
  trimStart (a ++ b)%string = (a ++ b)%string.
Proof.
  intros [| c a] b He H; [discriminate |].
  cbn [hasSpace] in H. apply orb_false_iff in H. destruct H as [Hc _].
  simpl. now rewrite Hc.
Qed.

Lemma plainNumeral_spec : forall t,
  plainNumeral t = true ->
  isEmpty t = false /\ hasChar dquote t = false /\ hasChar comma t = false
  /\ hasSpace t = false.
Proof.
  intros t H. unfold plainNumeral in H.
  rewrite !andb_true_iff, !negb_true_iff in H. tauto.
Qed.

Lemma fieldOf_numeral : forall t, plainNumeral t = true -> fieldOf t t.
Proof.
  intros t H. apply plainNumeral_spec in H. apply fieldOf_plain; tauto.
Qed.

Lemma numeral_one_line : forall t,
  plainNumeral t = true -> hasChar newline t = false.
Proof.
  intros t H. apply plainNumeral_spec in H. apply hasSpace_newline. tauto.
Qed.

Lemma numeral_trim : forall t, plainNumeral t = true -> trim t = t.
Proof.
  intros t H. apply plainNumeral_spec in H. apply trim_plain. tauto.
Qed.

(** What the import makes of a printed number. *)
Lemma parseFloatAt_printed : forall nf x,
  printable nf x ->
  parseFloatAt nf (Some (trim (numberText nf x))) = Some x.
Proof.
  intros nf x [Hp Hx]. rewrite (numeral_trim _ Hp). exact Hx.
Qed.

Lemma textOr_trimmed : forall s d, textOr (Some (trim s)) d = keptText s d.
Proof.
  intros s d. unfold keptText. cbn [textOr]. now destruct (trim s).
Qed.

Lemma numberOr_twice : forall x d,
  numberOr (Some (numberOr x 0)) d = numberOr x d.
Proof.
  intros [v |] d; cbn [numberOr]; [| reflexivity].
  destruct (Qeq_bool v 0) eqn:E; [reflexivity | now rewrite E].
Qed.

Lemma numberOrUndefined_printed : forall x,
  numberOrUndefined (Some (numberOr x 0)) = numberOrUndefined x.
Proof.
  intros [v |]; cbn [numberOr numberOrUndefined]; [| reflexivity].
  destruct (Qeq_bool v 0) eqn:E; [reflexivity | now rewrite E].
Qed.

Lemma keptNumber_same : forall x, (keptNumber x 0 == x)%Q.
Proof.
  intros x. unfold keptNumber. destruct (Qeq_bool x 0) eqn:E.
  - symmetry. now apply Qeq_bool_eq.
  - reflexivity.
Qed.

(** *** The text of a project number *)

Lemma digits_plain : forall u,
  hasChar dquote (NilEmpty.string_of_uint u) = false
  /\ hasChar comma (NilEmpty.string_of_uint u) = false
  /\ hasSpace (NilEmpty.string_of_uint u) = false.
Proof.
  induction u as [| u IH | u IH | u IH | u IH | u IH | u IH | u IH | u IH
                  | u IH | u IH];
    [repeat split | ..];
    destruct IH as (H1 & H2 & H3);
    cbn [NilEmpty.string_of_uint hasChar hasSpace];
    rewrite H1, H2, H3; repeat split.
Qed.

Lemma showNumber_plain : forall n, plainNumeral (showNumber n) = true.
Proof.
  intros n. unfold showNumber, plainNumeral.
  destruct (Z.to_int n) as [u | u]; cbn [NilZero.string_of_int].
  - unfold NilZero.string_of_uint.
    destruct (digits_plain u) as (H1 & H2 & H3).
    destruct u; try reflexivity;
      cbn [NilEmpty.string_of_uint isEmpty negb andb] in *;
      now rewrite H1, H2, H3.
  - unfold NilZero.string_of_uint.
    destruct (digits_plain u) as (H1 & H2 & H3).
    cbn [isEmpty negb andb hasChar hasSpace].
    destruct u; try reflexivity;
      now rewrite H1, H2, H3.
Qed.

(** *** Lines and files *)

(** A line made of columns that read back as [contents], which begins and
    ends with something else than white space, comes through [trim] and
    [parseCSVLine] as the trimmed contents. *)
Lemma exported_line : forall raws contents,
  Forall2 fieldOf raws contents -> raws <> [] ->
  trimStart (join "," raws) = join "," raws ->
  endsSolid (last raws EmptyString) = true ->
  trim (join "," raws) = join "," raws
  /\ parseCSVLine (join "," raws) = map trim contents.
Proof.
  intros raws contents Hf Hne Hs He. split.
  - unfold trim. rewrite Hs. apply trimEnd_solid.
    now apply endsSolid_join with (d := EmptyString).
  - unfold parseCSVLine. now rewrite (parseLoop_fields _ contents).
Qed.

(** The lines of an exported file after the header. *)
Lemma exported_lines : forall (A : Type) (row : A -> list string) headers xs,
  hasChar newline (join "," headers) = false ->
  (forall x, In x xs -> hasChar newline (join "," (row x)) = false) ->
  tl (splitOn newline
        (join (String newline EmptyString)
           (join "," headers :: map (fun x => join "," (row x)) xs)))
  = map (fun x => join "," (row x)) xs.
Proof.
  intros A row headers xs Hh Hr. rewrite splitOn_join; [reflexivity |].
  constructor; [exact Hh |].
  apply Forall_forall. intros line Hline.
  apply in_map_iff in Hline. destruct Hline as [x [<- Hx]]. now apply Hr.
Qed.

Lemma quoted_one_line : forall s,
  hasChar newline s = false -> hasChar newline (quoted s) = false.
Proof. intros s H. now rewrite hasChar_quoted_newline. Qed.

(** *** The line of a transaction *)

Lemma transactionRow_fields : forall nf t,
  exportableTransaction nf t ->
  Forall2 fieldOf (transactionRow nf t) (transactionContents nf t).
Proof.
  intros nf t [Ht [Hn _]]. cbn [forallb transactionTexts] in Ht.
  rewrite !andb_true_iff in Ht. destruct Ht as (H1 & H2 & H3 & H4 & _).
  apply cleanText_spec in H1, H2, H3, H4.
  unfold transactionRow, transactionContents.
  repeat (apply Forall2_cons || apply Forall2_nil);
    try (apply fieldOf_quoted; tauto);
    try (apply fieldOf_numeral; assumption).
  destruct (Transaction.type t); apply fieldOf_quoted; reflexivity.
Qed.

Lemma transactionRow_one_line : forall nf t,
  exportableTransaction nf t ->
  hasChar newline (join "," (transactionRow nf t)) = false.
Proof.
  intros nf t [Ht [Hn _]]. cbn [forallb transactionTexts] in Ht.
  rewrite !andb_true_iff in Ht. destruct Ht as (H1 & H2 & H3 & H4 & _).
  apply cleanText_spec in H1, H2, H3, H4.
  apply hasChar_join; [reflexivity |].
  unfold transactionRow.
  repeat (apply Forall_cons || apply Forall_nil);
    try (apply quoted_one_line; tauto);
    try (apply numeral_one_line; assumption).
  destruct (Transaction.type t); reflexivity.
Qed.

Lemma transactionOfValues_contents : forall nf e t,
  exportableTransaction nf t ->
  transactionOfValues nf e (map trim (transactionContents nf t))
  = Some (reimportedTransaction e t).
Proof.
  intros nf e t [_ Hn].
  unfold transactionOfValues, transactionContents, reimportedTransaction.
  cbn [map nth_error].
  rewrite (parseFloatAt_printed _ _ Hn), textOr_trimmed, orUndefined_trimmed.
  cbn [orEmpty].
  destruct (Transaction.type t); reflexivity.
Qed.

Lemma importTransactionLine_row : forall nf e t w,
  exportableTransaction nf t ->
  importTransactionLine nf e (join "," (transactionRow nf t)) w
  = Imported (addTransaction e (reimportedTransaction e t) w).
Proof.
  intros nf e t w H.
  destruct (exported_line (transactionRow nf t) (transactionContents nf t))
    as [Htrim Hparse].
  - now apply transactionRow_fields.
  - discriminate.
  - reflexivity.
  - apply endsSolid_quoted.
  - unfold importTransactionLine. rewrite Htrim, Hparse.
    rewrite (transactionOfValues_contents _ _ _ H). reflexivity.
Qed.

Lemma importTransactions_lines : forall nf e ts w,
  Forall (exportableTransaction nf) ts ->
  exists w',
    importLines (importTransactionLine nf e)
      (map (fun t => join "," (transactionRow nf t)) ts) w = Imported w'
    /\ Store.transactions (db w')
       = rev (stampTransactionsFrom e (ticks w)
                (map (reimportedTransaction e) ts))
         ++ Store.transactions (db w)
    /\ ticks w' = ticks w + List.length ts.
Proof.
  intros nf e ts. induction ts as [| t ts IH]; intros w H.
  - exists w. repeat split. simpl. lia.
  - inversion H as [| x xs Ht Hts]; subst.
    cbn [map importLines]. rewrite (importTransactionLine_row _ _ _ _ Ht).
    destruct (IH (addTransaction e (reimportedTransaction e t) w) Hts)
      as (w' & Hw & Hs & Hk).
    exists w'. split; [exact Hw | split].
    + rewrite Hs. cbn [stampTransactionsFrom rev]. rewrite <- app_assoc.
      reflexivity.
    + rewrite Hk. simpl. lia.
Qed.

(** *** The line of a product *)

Ltac numbers_of H :=
  repeat match type of H with
         | Forall _ (_ :: _) =>
             let Hx := fresh "Hn" in
             let Hr := fresh "Hr" in
             inversion H as [| ? ? Hx Hr]; clear H; rename Hr into H; subst
         end.

Lemma productRow_fields : forall nf p,
  exportableProduct nf p ->
  Forall2 fieldOf (productRow nf p) (productContents nf p).
Proof.
  intros nf p [Ht Hn]. cbn [forallb productTexts] in Ht.
  rewrite !andb_true_iff in Ht.
  destruct Ht as (H1 & H2 & H3 & H4 & H5 & H6 & _).
  apply cleanText_spec in H1, H2, H3, H4, H5, H6.
  unfold productNumbers in Hn. numbers_of Hn.
  unfold productRow, productContents.
  repeat (apply Forall2_cons || apply Forall2_nil);
    try (apply fieldOf_quoted; tauto);
    try (apply fieldOf_numeral; unfold printable in *; tauto).
  destruct (Product.type p); apply fieldOf_quoted; reflexivity.
Qed.

Lemma productRow_one_line : forall nf p,
  exportableProduct nf p ->
  hasChar newline (join "," (productRow nf p)) = false.
Proof.
  intros nf p [Ht Hn]. cbn [forallb productTexts] in Ht.
  rewrite !andb_true_iff in Ht.
  destruct Ht as (H1 & H2 & H3 & H4 & H5 & H6 & _).
  apply cleanText_spec in H1, H2, H3, H4, H5, H6.
  unfold productNumbers in Hn. numbers_of Hn.
  apply hasChar_join; [reflexivity |].
  unfold productRow.
  repeat (apply Forall_cons || apply Forall_nil);
    try (apply quoted_one_line; tauto);
    try (apply numeral_one_line; unfold printable in *; tauto).
  destruct (Product.type p); reflexivity.
Qed.

Lemma productOfValues_contents : forall nf p,
  exportableProduct nf p ->
  productOfValues nf (map trim (productContents nf p))
  = Some (reimportedProduct p).
Proof.
  intros nf p [_ Hn]. unfold productNumbers in Hn. numbers_of Hn.
  unfold productOfValues, productContents, reimportedProduct.
  cbn [map nth_error].
  rewrite !parseFloatAt_printed by assumption.
  rewrite textOr_trimmed, numberOrUndefined_printed.
  cbn [orEmpty].
  destruct (Product.type p); reflexivity.
Qed.

(** Without components, [addProduct] runs no check. *)
Lemma addProduct_plain : forall fuel e r productData w,
  Product.components productData = [] ->
  exists w',
    addProduct fuel e r productData w = Done w'
    /\ Store.products (db w')
       = Product.stamped productData (idOf e (ticks w)) (nowISO e)
         :: Store.products (db w)
    /\ ticks w' = S (ticks w).
Proof.
  intros fuel e r productData w H. unfold addProduct. rewrite H.
  eexists. repeat split.
Qed.

Lemma importProductLine_row : forall fuel nf e r p w,
  exportableProduct nf p ->
  exists w',
    importProductLine fuel nf e r (join "," (productRow nf p)) w = Imported w'
    /\ Store.products (db w')
       = Product.stamped (reimportedProduct p) (idOf e (ticks w)) (nowISO e)
         :: Store.products (db w)
    /\ ticks w' = S (ticks w).
Proof.
  intros fuel nf e r p w H.
  destruct (exported_line (productRow nf p) (productContents nf p))
    as [Htrim Hparse].
  - now apply productRow_fields.
  - discriminate.
  - reflexivity.
  - apply endsSolid_quoted.
  - destruct (addProduct_plain fuel e r (reimportedProduct p) w eq_refl)
      as (w' & Hadd & Hs & Hk).
    exists w'. split; [| split; assumption].
    unfold importProductLine. rewrite Htrim, Hparse.
    rewrite (productOfValues_contents _ _ H).
    change (isEmpty (join "," (productRow nf p))) with false.
    change (List.length (map trim (productContents nf p)) <? 10) with false.
    cbv beta iota. now rewrite Hadd.
Qed.

Lemma importProducts_lines : forall fuel nf e r ps w,
  Forall (exportableProduct nf) ps ->
  exists w',
    importLines (importProductLine fuel nf e r)
      (map (fun p => join "," (productRow nf p)) ps) w = Imported w'
    /\ Store.products (db w')
       = rev (stampProductsFrom e (ticks w) (map reimportedProduct ps))
         ++ Store.products (db w)
    /\ ticks w' = ticks w + List.length ps.
Proof.
  intros fuel nf e r ps. induction ps as [| p ps IH]; intros w H.
  - exists w. repeat split. simpl. lia.
  - inversion H as [| x xs Hp Hps]; subst.
    destruct (importProductLine_row fuel nf e r p w Hp) as (w1 & H1 & Hs1 & Hk1).
    destruct (IH w1 Hps) as (w' & Hw & Hs & Hk).
    exists w'. cbn [map importLines]. rewrite H1.
    split; [exact Hw | split].
    + rewrite Hs, Hs1, Hk1. cbn [stampProductsFrom rev].
      rewrite <- app_assoc. reflexivity.
    + rewrite Hk, Hk1. simpl. lia.
Qed.

(** *** The line of a project *)

Lemma projectRow_fields : forall nf p,
  exportableProject nf p ->
  Forall2 fieldOf (projectRow nf p) (projectContents nf p).
Proof.
  intros nf p [Ht Hn]. cbn [forallb projectTexts] in Ht.
  rewrite !andb_true_iff in Ht.
  destruct Ht as (H1 & H2 & H3 & H4 & H5 & _).
  apply cleanText_spec in H1, H2, H3, H4, H5.
  unfold projectNumbers in Hn. numbers_of Hn.
  unfold projectRow, projectContents.
  repeat (apply Forall2_cons || apply Forall2_nil);
    try (apply fieldOf_quoted; tauto);
    try (apply fieldOf_numeral; unfold printable in *; tauto).
  - apply fieldOf_numeral, showNumber_plain.
  - destruct (Project.status p); apply fieldOf_quoted; reflexivity.
  - destruct (Project.type p); apply fieldOf_quoted; reflexivity.
Qed.

Lemma projectRow_one_line : forall nf p,
  exportableProject nf p ->
  hasChar newline (join "," (projectRow nf p)) = false.
Proof.
  intros nf p [Ht Hn]. cbn [forallb projectTexts] in Ht.
  rewrite !andb_true_iff in Ht.
  destruct Ht as (H1 & H2 & H3 & H4 & H5 & _).
  apply cleanText_spec in H1, H2, H3, H4, H5.
  unfold projectNumbers in Hn. numbers_of Hn.
  apply hasChar_join; [reflexivity |].
  unfold projectRow.
  repeat (apply Forall_cons || apply Forall_nil);
    try (apply quoted_one_line; tauto);
    try (apply numeral_one_line; unfold printable in *; tauto).
  - apply numeral_one_line, showNumber_plain.
  - destruct (Project.status p); reflexivity.
  - destruct (Project.type p); reflexivity.
Qed.

Lemma projectRow_trimStart : forall nf p,
  trimStart (join "," (projectRow nf p)) = join "," (projectRow nf p).
Proof.
  intros nf p.
  destruct (plainNumeral_spec _ (showNumber_plain (Project.number p)))
    as (He & _ & _ & Hs).
  unfold projectRow.
  match goal with
  | |- trimStart (join "," (?a :: ?rest)) = _ =>
      change (join "," (a :: rest))
        with (a ++ ("," ++ join "," rest))%string
  end.
  now apply trimStart_plain_append.
Qed.

Lemma projectRow_not_empty : forall nf p,
  isEmpty (join "," (projectRow nf p)) = false.
Proof.
  intros nf p.
  destruct (plainNumeral_spec _ (showNumber_plain (Project.number p)))
    as (He & _).
  unfold projectRow.
  match goal with
  | |- isEmpty (join "," (?a :: ?rest)) = _ =>
      change (join "," (a :: rest))
        with (a ++ ("," ++ join "," rest))%string
  end.
  destruct (showNumber (Project.number p)); [discriminate | reflexivity].
Qed.

Lemma projectOfValues_contents : forall nf e client p,
  exportableProject nf p ->
  projectOfValues nf e client (map trim (projectContents nf p))
  = Some (reimportedProject e client p).
Proof.
  intros nf e client p [_ Hn]. unfold projectNumbers in Hn. numbers_of Hn.
  unfold projectOfValues, projectContents, reimportedProject.
  cbn [map nth_error].
  rewrite !parseFloatAt_printed by assumption.
  rewrite !textOr_trimmed, !numberOr_twice.
  cbn [orEmpty].
  destruct (Project.status p), (Project.type p); reflexivity.
Qed.

(** Without product lines, [addProject] stores the project and, for a
    sale past the quotation stage, the signal. *)
Lemma addProject_plain : forall e r projectData w,
  Project.products projectData = [] ->
  Store.projects (db (addProject e r projectData w))
  = Project.stamped projectData (idOf e (ticks w))
      (nextProjectNumber (Store.projects r)) (nowISO e)
    :: Store.projects (db w)
  /\ ticks (addProject e r projectData w)
     = (if paysSignal projectData then S (S (ticks w)) else S (ticks w))
  /\ List.length (Store.transactions (db (addProject e r projectData w)))
     = (if paysSignal projectData then 1 else 0)
       + List.length (Store.transactions (db w)).
Proof.
  intros e r projectData w H. unfold addProject, paysSignal. rewrite H.
  destruct (Project.type projectData); [repeat split |].
  destruct (status_eqb (Project.status projectData) orcamento);
    repeat split.
Qed.

Lemma importProjectLine_row : forall nf e r p w,
  exportableProject nf p ->
  importProjectLine nf e r (join "," (projectRow nf p)) w
  = Imported
      (match clientOfProject (Store.clients r) p with
       | Some client => addProject e r (reimportedProject e client p) w
       | None => w
       end).
Proof.
  intros nf e r p w H.
  destruct (exported_line (projectRow nf p) (projectContents nf p))
    as [Htrim Hparse].
  - now apply projectRow_fields.
  - discriminate.
  - apply projectRow_trimStart.
  - change (last (projectRow nf p) EmptyString)
      with (numberText nf (numberOr (Project.profit_margin p) 0)).
    destruct H as [_ Hn]. unfold projectNumbers in Hn. numbers_of Hn.
    match goal with
    | Hm : printable nf (numberOr (Project.profit_margin p) 0) |- _ =>
        destruct Hm as [Hplain _]
    end.
    apply plainNumeral_spec in Hplain. apply endsSolid_plain; tauto.
  - unfold importProjectLine.
    rewrite Htrim, Hparse, projectRow_not_empty.
    change (List.length (map trim (projectContents nf p)) <? 8) with false.
    cbv beta iota.
    change (findClientNamed (Store.clients r)
              (nth_error (map trim (projectContents nf p)) 1))
      with (clientOfProject (Store.clients r) p).
    destruct (clientOfProject (Store.clients r) p) as [client |];
      [| reflexivity].
    now rewrite (projectOfValues_contents _ _ _ _ H).
Qed.

Lemma importProjects_lines : forall nf e r ps w,
  Forall (exportableProject nf) ps ->
  exists w',
    importLines (importProjectLine nf e r)
      (map (fun p => join "," (projectRow nf p)) ps) w = Imported w'
    /\ Store.projects (db w')
       = rev (stampProjectsFrom e (nextProjectNumber (Store.projects r))
                (ticks w) (reimportedProjects e (Store.clients r) ps))
         ++ Store.projects (db w)
    /\ List.length (Store.transactions (db w'))
       = List.length
           (filter paysSignal (reimportedProjects e (Store.clients r) ps))
         + List.length (Store.transactions (db w)).
Proof.
  intros nf e r ps. induction ps as [| p ps IH]; intros w H.
  - exists w. repeat split.
  - inversion H as [| x xs Hp Hps]; subst.
    cbn [map importLines reimportedProjects].
    rewrite (importProjectLine_row _ _ _ _ _ Hp).
    destruct (clientOfProject (Store.clients r) p) as [client |].
    + destruct (addProject_plain e r (reimportedProject e client p) w eq_refl)
        as (Hs1 & Hk1 & Ht1).
      destruct (IH (addProject e r (reimportedProject e client p) w) Hps)
        as (w' & Hw & Hs & Ht).
      exists w'. split; [exact Hw | split].
      * rewrite Hs, Hs1, Hk1. cbn [stampProjectsFrom rev].
        rewrite <- app_assoc. reflexivity.
      * rewrite Ht, Ht1. cbn [filter].
        destruct (paysSignal (reimportedProject e client p)); simpl; lia.
    + now apply IH.
Qed.

(** *** Records whose texts carry no surrounding white space *)

Lemma keptText_trimmed : forall s d,
  trim s = s -> keptText s d = if isEmpty s then d else s.
Proof. intros s d H. unfold keptText. now rewrite H. Qed.

Lemma keptOptional_trimmed : forall x,
  trim (orEmpty x) = orEmpty x -> keptOptional x = orUndefined x.
Proof.
  intros [s |] H; [| reflexivity]. cbn [orEmpty] in H.
  cbn [keptOptional orUndefined]. rewrite H. now destruct s.
Qed.

(** C8 (as amended): exporting a collection and importing the file adds
    records as follows, each with a new id and time stamp, the last
    exported one first.

    Clients whose exported texts hold no double quote and no line break:
    one client per exported client, with the original type and [fl_ativo],
    the other texts trimmed (optional ones absent when empty),
    [isento_icms] as a plain boolean, and the address street replaced by
    the street type and the street joined, under the street type "Rua".

    Transactions, products and projects whose exported texts hold no
    double quote and no line break and whose exported numbers print to a
    text without double quote, comma or white space that [parseFloat]
    reads back as the same number: one transaction per exported
    transaction, without [project_id]; one product per exported product,
    always with an empty list of components, a [sale_price] of 0 turned
    absent and an empty unit turned "UN"; one project per exported project
    whose trimmed client name is the name of a client of the importing
    store, attached to the first such client, without product lines, all
    under the next number of the importing store instead of their own,
    with absent costs turned 0 and an absent or zero margin turned 20,
    together with one more transaction per imported sale past the
    quotation stage.  Other texts come back trimmed (an empty date as
    today), types and statuses as they were, other numbers as they were
    (a zero as 0). *)
Theorem csv_round_trips : forall fuel nf e r s w,
  (forallb exportable (Store.clients s) = true ->
   importClientsCSV e (exportClientsCSV s) w
   = fold_left (fun w0 client => addClient e (reimported client) w0)
       (Store.clients s) w
   /\ Store.clients (db (importClientsCSV e (exportClientsCSV s) w))
      = rev (stampClientsFrom e (ticks w) (map reimported (Store.clients s)))
        ++ Store.clients (db w))
  /\ (forall client,
        Forall (fun t => trim t = t) (clientTexts client) ->
        Client.name (reimported client) = Client.name client
        /\ Client.type (reimported client) = Client.type client
        /\ Client.email (reimported client) = Client.email client
        /\ Client.phone (reimported client) = Client.phone client
        /\ Client.mobile (reimported client) = Client.mobile client
        /\ Client.fl_ativo (reimported client) = Client.fl_ativo client
        /\ Address.city (Client.address (reimported client))
           = Address.city (Client.address client)
        /\ Address.zipCode (Client.address (reimported client))
           = Address.zipCode (Client.address client)
        /\ Address.neighborhood (Client.address (reimported client))
           = Address.neighborhood (Client.address client)
        /\ Address.street (Client.address (reimported client))
           = (Address.streetType (Client.address client) ++ " "
              ++ Address.street (Client.address client))%string
        /\ Address.streetType (Client.address (reimported client))
           = "Rua"%string)
  /\ (Forall (exportableTransaction nf) (Store.transactions s) ->
      exists w',
        importTransactionsCSV nf e (exportTransactionsCSV nf s) w = Imported w'
        /\ Store.transactions (db w')
           = rev (stampTransactionsFrom e (ticks w)
                    (map (reimportedTransaction e) (Store.transactions s)))
             ++ Store.transactions (db w))
  /\ (forall t,
        Forall (fun x => trim x = x) (transactionTexts t) ->
        Transaction.type (reimportedTransaction e t) = Transaction.type t
        /\ Transaction.category (reimportedTransaction e t)
           = Transaction.category t
        /\ Transaction.description (reimportedTransaction e t)
           = Transaction.description t
        /\ (Transaction.amount (reimportedTransaction e t)
            == Transaction.amount t)%Q
        /\ Transaction.date (reimportedTransaction e t)
           = (if isEmpty (Transaction.date t) then today e
              else Transaction.date t)
        /\ Transaction.project_title (reimportedTransaction e t)
           = orUndefined (Transaction.project_title t)
        /\ Transaction.project_id (reimportedTransaction e t) = None)
  /\ (Forall (exportableProduct nf) (Store.products s) ->
      exists w',
        importProductsCSV fuel nf e r (exportProductsCSV nf s) w = Imported w'
        /\ Store.products (db w')
           = rev (stampProductsFrom e (ticks w)
                    (map reimportedProduct (Store.products s)))
             ++ Store.products (db w))
  /\ (forall p,
        Forall (fun x => trim x = x) (productTexts nf p) ->
        Product.name (reimportedProduct p) = Product.name p
        /\ Product.description (reimportedProduct p) = Product.description p
        /\ Product.category (reimportedProduct p) = Product.category p
        /\ Product.type (reimportedProduct p) = Product.type p
        /\ Product.unit (reimportedProduct p)
           = (if isEmpty (Product.unit p) then "UN"%string else Product.unit p)
        /\ (Product.cost_price (reimportedProduct p) == Product.cost_price p)%Q
        /\ (Product.current_stock (reimportedProduct p)
            == Product.current_stock p)%Q
        /\ (Product.min_stock (reimportedProduct p) == Product.min_stock p)%Q
        /\ Product.sale_price (reimportedProduct p)
           = numberOrUndefined (Product.sale_price p)
        /\ Product.components (reimportedProduct p) = [])
  /\ (Forall (exportableProject nf) (Store.projects s) ->
      exists w',
        importProjectsCSV nf e r (exportProjectsCSV nf s) w = Imported w'
        /\ Store.projects (db w')
           = rev (stampProjectsFrom e (nextProjectNumber (Store.projects r))
                    (ticks w)
                    (reimportedProjects e (Store.clients r) (Store.projects s)))
             ++ Store.projects (db w)
        /\ List.length (Store.transactions (db w'))
           = List.length
               (filter paysSignal
                  (reimportedProjects e (Store.clients r) (Store.projects s)))
             + List.length (Store.transactions (db w)))
  /\ (forall client p,
        Forall (fun x => trim x = x) (projectTexts p) ->
        Project.client_id (reimportedProject e client p) = Client.id client
        /\ Project.client_name (reimportedProject e client p)
           = Some (template (Project.client_name p))
        /\ Project.title (reimportedProject e client p) = Project.title p
        /\ Project.description (reimportedProject e client p)
           = Project.description p
        /\ Project.status (reimportedProject e client p) = Project.status p
        /\ Project.type (reimportedProject e client p) = Project.type p
        /\ (Project.budget (reimportedProject e client p)
            == Project.budget p)%Q
        /\ Project.start_date (reimportedProject e client p)
           = (if isEmpty (Project.start_date p) then today e
              else Project.start_date p)
        /\ Project.end_date (reimportedProject e client p)
           = (if isEmpty (Project.end_date p) then today e
              else Project.end_date p)
        /\ Project.materials_cost (reimportedProject e client p)
           = Some (numberOr (Project.materials_cost p) 0)
        /\ Project.labor_cost (reimportedProject e client p)
           = Some (numberOr (Project.labor_cost p) 0)
        /\ Project.profit_margin (reimportedProject e client p)
           = Some (numberOr (Project.profit_margin p) (20 # 1))
        /\ Project.products (reimportedProject e client p) = []).
Proof.
  intros fuel nf e r s w.
  split; [| split; [| split; [| split; [| split; [| split; [| split]]]]]].
  - intros H.
    assert (Himport :
      importClientsCSV e (exportClientsCSV s) w
      = fold_left (fun w0 client => addClient e (reimported client) w0)
          (Store.clients s) w).
    { unfold importClientsCSV, exportClientsCSV.
      rewrite (exported_lines Client.t clientRow);
        [now apply importClientsCSV_export | reflexivity |].
      intros c Hc. apply clientRow_one_line.
      rewrite forallb_forall in H. now apply H. }
    split; [exact Himport |].
    rewrite Himport.
    rewrite <- (fold_left_map World Client.t Client.t
                  (fun w0 c => addClient e c w0) reimported).
    apply addClients_clients.
  - intros client Ht. texts_of Ht.
    cbn [reimported Client.name Client.type Client.email Client.phone
         Client.mobile Client.fl_ativo Client.address Address.city
         Address.zipCode Address.neighborhood Address.street
         Address.streetType].
    repeat split; assumption.
  - intros H. unfold importTransactionsCSV, exportTransactionsCSV.
    rewrite (exported_lines Transaction.t (transactionRow nf));
      [| reflexivity |].
    + destruct (importTransactions_lines nf e (Store.transactions s) w H)
        as (w' & Hw & Hs & _).
      exists w'. now split.
    + intros t Ht. apply transactionRow_one_line.
      rewrite Forall_forall in H. now apply H.
  - intros t Ht. unfold transactionTexts in Ht. numbers_of Ht.
    cbn [reimportedTransaction Transaction.type Transaction.category
         Transaction.description Transaction.amount Transaction.date
         Transaction.project_title Transaction.project_id].
    repeat split; try assumption.
    + apply keptNumber_same.
    + now apply keptText_trimmed.
    + now apply keptOptional_trimmed.
  - intros H. unfold importProductsCSV, exportProductsCSV.
    rewrite (exported_lines Product.t (productRow nf)); [| reflexivity |].
    + destruct (importProducts_lines fuel nf e r (Store.products s) w H)
        as (w' & Hw & Hs & _).
      exists w'. now split.
    + intros p Hp. apply productRow_one_line.
      rewrite Forall_forall in H. now apply H.
  - intros p Ht. unfold productTexts in Ht. numbers_of Ht.
    cbn [reimportedProduct Product.name Product.description Product.category
         Product.type Product.unit Product.cost_price Product.current_stock
         Product.min_stock Product.sale_price Product.components].
    repeat split; try assumption; try apply keptNumber_same.
    now apply keptText_trimmed.
  - intros H. unfold importProjectsCSV, exportProjectsCSV.
    rewrite (exported_lines Project.t (projectRow nf)); [| reflexivity |].
    + now apply importProjects_lines.
    + intros p Hp. apply projectRow_one_line.
      rewrite Forall_forall in H. now apply H.
  - intros client p Ht. unfold projectTexts in Ht. numbers_of Ht.
    cbn [reimportedProject Project.client_id Project.client_name
         Project.title Project.description Project.status Project.type
         Project.budget Project.start_date Project.end_date
         Project.materials_cost Project.labor_cost Project.profit_margin
         Project.products].
    repeat split; try assumption; try apply keptNumber_same;
      try (now apply keptText_trimmed).
    now f_equal.
Qed.

Lemma csv_round_trips_witness :
  (forallb exportable (Store.clients officeStore) = true
   /\ Forall (exportableTransaction wholeNumerals)
        (Store.transactions officeStore)
   /\ Forall (exportableProduct wholeNumerals) (Store.products officeStore)
   /\ Forall (exportableProject wholeNumerals) (Store.projects officeStore))
  /\ Store.clients
       (db (importClientsCSV sampleEnv (exportClientsCSV officeStore)
              emptyWorld))
     = rev (stampClientsFrom sampleEnv 0
              (map reimported (Store.clients officeStore)))
  /\ (exists w',
        importTransactionsCSV wholeNumerals sampleEnv
          (exportTransactionsCSV wholeNumerals officeStore) emptyWorld
        = Imported w'
        /\ Store.transactions (db w')
           = rev (stampTransactionsFrom sampleEnv 0
                    (map (reimportedTransaction sampleEnv)
                       (Store.transactions officeStore))))
  /\ (exists w',
        importProductsCSV 0 wholeNumerals sampleEnv officeStore
          (exportProductsCSV wholeNumerals officeStore) emptyWorld
        = Imported w'
        /\ Store.products (db w')
           = rev (stampProductsFrom sampleEnv 0
                    (map reimportedProduct (Store.products officeStore))))
  /\ (exists w',
        importProjectsCSV wholeNumerals sampleEnv officeStore
          (exportProjectsCSV wholeNumerals officeStore) emptyWorld
        = Imported w'
        /\ map (fun p => (Project.number p, Project.client_id p,
                          Project.title p, Project.budget p))
             (Store.projects (db w'))
           = [(2%Z, "c-1"%string, "Mesa de jantar"%string, (1000 # 1)%Q)]
        /\ List.length (Store.transactions (db w')) = 1).
Proof.
  assert (Hc : forallb exportable (Store.clients officeStore) = true)
    by reflexivity.
  assert (Ht : Forall (exportableTransaction wholeNumerals)
                 (Store.transactions officeStore))
    by (repeat constructor).
  assert (Hp : Forall (exportableProduct wholeNumerals)
                 (Store.products officeStore))
    by (repeat constructor).
  assert (Hj : Forall (exportableProject wholeNumerals)
                 (Store.projects officeStore))
    by (repeat constructor).
  destruct (csv_round_trips 0 wholeNumerals sampleEnv officeStore officeStore
              emptyWorld) as (C & _ & T & _ & P & _ & J & _).
  split; [repeat split; assumption |].
  split; [| split; [| split]].
  - destruct (C Hc) as [_ Hs]. rewrite Hs. apply app_nil_r.
  - destruct (T Ht) as (w' & Hw & Hs). exists w'. split; [exact Hw |].
    rewrite Hs. apply app_nil_r.
  - destruct (P Hp) as (w' & Hw & Hs). exists w'. split; [exact Hw |].
    rewrite Hs. apply app_nil_r.
  - destruct (J Hj) as (w' & Hw & Hs & Hn). exists w'.
    split; [exact Hw | split].
    + rewrite Hs. reflexivity.
    + rewrite Hn. reflexivity.
Defined.

(** C8 (as stated) fails: the export writes the street type and the street
    into one column, and the import reads that column back as the street. *)
Lemma clients_csv_street_changes :
  map (fun c => Address.street (Client.address c)) (Store.clients clientStore)
  = ["Exemplo"%string]
  /\ map (fun c => (Client.name c, Address.street (Client.address c),
                    Address.state (Client.address c)))
         (Store.clients
            (db (importClientsCSV sampleEnv (exportClientsCSV clientStore)
                   emptyWorld)))
     = [("Joao Silva"%string, "Rua Exemplo"%string, EmptyString)].
Proof. split; vm_compute; reflexivity. Qed.

(** * Further properties *)

(** ** The cycle check on any catalog *)

Lemma anyM_sound : forall (A : Type) (test : A -> option bool) (P : A -> Prop)
    (l : list A) (b : bool),
  (forall x v, In x l -> test x = Some v -> (v = true <-> P x)) ->
  anyM test l = Some b ->
  (b = true <-> exists x, In x l /\ P x).
Proof.
  intros A test P l b. induction l as [| a l IH]; intros H Hb; simpl in Hb.
  - injection Hb as <-. split; [discriminate | intros [x [[] _]]].
  - destruct (test a) as [[|]|] eqn:Ea; try discriminate.
    + injection Hb as <-. split; [| reflexivity]. intros _.
      exists a. split; [now left |].
      now apply (H a true (or_introl eq_refl) Ea).
    + assert (IH' : b = true <-> exists x, In x l /\ P x).
      { apply IH; [| assumption]. intros x v Hx. apply H. now right. }
      rewrite IH'. split.
      * intros [x [Hx Px]]. exists x. split; [now right | assumption].
      * intros [x [[Hx | Hx] Px]].
        -- subst x. apply (H a false (or_introl eq_refl) Ea) in Px. discriminate.
        -- now exists x.
Qed.

Lemma check_answer_right :
  forall fuel products productId componentId b,
    checkCircularReference fuel products productId componentId = Some b ->
    (b = true <-> reaches products componentId productId).
Proof.
  induction fuel as [| n IH]; intros products productId componentId b H;
    [discriminate |].
  simpl in H. destruct (String.eqb productId componentId) eqn:Eq.
  - apply String.eqb_eq in Eq. subst componentId. injection H as <-.
    split; [intros _; constructor | reflexivity].
  - apply String.eqb_neq in Eq.
    destruct (findProduct products componentId) as [p|] eqn:Ef.
    + apply anyM_sound
        with (P := fun comp => reaches products
                                 (ProductComponent.product_id comp) productId)
        in H.
      * rewrite H. split.
        -- intros [c [Hc Hr]].
           apply reaches_step with (y := ProductComponent.product_id c);
             [| assumption].
           exists p. split; [assumption | now apply in_map].
        -- intros Hr. apply reaches_inv in Hr.
           destruct Hr as [Hr | [y [[p' [Hf' Hy]] Hr]]]; [congruence |].
           rewrite Ef in Hf'. injection Hf' as <-.
           apply in_map_iff in Hy. destruct Hy as [c [Hc Hin]]. subst y.
           now exists c.
      * intros c v _ Hv. now apply IH in Hv.
    + injection H as <-. split; [discriminate |].
      intros Hr. apply reaches_inv in Hr.
      destruct Hr as [Hr | [y [[p' [Hf' _]] _]]]; congruence.
Qed.

(** X1: whatever the catalog, cycles included, an answer of
    [checkCircularReference] is right whenever the call returns: [true]
    exactly when the component is the product itself or reaches it. *)
Theorem checkCircularReference_sound :
  forall fuel products productId componentId b,
    checkCircularReference fuel products productId componentId = Some b ->
    (b = true <-> reaches products componentId productId).
Proof.
  intros fuel products productId componentId b H.
  now apply check_answer_right with (fuel := fuel).
Qed.

Lemma checkCircularReference_sound_witness :
  checkCircularReference 2 loopCatalog "X" "Y" = Some true
  /\ (true = true <-> reaches loopCatalog "Y" "X").
Proof.
  split; [reflexivity |].
  apply (checkCircularReference_sound 2 loopCatalog "X" "Y" true).
  reflexivity.
Defined.

(** ** Updating a product *)

Lemma common_check_fuel : forall products productId components,
  (forall c, In c components ->
     descendsFinitely products (ProductComponent.product_id c)) ->
  exists fuel, forall fuel', fuel <= fuel' ->
    forall c, In c components ->
      exists b,
        checkCircularReference fuel' products productId
          (ProductComponent.product_id c) = Some b
        /\ (b = true <-> reaches products (ProductComponent.product_id c) productId).
Proof.
  intros products productId components.
  induction components as [| c cs IH]; intros H.
  - exists 0. intros fuel' _ c [].
  - destruct IH as [m Hm]; [intros c' Hc'; apply H; now right |].
    destruct (descends_boundedDepth products _ (H c (or_introl eq_refl)))
      as [n Hn].
    exists (Nat.max n m). intros fuel' Hle c' [<- | Hc'].
    + apply checkCircularReference_bounded.
      apply boundedDepth_mono with (n := n); [assumption | lia].
    + apply Hm; [lia | assumption].
Qed.

Lemma anyCircular_decides : forall r productId components,
  (forall c, In c components ->
     descendsFinitely (Store.products r) (ProductComponent.product_id c)) ->
  exists fuel, forall fuel', fuel <= fuel' ->
    exists b,
      anyCircular fuel' r productId components = Some b
      /\ (b = true <->
          exists c, In c components
                    /\ reaches (Store.products r)
                         (ProductComponent.product_id c) productId).
Proof.
  intros r productId components H.
  destruct (common_check_fuel (Store.products r) productId components H)
    as [fuel Hfuel].
  exists fuel. intros fuel' Hle. unfold anyCircular.
  apply anyM_spec with
    (P := fun c => reaches (Store.products r)
                     (ProductComponent.product_id c) productId).
  intros c Hc. now apply Hfuel.
Qed.

(** X2: when the chains of component edges from the components of the new
    record all end, [updateProduct] returns: it throws the circular
    reference error exactly when one of those components is the product
    itself or reaches it, and otherwise writes the record over the products
    of its id. *)
Theorem updateProduct_decides : forall r product w,
  (forall c, In c (Product.components product) ->
     descendsFinitely (Store.products r) (ProductComponent.product_id c)) ->
  exists fuel, forall fuel', fuel <= fuel' ->
    ((exists c, In c (Product.components product)
                /\ reaches (Store.products r)
                     (ProductComponent.product_id c) (Product.id product)) ->
     updateProduct fuel' r product w = Threw CircularReference)
    /\ ((forall c, In c (Product.components product) ->
           ~ reaches (Store.products r)
               (ProductComponent.product_id c) (Product.id product)) ->
        updateProduct fuel' r product w
        = Done (setProducts (replaceProduct product) w)).
Proof.
  intros r product w H.
  destruct (anyCircular_decides r (Product.id product)
              (Product.components product) H) as [fuel Hfuel].
  exists fuel. intros fuel' Hle. destruct (Hfuel fuel' Hle) as [b [Hb Hiff]].
  unfold updateProduct.
  destruct (Product.components product) as [| c0 cs] eqn:Ec.
  - split.
    + intros [c [[] _]].
    + intros _. reflexivity.
  - rewrite Hb. split.
    + intros Hex. apply Hiff in Hex. now rewrite Hex.
    + intros Hno. destruct b; [| reflexivity].
      destruct (proj1 Hiff eq_refl) as [c [Hc Hr]]. now apply Hno in Hr.
Qed.

Lemma updateProduct_decides_witness :
  exists fuel, forall fuel', fuel <= fuel' ->
    ((exists c, In c (Product.components productALooping)
                /\ reaches tableCatalog
                     (ProductComponent.product_id c)
                     (Product.id productALooping)) ->
     updateProduct fuel' (db tableWorld) productALooping tableWorld
     = Threw CircularReference)
    /\ ((forall c, In c (Product.components productALooping) ->
           ~ reaches tableCatalog
               (ProductComponent.product_id c) (Product.id productALooping)) ->
        updateProduct fuel' (db tableWorld) productALooping tableWorld
        = Done (setProducts (replaceProduct productALooping) tableWorld)).
Proof.
  apply (updateProduct_decides (db tableWorld) productALooping tableWorld).
  intros c Hc. apply boundedDepth_descends with (n := 3).
  destruct Hc as [<- | []]. reflexivity.
Defined.

Lemma findProduct_replace_other : forall product products x,
  x <> Product.id product ->
  findProduct (replaceProduct product products) x = findProduct products x.
Proof.
  intros product products x Hne. unfold findProduct, replaceProduct.
  induction products as [| p ps IH]; [reflexivity |].
  cbn [map find].
  destruct (String.eqb (Product.id p) (Product.id product)) eqn:E.
  - apply String.eqb_eq in E.
    assert (E1 : String.eqb (Product.id product) x = false)
      by (apply String.eqb_neq; congruence).
    assert (E2 : String.eqb (Product.id p) x = false)
      by (apply String.eqb_neq; congruence).
    now rewrite E1, E2.
  - destruct (String.eqb (Product.id p) x); [reflexivity | assumption].
Qed.

Lemma findProduct_replace_same : forall product products p,
  findProduct (replaceProduct product products) (Product.id product) = Some p ->
  p = product.
Proof.
  intros product products p. unfold findProduct, replaceProduct.
  induction products as [| q ps IH]; [discriminate |].
  cbn [map find].
  destruct (String.eqb (Product.id q) (Product.id product)) eqn:E.
  - rewrite String.eqb_refl. now intros [= <-].
  - rewrite E. assumption.
Qed.

Lemma edge_replace_other : forall product products x y,
  x <> Product.id product ->
  edge (replaceProduct product products) x y <-> edge products x y.
Proof.
  intros product products x y Hne. unfold edge.
  now rewrite (findProduct_replace_other product products x Hne).
Qed.

Lemma replace_keeps_descent : forall product products,
  wellFounded products ->
  (forall c, In c (Product.components product) ->
     ~ reaches products (ProductComponent.product_id c) (Product.id product)) ->
  wellFounded (replaceProduct product products).
Proof.
  intros product products Hwf Hno.
  assert (HA : forall x, descendsFinitely products x ->
                 ~ reaches products x (Product.id product) ->
                 descendsFinitely (replaceProduct product products) x).
  { intros x Hacc. induction Hacc as [x _ IH]. intros Hnr.
    assert (Hne : x <> Product.id product).
    { intros ->. apply Hnr. constructor. }
    constructor. intros y Hy. unfold componentOf in Hy.
    apply (edge_replace_other product products x y Hne) in Hy.
    apply IH; [assumption |]. intros Hr. apply Hnr.
    now apply reaches_step with (y := y). }
  assert (HB : descendsFinitely (replaceProduct product products)
                 (Product.id product)).
  { constructor. intros y [p [Hf Hin]].
    apply findProduct_replace_same in Hf. subst p.
    apply in_map_iff in Hin. destruct Hin as [c [<- Hc]].
    apply HA; [apply Hwf | now apply Hno]. }
  intros x. specialize (Hwf x). induction Hwf as [x _ IH].
  destruct (string_dec x (Product.id product)) as [-> | Hne]; [exact HB |].
  constructor. intros y Hy. unfold componentOf in Hy.
  apply (edge_replace_other product products x y Hne) in Hy.
  now apply IH.
Qed.

(** X3: an update that [updateProduct] accepts keeps the component graph
    free of endless chains (on a finite catalog: acyclic). *)
Theorem updateProduct_keeps_well_founded : forall fuel product w w1,
  wellFounded (Store.products (db w)) ->
  updateProduct fuel (db w) product w = Done w1 ->
  wellFounded (Store.products (db w1)).
Proof.
  intros fuel product w w1 Hwf Hdone.
  destruct (updateProduct_done _ _ _ _ _ Hdone) as [Hp _].
  rewrite Hp. apply replace_keeps_descent; [assumption |].
  intros c Hc Hr. unfold updateProduct in Hdone.
  destruct (Product.components product) as [| c0 cs] eqn:Ec; [destruct Hc |].
  destruct (anyCircular fuel (db w) (Product.id product) (c0 :: cs))
    as [[|]|] eqn:Ea; try discriminate.
  unfold anyCircular in Ea.
  apply anyM_sound
    with (P := fun comp => reaches (Store.products (db w))
                             (ProductComponent.product_id comp)
                             (Product.id product)) in Ea.
  - assert (Hex : exists x, In x (c0 :: cs)
                            /\ reaches (Store.products (db w))
                                 (ProductComponent.product_id x)
                                 (Product.id product)) by now exists c.
    apply Ea in Hex. discriminate.
  - intros x v _ Hv. now apply check_answer_right in Hv.
Qed.

Lemma tableCatalog_well_founded : wellFounded tableCatalog.
Proof.
  intros x. apply acyclic_descends.
  apply rankedb_acyclic with (rank := tableRank). reflexivity.
Qed.

Lemma updateProduct_keeps_well_founded_witness :
  updateProduct 3 (db tableWorld) productBThree tableWorld
  = Done (setProducts (replaceProduct productBThree) tableWorld)
  /\ wellFounded
       (Store.products (db (setProducts (replaceProduct productBThree) tableWorld))).
Proof.
  split; [reflexivity |].
  apply (updateProduct_keeps_well_founded 3 productBThree tableWorld
           (setProducts (replaceProduct productBThree) tableWorld)
           tableCatalog_well_founded eq_refl).
Defined.

(** ** Creating a product *)

Lemma findProduct_cons_other : forall p products x,
  x <> Product.id p -> findProduct (p :: products) x = findProduct products x.
Proof.
  intros p products x Hne. unfold findProduct. cbn [find].
  assert (E : String.eqb (Product.id p) x = false)
    by (apply String.eqb_neq; congruence).
  now rewrite E.
Qed.

Lemma cons_keeps_descent : forall p products,
  wellFounded products ->
  freshIdb (Product.id p) products = true ->
  ~ In (Product.id p)
       (map ProductComponent.product_id (Product.components p)) ->
  wellFounded (p :: products).
Proof.
  intros p products Hwf Hfresh Hself.
  destruct (freshIdb_spec _ _ Hfresh) as [_ Hnoedge].
  assert (HA : forall x, descendsFinitely products x ->
                 x <> Product.id p -> descendsFinitely (p :: products) x).
  { intros x Hacc. induction Hacc as [x _ IH]. intros Hne.
    constructor. intros y [q [Hf Hin]].
    rewrite (findProduct_cons_other p products x Hne) in Hf.
    assert (He : edge products x y) by now exists q.
    apply IH; [assumption |]. intros ->. now apply (Hnoedge x). }
  intros x. destruct (string_dec x (Product.id p)) as [-> | Hne].
  - constructor. intros y [q [Hf Hin]].
    unfold findProduct in Hf. cbn [find] in Hf.
    rewrite String.eqb_refl in Hf. injection Hf as <-.
    apply HA; [apply Hwf |]. intros ->. contradiction.
  - now apply HA.
Qed.

(** X4: the product that [addProduct] inserts keeps the component graph
    free of endless chains, provided its new id is carried and referenced
    by no product of the catalog and is not among its own components. *)
Theorem addProduct_keeps_well_founded : forall fuel e productData w w1,
  wellFounded (Store.products (db w)) ->
  addProduct fuel e (db w) productData w = Done w1 ->
  exists i,
    Store.products (db w1)
    = Product.stamped productData i (nowISO e) :: Store.products (db w)
    /\ (freshIdb i (Store.products (db w)) = true ->
        ~ In i (map ProductComponent.product_id
                  (Product.components productData)) ->
        wellFounded (Store.products (db w1))).
Proof.
  intros fuel e productData w w1 Hwf Hdone.
  destruct (addProduct_done _ _ _ _ _ _ Hdone) as [i [Hp _]].
  exists i. split; [assumption |]. intros Hfresh Hself. rewrite Hp.
  apply cons_keeps_descent; assumption.
Qed.

Lemma addProduct_keeps_well_founded_witness :
  addProduct 4 sampleEnv (db tableWorld) productSet tableWorld
  = Done (setProducts
            (fun prev => Product.stamped productSet "id-1" (nowISO sampleEnv)
                         :: prev)
            {| db := db tableWorld; ticks := 2 |})
  /\ exists i,
       Store.products
         (db (setProducts
                (fun prev => Product.stamped productSet "id-1" (nowISO sampleEnv)
                             :: prev)
                {| db := db tableWorld; ticks := 2 |}))
       = Product.stamped productSet i (nowISO sampleEnv)
         :: Store.products (db tableWorld)
       /\ (freshIdb i (Store.products (db tableWorld)) = true ->
           ~ In i (map ProductComponent.product_id
                     (Product.components productSet)) ->
           wellFounded
             (Store.products
                (db (setProducts
                       (fun prev =>
                          Product.stamped productSet "id-1" (nowISO sampleEnv)
                          :: prev)
                       {| db := db tableWorld; ticks := 2 |})))).
Proof.
  split; [reflexivity |].
  apply (addProduct_keeps_well_founded 4 sampleEnv productSet tableWorld _
           tableCatalog_well_founded eq_refl).
Defined.

(** ** Deleting a product *)

Lemma existsb_false_forall : forall (A : Type) (f : A -> bool) (l : list A),
  existsb f l = false <-> forall x, In x l -> f x = false.
Proof.
  intros A f l. induction l as [| a l IH]; simpl.
  - split; [intros _ x [] | reflexivity].
  - rewrite orb_false_iff, IH. split.
    + intros [Ha Hl] x [<- | Hx]; auto.
    + intros H. split; [apply H; now left | intros x Hx; apply H; now right].
Qed.

(** X5: [deleteProduct] is refused exactly when a product of the catalog
    lists the id as a component; when it goes through, it removes every
    product of that id, and a catalog in which every component reference
    resolves is still one afterwards. *)
Theorem deleteProduct_referential : forall i w,
  ((exists p, In p (Store.products (db w))
              /\ In i (map ProductComponent.product_id (Product.components p))) ->
   deleteProduct (db w) i w = Threw ProductInUse)
  /\ ((forall p, In p (Store.products (db w)) ->
         ~ In i (map ProductComponent.product_id (Product.components p))) ->
      exists w1,
        deleteProduct (db w) i w = Done w1
        /\ ~ In i (map Product.id (Store.products (db w1)))
        /\ (forall p, In p (Store.products (db w)) -> Product.id p <> i ->
              In p (Store.products (db w1)))
        /\ (closedCatalog (Store.products (db w)) = true ->
            closedCatalog (Store.products (db w1)) = true)).
Proof.
  intros i w. unfold deleteProduct. split.
  - intros [p [Hp Hin]].
    assert (Hused : existsb
              (fun p => existsb (fun c => String.eqb
                                            (ProductComponent.product_id c) i)
                                (Product.components p))
              (Store.products (db w)) = true).
    { apply existsb_exists. exists p. split; [assumption |].
      apply in_map_iff in Hin. destruct Hin as [c [Hc Hin]].
      apply existsb_exists. exists c. split; [assumption |].
      now apply String.eqb_eq. }
    now rewrite Hused.
  - intros Hno.
    assert (Hunused : existsb
              (fun p => existsb (fun c => String.eqb
                                            (ProductComponent.product_id c) i)
                                (Product.components p))
              (Store.products (db w)) = false).
    { apply existsb_false_forall. intros p Hp.
      apply existsb_false_forall. intros c Hc.
      apply String.eqb_neq. intros Heq. apply (Hno p Hp).
      rewrite <- Heq. now apply in_map. }
    rewrite Hunused. eexists. split; [reflexivity |].
    cbn [setProducts db Store.products]. split; [| split].
    + intros Hin. apply in_map_iff in Hin. destruct Hin as [p [Hid Hp]].
      apply filter_In in Hp. destruct Hp as [_ Hp].
      rewrite Hid, String.eqb_refl in Hp. discriminate.
    + intros p Hp Hne. apply filter_In. split; [assumption |].
      apply negb_true_iff. now apply String.eqb_neq.
    + intros Hclosed. unfold closedCatalog in *.
      rewrite forallb_forall in *. intros p Hp.
      apply filter_In in Hp. destruct Hp as [Hp _].
      specialize (Hclosed p Hp). unfold referencesExisting in *.
      rewrite forallb_forall in *. intros c Hc.
      specialize (Hclosed c Hc). apply existsb_exists in Hclosed.
      destruct Hclosed as [q [Hq Hid]]. apply existsb_exists.
      exists q. split; [| assumption]. apply filter_In. split; [assumption |].
      apply negb_true_iff. apply String.eqb_neq. intros Heq.
      apply String.eqb_eq in Hid. apply (Hno p Hp).
      rewrite <- Heq, Hid. now apply in_map.
Qed.

(** ** The cost of a product *)

Lemma sumCosts_nonneg : forall (cost : string -> option Q) l acc v,
  (forall i x, cost i = Some x -> (0 <= x)%Q) ->
  (forall c, In c l -> (0 <= ProductComponent.quantity c)%Q) ->
  (0 <= acc)%Q ->
  sumCosts cost acc l = Some v -> (0 <= v)%Q.
Proof.
  intros cost l. induction l as [| c l IH]; intros acc v Hcost Hq Hacc H;
    simpl in H.
  - now injection H as <-.
  - destruct (cost (ProductComponent.product_id c)) as [x|] eqn:E;
      [| discriminate].
    apply IH in H; [assumption | assumption | |].
    + intros c' Hc'. apply Hq. now right.
    + assert (H1 : (0 <= x)%Q) by now apply (Hcost _ _ E).
      assert (H2 : (0 <= ProductComponent.quantity c)%Q)
        by (apply Hq; now left).
      pose proof (Qmult_le_0_compat _ _ H1 H2) as H3.
      change 0%Q with (0 + 0)%Q. now apply Qplus_le_compat.
Qed.

(** X6: on a catalog without negative stored costs or component
    quantities, a cost that [calculateProductCost] returns is never
    negative. *)
Theorem calculateProductCost_nonneg : forall fuel products productId v,
  nonNegativeCatalog products = true ->
  calculateProductCost fuel products productId = Some v ->
  (0 <= v)%Q.
Proof.
  induction fuel as [| n IH]; intros products productId v Hnn H;
    [discriminate |].
  simpl in H. destruct (findProduct products productId) as [p|] eqn:Ef.
  - apply findProduct_some in Ef. destruct Ef as [Hp _].
    unfold nonNegativeCatalog in Hnn. rewrite forallb_forall in Hnn.
    pose proof (Hnn p Hp) as Hpp. apply andb_true_iff in Hpp.
    destruct Hpp as [Hc Hq]. rewrite forallb_forall in Hq.
    destruct (is_material_bruto (Product.type p)).
    + injection H as <-. now apply Qle_bool_iff.
    + apply sumCosts_nonneg in H; [assumption | | | apply Qle_refl].
      * intros i x Hx. apply (IH products i x); [| assumption].
        unfold nonNegativeCatalog. now rewrite forallb_forall.
      * intros c Hc'. apply Qle_bool_iff. now apply Hq.
  - injection H as <-. apply Qle_refl.
Qed.

Lemma calculateProductCost_nonneg_witness :
  calculateProductCost 3 tableCatalog "T" = Some (240 # 1)%Q
  /\ (0 <= 240 # 1)%Q.
Proof.
  split; [reflexivity |].
  apply (calculateProductCost_nonneg 3 tableCatalog "T" (240 # 1)%Q);
    reflexivity.
Defined.

(** ** Deleting a project *)

Lemma opt_is_false : forall (x : option string) i,
  opt_is x i = false <-> x <> Some i.
Proof.
  intros [y |] i; simpl.
  - rewrite String.eqb_neq. split; intros H; congruence.
  - split; [discriminate | reflexivity].
Qed.

(** X7: after [deleteProject] the store holds exactly the projects of
    another id and the transactions and stock movements that do not refer
    to the deleted id; clients and products, stock counters included, are
    as before. *)
Theorem deleteProject_cascade : forall i w,
  (forall p, In p (Store.projects (db (deleteProject i w)))
             <-> In p (Store.projects (db w)) /\ Project.id p <> i)
  /\ (forall t, In t (Store.transactions (db (deleteProject i w)))
                <-> In t (Store.transactions (db w))
                    /\ Transaction.project_id t <> Some i)
  /\ (forall m, In m (Store.stockMovements (db (deleteProject i w)))
                <-> In m (Store.stockMovements (db w))
                    /\ StockMovement.project_id m <> Some i)
  /\ Store.clients (db (deleteProject i w)) = Store.clients (db w)
  /\ Store.products (db (deleteProject i w)) = Store.products (db w).
Proof.
  intros i w. unfold deleteProject.
  cbn [setProjects setTransactions setStockMovements db Store.projects
       Store.transactions Store.stockMovements Store.clients Store.products].
  split; [| split; [| split; [| split; reflexivity]]].
  - intros p. rewrite filter_In, negb_true_iff, String.eqb_neq. reflexivity.
  - intros t. rewrite filter_In, negb_true_iff, opt_is_false. reflexivity.
  - intros m. rewrite filter_In, negb_true_iff, opt_is_false. reflexivity.
Qed.

(** ** Creating a project *)

Lemma consumeComponents_transactions : forall e projectId item components w,
  Store.transactions (db (consumeComponents e projectId item components w))
  = Store.transactions (db w).
Proof.
  intros e projectId item components.
  induction components as [| c cs IH]; intros w; simpl; [reflexivity |].
  now rewrite IH.
Qed.

Lemma processProjectStockMovement_transactions : forall e r projectId items w,
  Store.transactions (db (processProjectStockMovement e r projectId items w))
  = Store.transactions (db w).
Proof.
  intros e r projectId items.
  induction items as [| item items IH]; intros w; simpl; [reflexivity |].
  rewrite IH.
  destruct (findProduct (Store.products r) (ProjectProduct.product_id item))
    as [p|]; [| reflexivity].
  destruct (negb (is_material_bruto (Product.type p))); [| reflexivity].
  now rewrite consumeComponents_transactions.
Qed.

Lemma addProject_sale : forall e r projectData w,
  Project.type projectData = venda ->
  Project.status projectData <> orcamento ->
  Store.transactions (db (addProject e r projectData w))
  = Transaction.stamped
      (signalPayment e (idOf e (ticks w))
         (nextProjectNumber (Store.projects r)) projectData)
      (idOf e (S (ticks w))) (nowISO e)
    :: Store.transactions (db w)
  /\ Store.stockMovements (db (addProject e r projectData w))
     = rev (stampFrom e (S (S (ticks w)))
              (flat_map (expectedLineMovements e (Store.products r)
                           (idOf e (ticks w)))
                        (Project.products projectData)))
       ++ Store.stockMovements (db w).
Proof.
  intros e r projectData w Ht Hs. unfold addProject, generateId.
  cbv beta iota zeta. rewrite Ht.
  destruct (status_eqb (Project.status projectData) orcamento) eqn:E.
  - apply status_eqb_eq in E. contradiction.
  - cbn [negb]. destruct (Project.products projectData) as [| item items] eqn:Ep.
    + split; reflexivity.
    + rewrite processProjectStockMovement_transactions,
        processProjectStockMovement_ledger. split; reflexivity.
Qed.

Lemma addProject_quiet : forall e r projectData w,
  Project.type projectData = tipo_orcamento
  \/ Project.status projectData = orcamento ->
  Store.transactions (db (addProject e r projectData w))
  = Store.transactions (db w)
  /\ Store.stockMovements (db (addProject e r projectData w))
     = Store.stockMovements (db w)
  /\ Store.products (db (addProject e r projectData w))
     = Store.products (db w).
Proof.
  intros e r projectData w H. unfold addProject, generateId.
  cbv beta iota zeta.
  destruct (Project.type projectData); [repeat split |].
  destruct H as [H | H]; [discriminate |]. rewrite H. repeat split.
Qed.

(** X8: a sale created with a status other than [orcamento] adds exactly
    one transaction, an [entrada] of half the budget tagged with the id of
    the new project, and the stock movements of its line items; a quote, or
    a project created in status [orcamento], adds no transaction and no
    stock movement and leaves the products alone. *)
Theorem addProject_side_effects : forall e r projectData w,
  (Project.type projectData = venda ->
   Project.status projectData <> orcamento ->
   exists t,
     Store.transactions (db (addProject e r projectData w))
     = t :: Store.transactions (db w)
     /\ Transaction.type t = entrada
     /\ Transaction.amount t = (Project.budget projectData * half)%Q
     /\ Transaction.project_id t = Some (idOf e (ticks w))
     /\ map Project.id (Store.projects (db (addProject e r projectData w)))
        = idOf e (ticks w) :: map Project.id (Store.projects (db w))
     /\ Store.stockMovements (db (addProject e r projectData w))
        = rev (stampFrom e (S (S (ticks w)))
                 (flat_map (expectedLineMovements e (Store.products r)
                              (idOf e (ticks w)))
                           (Project.products projectData)))
          ++ Store.stockMovements (db w))
  /\ (Project.type projectData = tipo_orcamento
      \/ Project.status projectData = orcamento ->
      Store.transactions (db (addProject e r projectData w))
      = Store.transactions (db w)
      /\ Store.stockMovements (db (addProject e r projectData w))
         = Store.stockMovements (db w)
      /\ Store.products (db (addProject e r projectData w))
         = Store.products (db w)).
Proof.
  intros e r projectData w. split.
  - intros Ht Hs. destruct (addProject_sale e r projectData w Ht Hs) as [H1 H2].
    eexists. split; [exact H1 |]. repeat split.
    + now rewrite addProject_projects.
    + exact H2.
  - apply addProject_quiet.
Qed.

(** *** Adding and deleting again *)

Lemma filter_all : forall (A : Type) (f : A -> bool) (l : list A),
  (forall x, In x l -> f x = true) -> filter f l = l.
Proof.
  intros A f l. induction l as [| a l IH]; intros H; [reflexivity |].
  simpl. rewrite (H a (or_introl eq_refl)). f_equal. apply IH.
  intros x Hx. apply H. now right.
Qed.

Lemma filter_none : forall (A : Type) (f : A -> bool) (l : list A),
  (forall x, In x l -> f x = false) -> filter f l = [].
Proof.
  intros A f l. induction l as [| a l IH]; intros H; [reflexivity |].
  simpl. rewrite (H a (or_introl eq_refl)). apply IH.
  intros x Hx. apply H. now right.
Qed.

Lemma stampFrom_project_id : forall e k ms i m,
  (forall x, In x ms -> StockMovement.project_id x = Some i) ->
  In m (stampFrom e k ms) -> StockMovement.project_id m = Some i.
Proof.
  intros e k ms. revert k. induction ms as [| x ms IH]; intros k i m H Hin.
  - destruct Hin.
  - destruct Hin as [<- | Hin].
    + cbn [StockMovement.stamped StockMovement.project_id].
      apply H. now left.
    + apply (IH (S k)); [| assumption]. intros y Hy. apply H. now right.
Qed.

Lemma expectedLineMovements_project_id : forall e catalog i item m,
  In m (expectedLineMovements e catalog i item) ->
  StockMovement.project_id m = Some i.
Proof.
  intros e catalog i item m. unfold expectedLineMovements.
  destruct (findProduct catalog (ProjectProduct.product_id item)) as [p|];
    [| intros []].
  intros [<- | Hin]; [reflexivity |].
  destruct (Product.type p); try destruct Hin;
    apply in_map_iff in Hin; destruct Hin as [c [<- _]]; reflexivity.
Qed.

Lemma unusedProjectId_spec : forall i s,
  unusedProjectId i s = true ->
  (forall p, In p (Store.projects s) -> String.eqb (Project.id p) i = false)
  /\ (forall t, In t (Store.transactions s) ->
        opt_is (Transaction.project_id t) i = false)
  /\ (forall m, In m (Store.stockMovements s) ->
        opt_is (StockMovement.project_id m) i = false).
Proof.
  intros i s H. unfold unusedProjectId in H.
  apply andb_true_iff in H. destruct H as [H H3].
  apply andb_true_iff in H. destruct H as [H1 H2].
  apply negb_true_iff in H1, H2, H3.
  repeat split; now apply existsb_false_forall.
Qed.

(** X9: creating a project under an id that nothing in the store uses and
    deleting it again gives back the projects, transactions and stock
    movements (and clients) the store had. *)
Theorem addProject_then_deleteProject : forall e r projectData w,
  unusedProjectId (idOf e (ticks w)) (db w) = true ->
  Store.projects
    (db (deleteProject (idOf e (ticks w)) (addProject e r projectData w)))
  = Store.projects (db w)
  /\ Store.transactions
       (db (deleteProject (idOf e (ticks w)) (addProject e r projectData w)))
     = Store.transactions (db w)
  /\ Store.stockMovements
       (db (deleteProject (idOf e (ticks w)) (addProject e r projectData w)))
     = Store.stockMovements (db w).
Proof.
  intros e r projectData w Hun.
  destruct (unusedProjectId_spec _ _ Hun) as [Hp [Ht Hm]].
  unfold deleteProject.
  cbn [setProjects setTransactions setStockMovements db Store.projects
       Store.transactions Store.stockMovements].
  split; [| split].
  - rewrite addProject_projects. cbn [filter Project.stamped Project.id].
    rewrite String.eqb_refl. cbn [negb]. apply filter_all.
    intros p Hin. now rewrite (Hp p Hin).
  - destruct (Project.type projectData) eqn:Ety.
    + destruct (addProject_quiet e r projectData w (or_introl Ety)) as [-> _].
      apply filter_all. intros t Hin. now rewrite (Ht t Hin).
    + destruct (status_eqb (Project.status projectData) orcamento) eqn:Est.
      * apply status_eqb_eq in Est.
        destruct (addProject_quiet e r projectData w (or_intror Est)) as [-> _].
        apply filter_all. intros t Hin. now rewrite (Ht t Hin).
      * assert (Hne : Project.status projectData <> orcamento).
        { intros Heq. apply status_eqb_eq in Heq. congruence. }
        destruct (addProject_sale e r projectData w Ety Hne) as [-> _].
        cbn [filter Transaction.stamped signalPayment Transaction.project_id
             opt_is].
        rewrite String.eqb_refl. cbn [negb]. apply filter_all.
        intros t Hin. now rewrite (Ht t Hin).
  - destruct (Project.type projectData) eqn:Ety.
    + destruct (addProject_quiet e r projectData w (or_introl Ety))
        as [_ [-> _]].
      apply filter_all. intros m Hin. now rewrite (Hm m Hin).
    + destruct (status_eqb (Project.status projectData) orcamento) eqn:Est.
      * apply status_eqb_eq in Est.
        destruct (addProject_quiet e r projectData w (or_intror Est))
          as [_ [-> _]].
        apply filter_all. intros m Hin. now rewrite (Hm m Hin).
      * assert (Hne : Project.status projectData <> orcamento).
        { intros Heq. apply status_eqb_eq in Heq. congruence. }
        destruct (addProject_sale e r projectData w Ety Hne) as [_ ->].
        rewrite filter_app, filter_none, filter_all; [reflexivity | |].
        -- intros m Hin. now rewrite (Hm m Hin).
        -- intros m Hin. apply in_rev in Hin.
           apply stampFrom_project_id with (i := idOf e (ticks w)) in Hin.
           ++ rewrite Hin. cbn [opt_is]. now rewrite String.eqb_refl.
           ++ intros x Hx. apply in_flat_map in Hx.
              destruct Hx as [item [_ Hx]].
              now apply expectedLineMovements_project_id in Hx.
Qed.

Lemma addProject_then_deleteProject_witness :
  Store.projects
    (db (deleteProject (idOf sampleEnv (ticks projectWorld))
           (addProject sampleEnv (db projectWorld) sampleSale projectWorld)))
  = Store.projects (db projectWorld)
  /\ Store.transactions
       (db (deleteProject (idOf sampleEnv (ticks projectWorld))
              (addProject sampleEnv (db projectWorld) sampleSale projectWorld)))
     = Store.transactions (db projectWorld)
  /\ Store.stockMovements
       (db (deleteProject (idOf sampleEnv (ticks projectWorld))
              (addProject sampleEnv (db projectWorld) sampleSale projectWorld)))
     = Store.stockMovements (db projectWorld).
Proof.
  apply (addProject_then_deleteProject sampleEnv (db projectWorld) sampleSale
           projectWorld).
  reflexivity.
Defined.

(** *** Project numbers *)

Lemma NoDup_map_filter : forall (A B : Type) (f : A -> B) (g : A -> bool)
    (l : list A),
  NoDup (map f l) -> NoDup (map f (filter g l)).
Proof.
  intros A B f g l. induction l as [| a l IH]; intros H; [constructor |].
  cbn [map] in H. inversion H as [| x xs Hnot Hnd]; subst.
  cbn [filter]. destruct (g a); [| now apply IH].
  cbn [map]. constructor; [| now apply IH].
  intros Hin. apply Hnot. apply in_map_iff in Hin.
  destruct Hin as [y [Hy Hin]]. apply filter_In in Hin.
  apply in_map_iff. exists y. tauto.
Qed.

Lemma nextProjectNumber_above : forall projects p,
  In p projects -> (Project.number p < nextProjectNumber projects)%Z.
Proof.
  intros projects p Hp. destruct projects as [| p0 ps]; [destruct Hp |].
  unfold nextProjectNumber.
  change (map Project.number (p0 :: ps))
    with (Project.number p0 :: map Project.number ps).
  destruct (maxNumber_spec (Project.number p0) (map Project.number ps))
    as [Hall _].
  rewrite Forall_forall in Hall.
  apply (in_map Project.number) in Hp.
  specialize (Hall (Project.number p) Hp). lia.
Qed.

(** X10: when the numbers of the stored projects are pairwise distinct,
    they still are after a project is created from a fresh render and
    after a project is deleted. *)
Theorem project_numbers_stay_distinct : forall e projectData i w,
  NoDup (map Project.number (Store.projects (db w))) ->
  NoDup (map Project.number
           (Store.projects
              (db (fresh (fun r => addProject e r projectData) w))))
  /\ NoDup (map Project.number (Store.projects (db (deleteProject i w)))).
Proof.
  intros e projectData i w H. split.
  - unfold fresh. rewrite addProject_projects.
    cbn [map Project.stamped Project.number]. constructor; [| assumption].
    intros Hin. apply in_map_iff in Hin. destruct Hin as [p [Hn Hp]].
    pose proof (nextProjectNumber_above _ _ Hp). lia.
  - unfold deleteProject.
    cbn [setProjects setTransactions setStockMovements db Store.projects].
    now apply NoDup_map_filter.
Qed.

Lemma project_numbers_stay_distinct_witness :
  map Project.number
    (Store.projects
       (db (fresh (fun r => addProject sampleEnv r sampleQuote) projectWorld)))
  = [2%Z; 1%Z]
  /\ NoDup (map Project.number
              (Store.projects
                 (db (fresh (fun r => addProject sampleEnv r sampleQuote)
                        projectWorld))))
  /\ NoDup (map Project.number
              (Store.projects (db (deleteProject "p1" projectWorld)))).
Proof.
  split; [reflexivity |].
  apply (project_numbers_stay_distinct sampleEnv sampleQuote "p1" projectWorld).
  repeat constructor. intros [].
Defined.

(** X11: two projects created from the same render, as the loop of
    [importProjectsCSV] does, receive the same number: the number is read
    from the captured projects, which the first insertion does not
    change. *)
Theorem addProject_same_render_same_number : forall e r first second w,
  exists p1 p2,
    Store.projects (db (addProject e r second (addProject e r first w)))
    = p2 :: p1 :: Store.projects (db w)
    /\ Project.title p1 = Project.title first
    /\ Project.title p2 = Project.title second
    /\ Project.number p1 = nextProjectNumber (Store.projects r)
    /\ Project.number p2 = Project.number p1.
Proof.
  intros e r first second w. eexists. eexists.
  rewrite !addProject_projects. repeat split.
Qed.

(** ** Updates and deletions under an id that nothing carries *)

Lemma map_unchanged : forall (A : Type) (f : A -> A) (l : list A),
  (forall x, In x l -> f x = x) -> map f l = l.
Proof.
  intros A f l. induction l as [| a l IH]; intros H; [reflexivity |].
  simpl. rewrite (H a (or_introl eq_refl)). f_equal. apply IH.
  intros x Hx. apply H. now right.
Qed.

Lemma mergeProject_none : forall p, mergeProject p ProjectUpdates.none = p.
Proof. intros []. reflexivity. Qed.

Lemma mergeClient_none : forall c, mergeClient c ClientUpdates.none = c.
Proof. intros []. reflexivity. Qed.

Lemma findProject_none : forall projects i,
  ~ In i (map Project.id projects) -> findProject projects i = None.
Proof.
  intros projects i H. unfold findProject.
  destruct (find (fun p => String.eqb (Project.id p) i) projects) as [p|] eqn:E;
    [| reflexivity].
  apply find_some in E. destruct E as [Hp Hid]. apply String.eqb_eq in Hid.
  exfalso. apply H. rewrite <- Hid. now apply in_map.
Qed.

(** X12: an update or a deletion under an id that nothing in the store
    carries leaves the whole store as it was, and so does an update that
    supplies no field: [updateProject], [updateClient], [deleteClient] and
    [deleteProject] never fail and never create a record. *)
Theorem unknown_id_changes_nothing : forall e i w,
  (~ In i (map Project.id (Store.projects (db w))) ->
   forall updates,
     fresh (fun r => updateProject e r i updates) w = w)
  /\ fresh (fun r => updateProject e r i ProjectUpdates.none) w = w
  /\ (~ In i (map Client.id (Store.clients (db w))) ->
      forall updates, updateClient i updates w = w)
  /\ updateClient i ClientUpdates.none w = w
  /\ (~ In i (map Client.id (Store.clients (db w))) -> deleteClient i w = w)
  /\ (unusedProjectId i (db w) = true -> deleteProject i w = w).
Proof.
  intros e i w. destruct w as [[cl pr tr pd sm] k].
  split; [| split; [| split; [| split; [| split]]]].
  - intros Hno updates. unfold fresh, updateProject.
    cbn [db Store.projects] in *. rewrite (findProject_none _ _ Hno).
    assert (Hmap : map (fun p => if String.eqb (Project.id p) i
                                 then mergeProject p updates else p) pr = pr).
    { apply map_unchanged. intros p Hp.
      destruct (String.eqb (Project.id p) i) eqn:E; [| reflexivity].
      apply String.eqb_eq in E. exfalso. apply Hno. rewrite <- E.
      now apply in_map. }
    unfold setProjects. cbn [db ticks Store.clients Store.projects
      Store.transactions Store.products Store.stockMovements].
    rewrite Hmap. destruct (ProjectUpdates.status updates) as [[| | | |]|];
      reflexivity.
  - unfold fresh, updateProject. cbn [ProjectUpdates.none ProjectUpdates.status].
    unfold setProjects. cbn [db ticks Store.clients Store.projects
      Store.transactions Store.products Store.stockMovements].
    rewrite map_unchanged; [reflexivity |].
    intros p _. rewrite mergeProject_none. now destruct (String.eqb _ _).
  - intros Hno updates. unfold updateClient, setClients.
    cbn [db ticks Store.clients Store.projects Store.transactions
         Store.products Store.stockMovements] in *.
    rewrite map_unchanged; [reflexivity |]. intros c Hc.
    destruct (String.eqb (Client.id c) i) eqn:E; [| reflexivity].
    apply String.eqb_eq in E. exfalso. apply Hno. rewrite <- E.
    now apply in_map.
  - unfold updateClient, setClients.
    cbn [db ticks Store.clients Store.projects Store.transactions
         Store.products Store.stockMovements].
    rewrite map_unchanged; [reflexivity |].
    intros c _. rewrite mergeClient_none. now destruct (String.eqb _ _).
  - intros Hno. unfold deleteClient, setClients.
    cbn [db ticks Store.clients Store.projects Store.transactions
         Store.products Store.stockMovements] in *.
    rewrite filter_all; [reflexivity |]. intros c Hc.
    apply negb_true_iff, String.eqb_neq. intros E. apply Hno.
    rewrite <- E. now apply in_map.
  - intros Hun. destruct (unusedProjectId_spec _ _ Hun) as [Hp [Ht Hm]].
    unfold deleteProject, setProjects, setTransactions, setStockMovements.
    cbn [db ticks Store.clients Store.projects Store.transactions
         Store.products Store.stockMovements] in *.
    rewrite !filter_all; [reflexivity | | |].
    + intros m Hin. now rewrite (Hm m Hin).
    + intros t Hin. now rewrite (Ht t Hin).
    + intros p Hin. now rewrite (Hp p Hin).
Qed.

(** ** Looking a project up after an operation *)

Lemma findProject_merged_other : forall projects i j updates,
  ProjectUpdates.id updates = None -> j <> i ->
  findProject
    (map (fun p => if String.eqb (Project.id p) i
                   then mergeProject p updates else p) projects) j
  = findProject projects j.
Proof.
  intros projects i j updates Hid Hne. unfold findProject.
  induction projects as [| p ps IH]; [reflexivity |].
  cbn [map find]. destruct (String.eqb (Project.id p) i) eqn:E.
  - cbn [mergeProject Project.id]. rewrite Hid. cbn [orElse].
    apply String.eqb_eq in E.
    assert (E2 : String.eqb (Project.id p) j = false)
      by (apply String.eqb_neq; congruence).
    now rewrite E2.
  - destruct (String.eqb (Project.id p) j); [reflexivity | assumption].
Qed.

Lemma findProject_filter : forall projects i j,
  findProject
    (filter (fun p => negb (String.eqb (Project.id p) i)) projects) j
  = if String.eqb j i then None else findProject projects j.
Proof.
  intros projects i j. unfold findProject.
  induction projects as [| p ps IH]; [now destruct (String.eqb j i) |].
  cbn [filter find]. destruct (String.eqb (Project.id p) i) eqn:E; cbn [negb].
  - rewrite IH. destruct (String.eqb j i) eqn:Ej; [reflexivity |].
    apply String.eqb_eq in E. apply String.eqb_neq in Ej.
    assert (E2 : String.eqb (Project.id p) j = false)
      by (apply String.eqb_neq; congruence).
    now rewrite E2.
  - cbn [find]. destruct (String.eqb (Project.id p) j) eqn:E2.
    + apply String.eqb_eq in E2. rewrite <- E2, E. reflexivity.
    + assumption.
Qed.

(** X18: looking a project up by id after an operation: a created project
    is found under its new id; after [deleteProject] the id is not found
    and every other id finds what it found before; after an
    [updateProject] that does not change the id, the id finds the merged
    record (supplied fields overwritten, the others kept) and every other
    id finds what it found before. *)
Theorem project_lookup_laws : forall e i w,
  (forall r projectData,
     findProject (Store.projects (db (addProject e r projectData w)))
       (idOf e (ticks w))
     = Some (Project.stamped projectData (idOf e (ticks w))
               (nextProjectNumber (Store.projects r)) (nowISO e)))
  /\ findProject (Store.projects (db (deleteProject i w))) i = None
  /\ (forall j, j <> i ->
        findProject (Store.projects (db (deleteProject i w))) j
        = findProject (Store.projects (db w)) j)
  /\ (forall r updates,
        ProjectUpdates.id updates = None ->
        findProject (Store.projects (db (updateProject e r i updates w))) i
        = option_map (fun p => mergeProject p updates)
            (findProject (Store.projects (db w)) i)
        /\ forall j, j <> i ->
             findProject (Store.projects (db (updateProject e r i updates w))) j
             = findProject (Store.projects (db w)) j).
Proof.
  intros e i w. split; [| split; [| split]].
  - intros r projectData. rewrite addProject_projects.
    unfold findProject. cbn [find Project.stamped Project.id].
    now rewrite String.eqb_refl.
  - unfold deleteProject.
    cbn [setProjects setTransactions setStockMovements db Store.projects].
    now rewrite findProject_filter, String.eqb_refl.
  - intros j Hne. unfold deleteProject.
    cbn [setProjects setTransactions setStockMovements db Store.projects].
    rewrite findProject_filter.
    apply String.eqb_neq in Hne. now rewrite Hne.
  - intros r updates Hid. rewrite updateProject_projects. split.
    + now apply findProject_merged.
    + intros j Hne. now apply findProject_merged_other.
Qed.

(** *** Two updates from the same render *)

(** X22: two updates that set [concluido], issued from the same render of
    a store in which the project is not yet [concluido], each emit the
    final payment: the guard reads the captured project, which the first
    update does not change. *)
Theorem updateProject_same_render_pays_twice :
  forall e r i updates project w,
    findProject (Store.projects r) i = Some project ->
    Project.status project <> concluido ->
    ProjectUpdates.status updates = Some concluido ->
    exists t1 t2,
      Store.transactions
        (db (updateProject e r i updates (updateProject e r i updates w)))
      = t2 :: t1 :: Store.transactions (db w)
      /\ Transaction.category t1 = "Pagamento Final"%string
      /\ Transaction.category t2 = "Pagamento Final"%string
      /\ Transaction.project_id t1 = Some i
      /\ Transaction.project_id t2 = Some i
      /\ Transaction.amount t1 = (Project.budget project * half)%Q
      /\ Transaction.amount t2 = (Project.budget project * half)%Q.
Proof.
  intros e r i updates project w Hf Hst Hu.
  assert (E : status_eqb (Project.status project) concluido = false).
  { destruct (status_eqb (Project.status project) concluido) eqn:E;
      [| reflexivity].
    apply status_eqb_eq in E. contradiction. }
  eexists. eexists.
  rewrite !updateProject_transactions, Hu, Hf, E.
  repeat split.
Qed.

Lemma updateProject_same_render_pays_twice_witness :
  exists t1 t2,
    Store.transactions
      (db (updateProject sampleEnv (db projectWorld) "p1" (setStatus concluido)
             (updateProject sampleEnv (db projectWorld) "p1"
                (setStatus concluido) projectWorld)))
    = t2 :: t1 :: Store.transactions (db projectWorld)
    /\ Transaction.category t1 = "Pagamento Final"%string
    /\ Transaction.category t2 = "Pagamento Final"%string
    /\ Transaction.project_id t1 = Some "p1"%string
    /\ Transaction.project_id t2 = Some "p1"%string
    /\ Transaction.amount t1 = (Project.budget storedSale * half)%Q
    /\ Transaction.amount t2 = (Project.budget storedSale * half)%Q.
Proof.
  apply (updateProject_same_render_pays_twice sampleEnv (db projectWorld) "p1"
           (setStatus concluido) storedSale projectWorld).
  - reflexivity.
  - discriminate.
  - reflexivity.
Defined.

(** ** The effect of a stock movement on the products *)

(** X19: [addStockMovement] always records the movement and never adds,
    removes or reorders a product; it changes nothing but [current_stock],
    by the signed quantity for the products of the id of the movement and
    not at all for the others, so the counter may become negative and a
    movement for an id that no product carries leaves every product as it
    was. *)
Theorem addStockMovement_effect : forall e m w,
  Store.stockMovements (db (addStockMovement e m w))
  = StockMovement.stamped m (idOf e (ticks w)) (nowISO e)
    :: Store.stockMovements (db w)
  /\ Forall2
       (fun p p' =>
          Product.with_current_stock p' (Product.current_stock p) = p
          /\ (Product.current_stock p'
              == Product.current_stock p
                 + (if String.eqb (Product.id p) (StockMovement.product_id m)
                    then signedQuantity m else 0))%Q)
       (Store.products (db w))
       (Store.products (db (addStockMovement e m w)))
  /\ (~ In (StockMovement.product_id m)
           (map Product.id (Store.products (db w))) ->
      Store.products (db (addStockMovement e m w)) = Store.products (db w)).
Proof.
  intros e m w. split; [reflexivity |].
  change (Store.products (db (addStockMovement e m w)))
    with (map (fun p =>
                 if String.eqb (Product.id p) (StockMovement.product_id m)
                 then Product.with_current_stock p
                        (if is_entrada (StockMovement.type m)
                         then (Product.current_stock p + StockMovement.quantity m)%Q
                         else (Product.current_stock p - StockMovement.quantity m)%Q)
                 else p) (Store.products (db w))).
  split.
  - induction (Store.products (db w)) as [| p ps IH]; [constructor |].
    cbn [map]. constructor; [| exact IH].
    destruct (String.eqb (Product.id p) (StockMovement.product_id m)).
    + split; [now destruct p |].
      cbn [Product.with_current_stock Product.current_stock].
      unfold signedQuantity.
      destruct (is_entrada (StockMovement.type m)); ring.
    + split; [now destruct p | ring].
  - intros Hno. apply map_unchanged. intros p Hp.
    destruct (String.eqb (Product.id p) (StockMovement.product_id m)) eqn:E;
      [| reflexivity].
    apply String.eqb_eq in E. exfalso. apply Hno. rewrite <- E.
    now apply in_map.
Qed.

(** *** Low stock *)

Lemma count_monotone : forall (A : Type) (low : A -> bool) (f : A -> A)
    (l : list A),
  (forall x, In x l -> low x = true -> low (f x) = true) ->
  List.length (filter low l) <= List.length (filter low (map f l)).
Proof.
  intros A low f l. induction l as [| a l IH]; intros H; [apply Nat.le_refl |].
  cbn [map filter].
  assert (IH' : List.length (filter low l) <= List.length (filter low (map f l))).
  { apply IH. intros x Hx. apply H. now right. }
  destruct (low a) eqn:Ea.
  - rewrite (H a (or_introl eq_refl) Ea). simpl. lia.
  - destruct (low (f a)); simpl; lia.
Qed.

Lemma count_antitone : forall (A : Type) (low : A -> bool) (f : A -> A)
    (l : list A),
  (forall x, In x l -> low (f x) = true -> low x = true) ->
  List.length (filter low (map f l)) <= List.length (filter low l).
Proof.
  intros A low f l. induction l as [| a l IH]; intros H; [apply Nat.le_refl |].
  cbn [map filter].
  assert (IH' : List.length (filter low (map f l)) <= List.length (filter low l)).
  { apply IH. intros x Hx. apply H. now right. }
  destruct (low (f a)) eqn:Ea.
  - rewrite (H a (or_introl eq_refl) Ea). simpl. lia.
  - destruct (low a); simpl; lia.
Qed.

(** X21: an outgoing movement of a quantity that is not negative never
    lowers the number of low-stock items of the dashboard, and an incoming
    one never raises it. *)
Theorem lowStockItems_monotone : forall e m w,
  (0 <= StockMovement.quantity m)%Q ->
  (StockMovement.type m = saida ->
   lowStockItems (db w) <= lowStockItems (db (addStockMovement e m w)))
  /\ (StockMovement.type m = entrada ->
      lowStockItems (db (addStockMovement e m w)) <= lowStockItems (db w)).
Proof.
  intros e m w Hq. unfold lowStockItems.
  change (Store.products (db (addStockMovement e m w)))
    with (map (fun p =>
                 if String.eqb (Product.id p) (StockMovement.product_id m)
                 then Product.with_current_stock p
                        (if is_entrada (StockMovement.type m)
                         then (Product.current_stock p + StockMovement.quantity m)%Q
                         else (Product.current_stock p - StockMovement.quantity m)%Q)
                 else p) (Store.products (db w))).
  split; intros Ht; rewrite Ht; cbn [is_entrada].
  - apply count_monotone. intros p _ Hlow.
    destruct (String.eqb (Product.id p) (StockMovement.product_id m));
      [| assumption].
    cbn [Product.with_current_stock Product.current_stock Product.min_stock].
    apply Qle_bool_iff in Hlow. apply Qle_bool_iff.
    apply Qle_trans with (y := Product.current_stock p); [| assumption].
    rewrite <- (Qplus_0_r (Product.current_stock p)) at 2.
    unfold Qminus. apply Qplus_le_compat; [apply Qle_refl |].
    change 0%Q with (- 0)%Q. now apply Qopp_le_compat.
  - apply count_antitone. intros p _ Hlow.
    destruct (String.eqb (Product.id p) (StockMovement.product_id m));
      [| assumption].
    cbn [Product.with_current_stock Product.current_stock Product.min_stock]
      in Hlow.
    apply Qle_bool_iff in Hlow. apply Qle_bool_iff.
    apply Qle_trans with (y := (Product.current_stock p
                                + StockMovement.quantity m)%Q); [| assumption].
    rewrite <- (Qplus_0_r (Product.current_stock p)) at 1.
    apply Qplus_le_compat; [apply Qle_refl | assumption].
Qed.

Lemma lowStockItems_monotone_witness :
  (0 <= StockMovement.quantity
          (saleMovement sampleEnv "p1" productA sampleLine))%Q
  /\ lowStockItems (db sampleWorld)
     <= lowStockItems
          (db (addStockMovement sampleEnv
                 (saleMovement sampleEnv "p1" productA sampleLine) sampleWorld)).
Proof.
  assert (Hq : (0 <= StockMovement.quantity
                       (saleMovement sampleEnv "p1" productA sampleLine))%Q)
    by discriminate.
  split; [exact Hq |].
  apply (proj1 (lowStockItems_monotone sampleEnv
                  (saleMovement sampleEnv "p1" productA sampleLine)
                  sampleWorld Hq)).
  reflexivity.
Defined.

(** ** Reading a CSV line *)

Lemma parseLoop_length : forall line result current inQuotes,
  List.length (parseLoop line result current inQuotes)
  = List.length result + S (unquotedCommas line inQuotes).
Proof.
  induction line as [| c line IH]; intros result current inQuotes.
  - simpl. rewrite length_app. simpl. lia.
  - cbn [parseLoop unquotedCommas].
    destruct (Ascii.eqb c dquote); [apply IH |].
    destruct (Ascii.eqb c comma && negb inQuotes).
    + rewrite IH, length_app. simpl. lia.
    + apply IH.
Qed.

Lemma parsed_field_count : forall line,
  List.length (parseCSVLine line) = S (unquotedCommas line false)
  /\ parseCSVLine line <> [].
Proof.
  intros line. unfold parseCSVLine.
  pose proof (parseLoop_length line [] EmptyString false) as H.
  cbn [List.length Nat.add] in H. split; [exact H |].
  intros E. rewrite E in H. discriminate.
Qed.

(** X13: [parseCSVLine] returns one field more than the line has commas
    outside double quotes; in particular it never returns an empty list,
    and the empty line gives one empty field. *)
Theorem parseCSVLine_field_count : forall line,
  List.length (parseCSVLine line) = S (unquotedCommas line false)
  /\ parseCSVLine line <> []
  /\ parseCSVLine EmptyString = [EmptyString].
Proof.
  intros line. destruct (parsed_field_count line) as [H1 H2].
  split; [exact H1 | split; [exact H2 | reflexivity]].
Qed.

Lemma hasChar_trimStart : forall c s,
  hasChar c s = false -> hasChar c (trimStart s) = false.
Proof.
  intros c s. induction s as [| x s IH]; intros H; [reflexivity |].
  cbn [trimStart]. destruct (isSpace x); [| assumption].
  apply IH. cbn [hasChar] in H. apply orb_false_iff in H. tauto.
Qed.

Lemma hasChar_trimEnd : forall c s,
  hasChar c s = false -> hasChar c (trimEnd s) = false.
Proof.
  intros c s. induction s as [| x s IH]; intros H; [reflexivity |].
  cbn [hasChar] in H. apply orb_false_iff in H. destruct H as [Hx Hs].
  cbn [trimEnd]. destruct (isSpace x && isEmpty (trimEnd s)); [reflexivity |].
  cbn [hasChar]. now rewrite Hx, (IH Hs).
Qed.

Lemma hasChar_trim : forall c s,
  hasChar c s = false -> hasChar c (trim s) = false.
Proof.
  intros c s H. unfold trim. now apply hasChar_trimEnd, hasChar_trimStart.
Qed.

Lemma trimStart_solid : forall s, startsSolid (trimStart s) = true.
Proof.
  induction s as [| c s IH]; [reflexivity |].
  cbn [trimStart]. destruct (isSpace c) eqn:E; [assumption |].
  cbn [startsSolid]. now rewrite E.
Qed.

Lemma trimStart_of_solid : forall s, startsSolid s = true -> trimStart s = s.
Proof.
  intros [| c s] H; [reflexivity |].
  cbn [startsSolid] in H. apply negb_true_iff in H.
  cbn [trimStart]. now rewrite H.
Qed.

Lemma trimEnd_keeps_solid : forall s,
  startsSolid s = true -> startsSolid (trimEnd s) = true.
Proof.
  intros [| c s] H; [reflexivity |].
  cbn [startsSolid] in H. apply negb_true_iff in H.
  cbn [trimEnd]. rewrite H. cbn [andb startsSolid]. now rewrite H.
Qed.

Lemma trimEnd_idempotent : forall s, trimEnd (trimEnd s) = trimEnd s.
Proof.
  induction s as [| c s IH]; [reflexivity |].
  cbn [trimEnd].
  destruct (isSpace c && isEmpty (trimEnd s)) eqn:E; [reflexivity |].
  cbn [trimEnd]. now rewrite IH, E.
Qed.

Lemma trim_idempotent : forall s, trim (trim s) = trim s.
Proof.
  intros s. unfold trim.
  rewrite (trimStart_of_solid (trimEnd (trimStart s))).
  - apply trimEnd_idempotent.
  - apply trimEnd_keeps_solid, trimStart_solid.
Qed.

Lemma parseLoop_clean : forall line result current inQuotes,
  Forall (fun f => hasChar dquote f = false /\ trim f = f) result ->
  hasChar dquote current = false ->
  Forall (fun f => hasChar dquote f = false /\ trim f = f)
         (parseLoop line result current inQuotes).
Proof.
  induction line as [| c line IH]; intros result current inQuotes Hr Hc.
  - cbn [parseLoop]. apply Forall_app. split; [assumption |].
    constructor; [| constructor].
    split; [now apply hasChar_trim | apply trim_idempotent].
  - cbn [parseLoop]. destruct (Ascii.eqb c dquote) eqn:Eq.
    + now apply IH.
    + destruct (Ascii.eqb c comma && negb inQuotes).
      * apply IH; [| reflexivity]. apply Forall_app. split; [assumption |].
        constructor; [| constructor].
        split; [now apply hasChar_trim | apply trim_idempotent].
      * apply IH; [assumption |].
        rewrite hasChar_append, Hc. cbn [hasChar]. now rewrite Eq.
Qed.

(** X14: no field that [parseCSVLine] returns holds a double quote, and
    every field is trimmed: quotes are dropped wherever they stand, so a
    value with a double quote in it cannot be read back. *)
Theorem parseCSVLine_fields_clean : forall line,
  Forall (fun f => hasChar dquote f = false /\ trim f = f) (parseCSVLine line).
Proof.
  intros line. unfold parseCSVLine.
  apply parseLoop_clean; [constructor | reflexivity].
Qed.

Lemma parseLoop_unquoted : forall line result current,
  hasChar dquote line = false ->
  parseLoop line result current false
  = result ++ match splitOn comma line with
              | h :: t => trim (current ++ h)%string :: map trim t
              | [] => []
              end.
Proof.
  induction line as [| c line IH]; intros result current H.
  - cbn [parseLoop splitOn]. now rewrite append_empty_r.
  - cbn [hasChar] in H. apply orb_false_iff in H. destruct H as [Hc Hl].
    cbn [parseLoop splitOn]. rewrite Hc.
    destruct (Ascii.eqb c comma) eqn:Ec; cbn [andb negb].
    + rewrite (IH _ _ Hl), append_empty_r.
      destruct (splitOn comma line) as [| h t] eqn:Es.
      * now apply splitOn_nonempty in Es.
      * cbn [append map]. now rewrite <- app_assoc.
    + rewrite (IH _ _ Hl).
      destruct (splitOn comma line) as [| h t] eqn:Es.
      * now apply splitOn_nonempty in Es.
      * now rewrite append_assoc.
Qed.

(** X15: on a line without double quotes [parseCSVLine] is the split at
    the commas followed by the trimming of every piece. *)
Theorem parseCSVLine_without_quotes : forall line,
  hasChar dquote line = false ->
  parseCSVLine line = map trim (splitOn comma line).
Proof.
  intros line H. unfold parseCSVLine. rewrite (parseLoop_unquoted _ _ _ H).
  destruct (splitOn comma line) as [| h t] eqn:Es; reflexivity.
Qed.

Lemma parseCSVLine_without_quotes_witness :
  parseCSVLine "Cliente, Ana ,Rua A,F"
  = map trim (splitOn comma "Cliente, Ana ,Rua A,F")
  /\ parseCSVLine "Cliente, Ana ,Rua A,F"
     = ["Cliente"; "Ana"; "Rua A"; "F"]%string.
Proof.
  split; [| reflexivity].
  apply (parseCSVLine_without_quotes "Cliente, Ana ,Rua A,F" eq_refl).
Defined.

(** ** Importing clients *)

Lemma addClient_frame : forall e c w,
  Store.projects (db (addClient e c w)) = Store.projects (db w)
  /\ Store.transactions (db (addClient e c w)) = Store.transactions (db w)
  /\ Store.products (db (addClient e c w)) = Store.products (db w)
  /\ Store.stockMovements (db (addClient e c w)) = Store.stockMovements (db w).
Proof. intros e c w. repeat split. Qed.

Lemma importClientLine_cases : forall e line w,
  importClientLine e line w = w
  \/ importClientLine e line w
     = addClient e (clientOfValues (parseCSVLine (trim line))) w.
Proof.
  intros e line w. unfold importClientLine.
  destruct (isEmpty (trim line)); [now left |].
  destruct (List.length (parseCSVLine (trim line)) <? 10); [now left | now right].
Qed.

Lemma importLines_frame : forall e lines w,
  Store.projects (db (fold_left (fun w0 l => importClientLine e l w0) lines w))
  = Store.projects (db w)
  /\ Store.transactions
       (db (fold_left (fun w0 l => importClientLine e l w0) lines w))
     = Store.transactions (db w)
  /\ Store.products (db (fold_left (fun w0 l => importClientLine e l w0) lines w))
     = Store.products (db w)
  /\ Store.stockMovements
       (db (fold_left (fun w0 l => importClientLine e l w0) lines w))
     = Store.stockMovements (db w)
  /\ exists added,
       Store.clients (db (fold_left (fun w0 l => importClientLine e l w0) lines w))
       = added ++ Store.clients (db w)
       /\ List.length added <= List.length lines.
Proof.
  intros e lines. induction lines as [| l lines IH]; intros w.
  - cbn [fold_left]. repeat split. exists []. split; [reflexivity | simpl; lia].
  - cbn [fold_left].
    destruct (IH (importClientLine e l w)) as [H1 [H2 [H3 [H4 [added [H5 H6]]]]]].
    rewrite H1, H2, H3, H4, H5.
    destruct (importClientLine_cases e l w) as [-> | ->].
    + repeat split. exists added. split; [reflexivity | simpl; lia].
    + repeat split.
      exists (added ++ [Client.stamped (clientOfValues (parseCSVLine (trim l)))
                          (idOf e (ticks w)) (nowISO e)]).
      split.
      * rewrite <- app_assoc. reflexivity.
      * rewrite length_app. simpl. lia.
Qed.

(** X16: [importClientsCSV] never reads the first line; it skips a line
    that is blank or has fewer than nine commas outside double quotes; a
    text without line break imports nothing; and whatever the text, it
    leaves projects, transactions, products and stock movements alone and
    only puts clients, at most one per further line, in front of the
    stored ones. *)
Theorem importClientsCSV_skips : forall e text w,
  (hasChar newline text = false -> importClientsCSV e text w = w)
  /\ (forall header,
        hasChar newline header = false ->
        importClientsCSV e (header ++ String newline text)%string w
        = importClientsCSV e (String newline text) w)
  /\ (forall line,
        isEmpty (trim line) = true
        \/ unquotedCommas (trim line) false < 9 ->
        importClientLine e line w = w)
  /\ Store.projects (db (importClientsCSV e text w)) = Store.projects (db w)
  /\ Store.transactions (db (importClientsCSV e text w))
     = Store.transactions (db w)
  /\ Store.products (db (importClientsCSV e text w)) = Store.products (db w)
  /\ Store.stockMovements (db (importClientsCSV e text w))
     = Store.stockMovements (db w)
  /\ exists added,
       Store.clients (db (importClientsCSV e text w))
       = added ++ Store.clients (db w)
       /\ List.length added <= List.length (tl (splitOn newline text)).
Proof.
  intros e text w. split; [| split; [| split]].
  - intros H. unfold importClientsCSV. now rewrite (splitOn_last _ _ H).
  - intros header H. unfold importClientsCSV.
    rewrite (splitOn_line _ _ _ H).
    change (String newline text) with (EmptyString ++ String newline text)%string.
    rewrite (splitOn_line newline EmptyString text eq_refl). reflexivity.
  - intros line H. unfold importClientLine.
    destruct (isEmpty (trim line)); [reflexivity |].
    destruct H as [H | H]; [discriminate |].
    destruct (parsed_field_count (trim line)) as [Hlen _].
    rewrite Hlen.
    assert (E : (S (unquotedCommas (trim line) false) <? 10) = true)
      by (apply Nat.ltb_lt; lia).
    now rewrite E.
  - apply importLines_frame.
Qed.

Lemma importLines_added : forall e lines w,
  exists added,
    Store.clients (db (fold_left (fun w0 l => importClientLine e l w0) lines w))
    = added ++ Store.clients (db w)
    /\ Forall (fun c => exists values k,
                 c = Client.stamped (clientOfValues values) (idOf e k) (nowISO e)
                 /\ 10 <= List.length values)
              added.
Proof.
  intros e lines. induction lines as [| l lines IH]; intros w.
  - exists []. split; [reflexivity | constructor].
  - cbn [fold_left].
    destruct (IH (importClientLine e l w)) as [added [H1 H2]].
    rewrite H1. unfold importClientLine.
    destruct (isEmpty (trim l)); [now exists added |].
    destruct (List.length (parseCSVLine (trim l)) <? 10) eqn:E;
      [now exists added |].
    exists (added ++ [Client.stamped (clientOfValues (parseCSVLine (trim l)))
                        (idOf e (ticks w)) (nowISO e)]).
    split.
    + rewrite <- app_assoc. reflexivity.
    + apply Forall_app. split; [assumption |].
      constructor; [| constructor].
      exists (parseCSVLine (trim l)), (ticks w). split; [reflexivity |].
      apply Nat.ltb_ge in E. exact E.
Qed.

(** X23: whatever the text, every client that [importClientsCSV] adds has
    the country "Brasil", an empty state, the street type "Rua", both
    totals 0, the time stamp of the import, a plain boolean [isento_icms],
    and never both a CPF and a CNPJ. *)
Theorem importClientsCSV_defaults : forall e text w,
  exists added,
    Store.clients (db (importClientsCSV e text w))
    = added ++ Store.clients (db w)
    /\ Forall (fun c =>
                 Address.country (Client.address c) = "Brasil"%string
                 /\ Address.state (Client.address c) = EmptyString
                 /\ Address.streetType (Client.address c) = "Rua"%string
                 /\ Client.total_projects c = Some 0%Q
                 /\ Client.total_value c = Some 0%Q
                 /\ Client.created_at c = nowISO e
                 /\ Client.isento_icms c <> None
                 /\ (Client.cpf c = None \/ Client.cnpj c = None))
              added.
Proof.
  intros e text w. unfold importClientsCSV.
  destruct (importLines_added e (tl (splitOn newline text)) w)
    as [added [H1 H2]].
  exists added. split; [assumption |].
  revert H2. apply Forall_impl. intros c [values [k [-> _]]].
  cbn [Client.stamped clientOfValues Client.address Address.country
       Address.state Address.streetType Client.total_projects
       Client.total_value Client.created_at Client.isento_icms Client.cpf
       Client.cnpj].
  repeat split; try discriminate.
  destruct (nth_error values 3) as [s |]; cbn [opt_is]; [| now left].
  destruct (String.eqb s "F") eqn:EF; [| now left].
  destruct (String.eqb s "J") eqn:EJ; [| now right].
  apply String.eqb_eq in EF, EJ. congruence.
Qed.

(** ** The exported text *)

(** X24: for clients whose texts hold no double quote and no line break,
    the exported text splits into the header line followed by one line per
    client, in the order of the store, and every one of these lines reads
    back as eighteen fields, as many as the header names. *)
Theorem exportClientsCSV_shape : forall s,
  forallb exportable (Store.clients s) = true ->
  splitOn newline (exportClientsCSV s)
  = join "," clientHeaders
    :: map (fun client => join "," (clientRow client)) (Store.clients s)
  /\ Forall (fun line => List.length (parseCSVLine line)
                         = List.length clientHeaders)
            (splitOn newline (exportClientsCSV s)).
Proof.
  intros s H.
  assert (Hsplit :
    splitOn newline (exportClientsCSV s)
    = join "," clientHeaders
      :: map (fun client => join "," (clientRow client)) (Store.clients s)).
  { unfold exportClientsCSV. apply splitOn_join.
    constructor; [reflexivity |].
    apply Forall_forall. intros line Hline.
    apply in_map_iff in Hline. destruct Hline as [c [<- Hc]].
    apply clientRow_one_line. rewrite forallb_forall in H. now apply H. }
  split; [exact Hsplit |]. rewrite Hsplit.
  constructor; [reflexivity |].
  apply Forall_forall. intros line Hline.
  apply in_map_iff in Hline. destruct Hline as [c [<- Hc]].
  rewrite forallb_forall in H.
  rewrite (parseCSVLine_clientRow c (H c Hc)). reflexivity.
Qed.

Lemma exportClientsCSV_shape_witness :
  splitOn newline (exportClientsCSV clientStore)
  = join "," clientHeaders
    :: map (fun client => join "," (clientRow client))
           (Store.clients clientStore)
  /\ Forall (fun line => List.length (parseCSVLine line)
                         = List.length clientHeaders)
            (splitOn newline (exportClientsCSV clientStore)).
Proof.
  apply (exportClientsCSV_shape clientStore). reflexivity.
Defined.

(** ** Pending payments on the dashboard *)

Lemma pendingPayments_steps : forall s,
  pendingPayments s = fold_left pendingStep (Store.projects s) 0%Q.
Proof.
  intros s. unfold pendingPayments. generalize 0%Q as acc.
  induction (Store.projects s) as [| p ps IH]; intros acc; [reflexivity |].
  cbn [filter fold_left]. unfold pendingStep at 2.
  destruct (status_eqb (Project.status p) concluido
            || status_eqb (Project.status p) entregue); apply IH.
Qed.

Lemma half_share_nonneg : forall b, (0 <= b)%Q -> (0 <= b * half)%Q.
Proof.
  intros b Hb. apply Qmult_le_0_compat; [assumption | discriminate].
Qed.

Lemma Qle_plus_nonneg : forall a a' x : Q,
  (a <= a')%Q -> (0 <= x)%Q -> (a <= a' + x)%Q.
Proof.
  intros a a' x Ha Hx. rewrite <- (Qplus_0_r a).
  now apply Qplus_le_compat.
Qed.

Lemma pendingStep_grows : forall l a,
  nonNegativeBudgets l = true ->
  (a <= fold_left pendingStep l a)%Q.
Proof.
  induction l as [| p ps IH]; intros a H; [apply Qle_refl |].
  cbn [nonNegativeBudgets forallb] in H. apply andb_true_iff in H.
  destruct H as [Hp Hps]. apply Qle_bool_iff in Hp.
  cbn [fold_left]. apply Qle_trans with (y := pendingStep a p).
  - unfold pendingStep.
    destruct (status_eqb (Project.status p) concluido
              || status_eqb (Project.status p) entregue);
      [| apply Qle_refl].
    apply Qle_plus_nonneg; [apply Qle_refl | now apply half_share_nonneg].
  - now apply IH.
Qed.

Lemma pendingStep_reaches_share : forall l q a,
  nonNegativeBudgets l = true ->
  In q l ->
  status_eqb (Project.status q) concluido
  || status_eqb (Project.status q) entregue = true ->
  (0 <= a)%Q ->
  (Project.budget q * half <= fold_left pendingStep l a)%Q.
Proof.
  induction l as [| p ps IH]; intros q a H Hin Hq Ha; [destruct Hin |].
  cbn [nonNegativeBudgets forallb] in H. apply andb_true_iff in H.
  destruct H as [Hp Hps]. apply Qle_bool_iff in Hp.
  cbn [fold_left]. destruct Hin as [-> | Hin].
  - apply Qle_trans with (y := pendingStep a q);
      [| now apply pendingStep_grows].
    unfold pendingStep. rewrite Hq.
    rewrite <- (Qplus_0_l (Project.budget q * half)) at 1.
    apply Qplus_le_compat; [assumption | apply Qle_refl].
  - apply IH; try assumption. unfold pendingStep.
    destruct (status_eqb (Project.status p) concluido
              || status_eqb (Project.status p) entregue); [| assumption].
    apply Qle_plus_nonneg; [assumption | now apply half_share_nonneg].
Qed.

Lemma pendingStep_after_update : forall i updates l a a',
  ProjectUpdates.status updates = Some concluido ->
  ProjectUpdates.budget updates = None ->
  nonNegativeBudgets l = true ->
  (a <= a')%Q ->
  (fold_left pendingStep l a
   <= fold_left pendingStep
        (map (fun p => if String.eqb (Project.id p) i
                       then mergeProject p updates else p) l) a')%Q.
Proof.
  intros i updates l a a' Hu Hb. revert a a'.
  induction l as [| p ps IH]; intros a a' H Ha; [assumption |].
  cbn [nonNegativeBudgets forallb] in H. apply andb_true_iff in H.
  destruct H as [Hp Hps]. apply Qle_bool_iff in Hp.
  cbn [map fold_left]. apply IH; [assumption |].
  destruct (String.eqb (Project.id p) i).
  - unfold pendingStep at 2.
    cbn [mergeProject Project.status Project.budget]. rewrite Hu, Hb.
    cbn [orElse status_eqb orb]. unfold pendingStep.
    destruct (status_eqb (Project.status p) concluido
              || status_eqb (Project.status p) entregue).
    + apply Qplus_le_compat; [assumption | apply Qle_refl].
    + apply Qle_plus_nonneg; [assumption | now apply half_share_nonneg].
  - unfold pendingStep.
    destruct (status_eqb (Project.status p) concluido
              || status_eqb (Project.status p) entregue); [| assumption].
    apply Qplus_le_compat; [assumption | apply Qle_refl].
Qed.

Lemma nonNegativeBudgets_update : forall i updates l,
  ProjectUpdates.budget updates = None ->
  nonNegativeBudgets l = true ->
  nonNegativeBudgets
    (map (fun p => if String.eqb (Project.id p) i
                   then mergeProject p updates else p) l) = true.
Proof.
  intros i updates l Hb. induction l as [| p ps IH]; intros H; [reflexivity |].
  cbn [nonNegativeBudgets forallb] in H. apply andb_true_iff in H.
  destruct H as [Hp Hps]. cbn [map nonNegativeBudgets forallb].
  apply andb_true_iff. split; [| now apply IH].
  destruct (String.eqb (Project.id p) i); [| assumption].
  cbn [mergeProject Project.budget]. now rewrite Hb.
Qed.

(** X20: a completed project counts as pending on the dashboard, whatever
    transactions exist: with budgets that are not negative, an update that
    sets [concluido] and leaves the budget alone never lowers
    [pendingPayments], and afterwards [pendingPayments] is at least half
    the budget of the project found under the id. *)
Theorem pendingPayments_after_completion : forall e i updates project w,
  nonNegativeBudgets (Store.projects (db w)) = true ->
  findProject (Store.projects (db w)) i = Some project ->
  ProjectUpdates.status updates = Some concluido ->
  ProjectUpdates.budget updates = None ->
  (pendingPayments (db w)
   <= pendingPayments (db (fresh (fun r => updateProject e r i updates) w)))%Q
  /\ (Project.budget project * half
      <= pendingPayments (db (fresh (fun r => updateProject e r i updates) w)))%Q.
Proof.
  intros e i updates project w Hnn Hf Hu Hb.
  rewrite !pendingPayments_steps. unfold fresh.
  rewrite updateProject_projects. split.
  - apply pendingStep_after_update; try assumption. apply Qle_refl.
  - unfold findProject in Hf. apply find_some in Hf. destruct Hf as [Hin Hid].
    assert (Hq : (Project.budget project * half)%Q
                 = (Project.budget (mergeProject project updates) * half)%Q).
    { cbn [mergeProject Project.budget]. now rewrite Hb. }
    rewrite Hq. apply pendingStep_reaches_share.
    + now apply nonNegativeBudgets_update.
    + apply in_map_iff. exists project. split; [| assumption].
      now rewrite Hid.
    + cbn [mergeProject Project.status]. now rewrite Hu.
    + apply Qle_refl.
Qed.

Lemma pendingPayments_after_completion_witness :
  (pendingPayments (db projectWorld)
   <= pendingPayments
        (db (fresh (fun r => updateProject sampleEnv r "p1" (setStatus concluido))
               projectWorld)))%Q
  /\ (Project.budget storedSale * half
      <= pendingPayments
           (db (fresh (fun r => updateProject sampleEnv r "p1"
                                  (setStatus concluido))
                  projectWorld)))%Q.
Proof.
  apply (pendingPayments_after_completion sampleEnv "p1" (setStatus concluido)
           storedSale projectWorld); reflexivity.
Defined.
